(** * coq2vec: a shallow embedding of [src/coq2vec/__init__.py]

    The module trains a sequence autoencoder over tokenised Coq terms and
    exposes the encoder's final hidden state as the vector of a term.

    Conventions of the embedding.
    - A Python [str] is the list of its code points ([pystr]); [int] is [Z].
    - A raised exception is a value of [exn]; fallible code lives in the
      [result] monad, methods that also mutate [self], write files or
      drive the optimiser live in the state-and-exception monad [Py].
    - A global name is resolved in a [scope] at the moment it is used, as
      Python does; [module_globals] is the scope of the module as written.
    - A [torch.LongTensor] is a shape with its row-major contents; float
      tensors are vectors over the real numbers, the arithmetic torch's
      floating point approximates.
    - What the Python run time leaves open (iteration order of a [set],
      random initial weights, the shuffle of the data loader, the
      gradients computed by autograd, ties of [topk], whether the sampler
      takes an empty data set) is a field of the class [Runtime].
    - The CPU configuration is modelled ([use_cuda = False]): device
      placement ([maybe_cuda], [.to(device)]) moves tensors and does not
      change their values.  The progress bars of [tqdm] and the elapsed
      times of [timeSince] and [asMinutes] are output only; a [print] is
      recorded as an event without its text. *)

From Stdlib Require Import ZArith NArith List String Ascii Bool Lia.
From Stdlib Require Import Reals Lra.
From stdpp Require Import base option list strings gmap.

Local Open Scope Z_scope.

(* ===================================================================== *)
(** ** Python values, exceptions and the two monads                       *)
(* ===================================================================== *)

(** The exception classes the module can raise.  [OSError] stands for
    that class and its subclasses other than [FileNotFoundError]
    ([IsADirectoryError], [NotADirectoryError], [PermissionError]).
    [NotTrainedError] is the class the documentation names for inference
    on an untrained vectorizer; the module defines no class of that name
    and no path of the code constructs it. *)
Inductive exn : Set :=
| NameError | AssertionError | AttributeError | IndexError | ValueError
| RuntimeError | ZeroDivisionError | FileNotFoundError | OSError
| NotTrainedError.

Inductive result (A : Type) : Type :=
| Ok (a : A)
| Raise (e : exn).
Arguments Ok {A} a.
Arguments Raise {A} e.

#[global] Instance result_ret : MRet result := fun _ a => Ok a.
#[global] Instance result_bind : MBind result := fun _ _ f m =>
  match m with Ok a => f a | Raise e => Raise e end.
#[global] Instance result_fmap : FMap result := fun _ _ f m =>
  match m with Ok a => Ok (f a) | Raise e => Raise e end.

Definition is_ok {A} (r : result A) : bool :=
  match r with Ok _ => true | Raise _ => false end.

(** A Python string: the sequence of its code points. *)
Abbreviation pystr := (list N).

(** The literal [s] as a Python string. *)
Definition str (s : string) : pystr := map N_of_ascii (list_ascii_of_string s).

(** A single-character literal as a code point. *)
Definition chr (c : ascii) : N := N_of_ascii c.

(* ===================================================================== *)
(** ** The tokenizer: [symbols_regexp] and [get_symbols]                  *)
(* ===================================================================== *)

Module Re.

(** A character class: a union of inclusive code-point ranges, as between
    the brackets of [[...]]. *)
Definition class : Type := list (N * N).

Definition in_class (cs : class) (c : N) : bool :=
  existsb (fun r => (fst r <=? c)%N && (c <=? snd r)%N) cs.

(** The fragment of Python's [re] syntax that [symbols_regexp] uses. *)
Inductive regex : Type :=
| Lit (c : N)                 (* a literal character                  *)
| Cat (r1 r2 : regex)         (* r1 r2                                *)
| Alt (r1 r2 : regex)         (* r1|r2, r1 tried first                *)
| Rep12 (c : N)               (* c{1,2}, greedy                       *)
| NotBehind (cs : class)      (* (?<![cs]), one character of context  *)
| NotAhead (cs : class).      (* (?![cs]),  one character of context  *)

(** Backtracking matcher in continuation-passing style.  [before] is the
    text left of the cursor, nearest character first; [after] the text
    right of it; [n] counts the characters consumed so far.  Alternatives
    are tried in order and the greedy repetition tries two characters
    before one, as [re] does. *)
Fixpoint rmatch {X} (r : regex) (before after : list N) (n : nat)
    (k : list N -> list N -> nat -> option X) : option X :=
  match r with
  | Lit c =>
      match after with
      | a :: rest => if (a =? c)%N then k (a :: before) rest (S n) else None
      | [] => None
      end
  | Cat r1 r2 => rmatch r1 before after n (fun b a m => rmatch r2 b a m k)
  | Alt r1 r2 =>
      match rmatch r1 before after n k with
      | Some x => Some x
      | None => rmatch r2 before after n k
      end
  | Rep12 c =>
      match after with
      | a1 :: rest1 =>
          if (a1 =? c)%N then
            match
              match rest1 with
              | a2 :: rest2 =>
                  if (a2 =? c)%N then k (a2 :: a1 :: before) rest2 (S (S n))
                  else None
              | [] => None
              end
            with
            | Some x => Some x
            | None => k (a1 :: before) rest1 (S n)
            end
          else None
      | [] => None
      end
  | NotBehind cs =>
      match before with
      | b :: _ => if in_class cs b then None else k before after n
      | [] => k before after n
      end
  | NotAhead cs =>
      match after with
      | a :: _ => if in_class cs a then None else k before after n
      | [] => k before after n
      end
  end.

(** Length of the match of [r] that starts at the cursor, if there is one. *)
Definition match_len (r : regex) (before after : list N) : option nat :=
  rmatch r before after 0 (fun _ _ n => Some n).

(** [re.sub('(' + r + ')', ' \1 ', s)]: scan left to right; where [r]
    matches, emit the match between two spaces and resume after it;
    elsewhere copy the character.  [skip] counts the characters of the
    current match still to step over.  Every alternative of the pattern
    consumes a character, so no empty match arises. *)
Fixpoint sub_scan (r : regex) (before after : list N) (skip : nat) : list N :=
  match after with
  | [] => []
  | c :: rest =>
      match skip with
      | S n => sub_scan r (c :: before) rest n
      | O =>
          match match_len r before after with
          | Some (S n) =>
              32%N :: take (S n) after ++ 32%N :: sub_scan r (c :: before) rest n
          | _ => c :: sub_scan r (c :: before) rest 0
          end
      end
  end.

Definition sub_padded (r : regex) (s : pystr) : pystr := sub_scan r [] s 0.

(** A literal word. *)
Definition word (s : string) : regex :=
  match str s with
  | [] => NotAhead []
  | c :: cs => fold_left (fun r c => Cat r (Lit c)) cs (Lit c)
  end.

Definition one (c : ascii) : class := [(chr c, chr c)].

Definition alts (rs : list regex) : regex :=
  match rs with
  | [] => NotAhead [(0, 1114111)]%N
  | r :: rs => fold_left Alt rs r
  end.

End Re.

Import Re.

(** Line 207-209, alternative by alternative.  In the class of the
    lookbehind before [=], [+-/] is a range: it spans [+ , - . /]. *)
Definition symbols_regexp : regex :=
  alts [
    word ",";                                                   (* ,          *)
    word ":>";                                                  (* (?::>)     *)
    Cat (word ":") (NotAhead (one "="));                        (* (?::(?!=)) *)
    word ":=";                                                  (* (?::=)     *)
    word ")";                                                   (* \)         *)
    word "(";                                                   (* \(         *)
    word ";";                                                   (* ;          *)
    word "@{";                                                  (* @\{        *)
    word "~";                                                   (* ~          *)
    Rep12 (chr "+");                                            (* \+{1,2}    *)
    Rep12 (chr "*");                                            (* \*{1,2}    *)
    word "&&";                                                  (* &&         *)
    word "||";                                                  (* \|\|       *)
    Cat (NotBehind (one "\")) (Cat (word "/") (NotAhead (one "\")));
                                                                (* (?<!\\)/(?!\\) *)
    word "/\";                                                  (* /\\        *)
    word "\/";                                                  (* \\/        *)
    Cat (NotBehind [(chr "<", chr "<"); (chr "*", chr "*");
                    (chr "+", chr "/"); (chr "|", chr "|");
                    (chr "&", chr "&")])
        (Cat (word "=") (NotAhead (one ">")));                  (* (?<![<*+-/|&])=(?!>) *)
    word "%";                                                   (* %          *)
    Cat (NotBehind (one "<")) (Cat (word "-") (NotAhead (one ">")));
                                                                (* (?<!<)-(?!>) *)
    word "<-"; word "->"; word "<="; word ">="; word "<>";
    word "^"; word "["; word "]";
    Cat (NotBehind (one "|")) (word "}");                       (* (?<!\|)\}  *)
    Cat (word "{") (NotAhead (one "|"))                         (* \{(?!\|)   *)
  ].

(** [str.isspace] on one code point (CPython's [Py_UNICODE_ISSPACE]). *)
Definition isspace (c : N) : bool :=
  in_class [(9, 13); (28, 32); (133, 133); (160, 160); (5760, 5760);
            (8192, 8202); (8232, 8233); (8239, 8239); (8287, 8287);
            (12288, 12288)]%N c.

(** [s.split()]: the maximal runs of non-whitespace characters.  [cur] is
    the run being read, last character first. *)
Fixpoint split_ws (cur : list N) (s : pystr) : list pystr :=
  match s with
  | [] => match cur with [] => [] | _ => [rev cur] end
  | c :: rest =>
      if isspace c then
        match cur with
        | [] => split_ws [] rest
        | _ => rev cur :: split_ws [] rest
        end
      else split_ws (c :: cur) rest
  end.

Definition split (s : pystr) : list pystr := split_ws [] s.

Fixpoint lstrip (s : pystr) : pystr :=
  match s with
  | c :: rest => if isspace c then lstrip rest else s
  | [] => []
  end.

(** [s.strip()]. *)
Definition strip (s : pystr) : pystr := rev (lstrip (rev (lstrip s))).

Definition nonempty (s : pystr) : bool :=
  match s with [] => false | _ => true end.

(** Lines 210-214. *)
Definition get_symbols (string : pystr) : list pystr :=
  filter (fun word => nonempty (strip word) = true)
         (split (sub_padded symbols_regexp string)).


(* ===================================================================== *)
(** ** Sequence normaliser                                                *)
(* ===================================================================== *)

(** [l[:stop]]: a negative [stop] counts from the end. *)
Definition slice_to {A} (l : list A) (stop : Z) : list A :=
  if stop <? 0 then take (Z.to_nat (Z.of_nat (length l) + stop)) l
  else take (Z.to_nat stop) l.

(** Lines 231-237. *)
Definition normalize_sentence_length
    (sentence : list Z) (target_length : Z) (fill_value : Z) : list Z :=
  if Z.of_nat (length sentence) >? target_length then
    slice_to sentence target_length
  else if Z.of_nat (length sentence) <? target_length then
    sentence ++ replicate (Z.to_nat (target_length - Z.of_nat (length sentence)))
                          fill_value
  else sentence.

(* ===================================================================== *)
(** ** Tensors                                                            *)
(* ===================================================================== *)

(** A [torch.LongTensor]: its shape and its entries in row-major order. *)
Record LongTensor : Type := mkLong {
  shape : list nat;
  entries : list Z
}.

Definition numel (sh : list nat) : nat := fold_right Nat.mul 1%nat sh.

(** [torch.LongTensor(l)] for a flat list of ints. *)
Definition long_of_list (l : list Z) : LongTensor :=
  mkLong [length l] l.

(** [torch.LongTensor(rows)] for a list of lists of ints: the rows must
    have one length; the empty list gives the empty one-dimensional
    tensor. *)
Definition long_of_rows (rows : list (list Z)) : result LongTensor :=
  match rows with
  | [] => Ok (mkLong [0%nat] [])
  | r :: _ =>
      if forallb (fun r' => Nat.eqb (length r') (length r)) rows
      then Ok (mkLong [length rows; length r] (concat rows))
      else Raise ValueError
  end.

(** [t.view(-1, 1)]. *)
Definition view_column (t : LongTensor) : LongTensor :=
  mkLong [numel (shape t); 1%nat] (entries t).

(** [t.size(0)]. *)
Definition size0 (t : LongTensor) : result nat :=
  match shape t with
  | [] => Raise IndexError
  | n :: _ => Ok n
  end.

(** [t[i]] for [0 <= i]: the [i]-th slice along the first dimension. *)
Definition index0 (t : LongTensor) (i : nat) : result LongTensor :=
  match shape t with
  | [] => Raise IndexError
  | n :: sh =>
      if (i <? n)%nat
      then Ok (mkLong sh (take (numel sh) (drop (i * numel sh) (entries t))))
      else Raise IndexError
  end.

(** [t.item()]: the value of a tensor of one element (the module calls
    it on such tensors only). *)
Definition item (t : LongTensor) : result Z :=
  match entries t with
  | [z] => Ok z
  | _ => Raise ValueError
  end.

(** A zero-dimensional tensor holding [z]. *)
Definition scalar (z : Z) : LongTensor := mkLong [] [z].

(** What a Python name handed to [autoencoderBatchLoss] as [data] may
    hold: a tensor, or the list of tensors a [DataLoader] over a
    [TensorDataset] yields for each batch (its collate function turns the
    one-field samples into a list of one stacked tensor). *)
Inductive batch_arg : Type :=
| ArgTensor (t : LongTensor)
| ArgList (ts : list LongTensor).

(** A float tensor of shape [(1, 1, n)] or [(1, n)]: its [n] entries. *)
Abbreviation vec := (list R).

Definition zeros (n : nat) : vec := replicate n 0%R.

Definition dot (u v : vec) : R := fold_right Rplus 0%R (zip_with Rmult u v).

Definition matvec (W : list vec) (x : vec) : vec := map (fun row => dot row x) W.

Definition vadd (u v : vec) : vec := zip_with Rplus u v.
Definition vmul (u v : vec) : vec := zip_with Rmult u v.

Definition sigmoid (x : R) : R := (1 / (1 + exp (- x)))%R.

(** [F.relu]. *)
Definition relu (x : vec) : vec := map (Rmax 0) x.

Definition sum_exp (x : vec) : R := fold_right Rplus 0%R (map exp x).

(** [nn.LogSoftmax(dim=1)] on a tensor of shape [(1, n)]. *)
Definition log_softmax (x : vec) : vec := map (fun xi => (xi - ln (sum_exp x))%R) x.

(* ===================================================================== *)
(** ** Network modules                                                    *)
(* ===================================================================== *)

(** [nn.Embedding(num_embeddings, embedding_dim)]: the weight table, one
    row per index. *)
Record Embedding : Type := mkEmbedding {
  emb_weight : list vec
}.

(** [embedding(input).view(1, 1, -1)]: the rows of the table selected by
    the entries of [input], laid end to end.  An index outside the table
    is an [IndexError]. *)
Fixpoint embed_rows (W : list vec) (idx : list Z) : result vec :=
  match idx with
  | [] => Ok []
  | i :: rest =>
      if i <? 0 then Raise IndexError
      else match W !! Z.to_nat i with
           | None => Raise IndexError
           | Some row => rest' ← embed_rows W rest; Ok (row ++ rest')
           end
  end.

Definition embed_flat (e : Embedding) (input : LongTensor) : result vec :=
  embed_rows (emb_weight e) (entries input).

(** [nn.LSTM(input_size, hidden_size)], one layer.  The four gates are
    stacked in torch's order: input, forget, cell, output. *)
Record LSTM : Type := mkLSTM {
  lstm_input_size : nat;
  lstm_hidden_size : nat;
  weight_ih : list vec;
  weight_hh : list vec;
  bias_ih : vec;
  bias_hh : vec
}.

(** One step of the cell on vectors of the right sizes. *)
Definition lstm_cell (l : LSTM) (x h c : vec) : vec * vec :=
  let n := lstm_hidden_size l in
  let gates := vadd (vadd (matvec (weight_ih l) x) (bias_ih l))
                    (vadd (matvec (weight_hh l) h) (bias_hh l)) in
  let i := map sigmoid (take n gates) in
  let f := map sigmoid (take n (drop n gates)) in
  let g := map tanh (take n (drop (2 * n) gates)) in
  let o := map sigmoid (take n (drop (3 * n) gates)) in
  let c' := vadd (vmul f c) (vmul i g) in
  let h' := vmul o (map tanh c') in
  (h', c').

(** [lstm(input, (hidden, cell))] on an input of shape [(1, 1, k)] and
    states of shape [(1, 1, n)]: torch checks the three sizes against the
    module's before it computes.  The output sequence has one element,
    the new hidden state. *)
Definition lstm_forward (l : LSTM) (input h c : vec) : result (vec * (vec * vec)) :=
  if negb (Nat.eqb (length input) (lstm_input_size l)) then Raise RuntimeError
  else if negb (Nat.eqb (length h) (lstm_hidden_size l)) then Raise RuntimeError
  else if negb (Nat.eqb (length c) (lstm_hidden_size l)) then Raise RuntimeError
  else let '(h', c') := lstm_cell l input h c in Ok (h', (h', c')).

(** [nn.Linear(in_features, out_features)]. *)
Record Linear : Type := mkLinear {
  in_features : nat;
  lin_weight : list vec;
  lin_bias : vec
}.

Definition linear_forward (l : Linear) (x : vec) : result vec :=
  if negb (Nat.eqb (length x) (in_features l)) then Raise RuntimeError
  else Ok (vadd (matvec (lin_weight l) x) (lin_bias l)).

(** A loss criterion: applied to a prediction of shape [(1, V)] and a
    target tensor. *)
Definition Criterion : Type := vec -> LongTensor -> result R.

(** [nn.NLLLoss()] on a prediction of shape [(1, V)]: the target must be
    a tensor of shape [(1)] holding a class index below [V] (the indices
    the module produces are never negative). *)
Definition NLLLoss : Criterion := fun input target =>
  match shape target, entries target with
  | [1%nat], [t] =>
      if t <? 0 then Raise IndexError
      else match input !! Z.to_nat t with
           | Some x => Ok (- x)%R
           | None => Raise IndexError
           end
  | _, _ => Raise ValueError
  end.

(* ===================================================================== *)
(** ** Names                                                              *)
(* ===================================================================== *)

(** The objects a global name of the module may be bound to, as far as
    the code inspects them. *)
Inductive pyobj : Type :=
| ObjFunctional            (* the module [torch.nn.functional]          *)
| ObjStr (s : pystr)       (* a string                                  *)
| ObjInt (z : Z)           (* an int                                    *)
| ObjOther.                (* any other module, class or function       *)

(** A global namespace: the [__dict__] of a module. *)
Abbreviation scope := (gmap string pyobj).

(** The names Python's [builtins] module binds. *)
Definition builtins : list string :=
  ["abs"; "aiter"; "all"; "anext"; "any"; "ascii"; "bin"; "bool";
   "breakpoint"; "bytearray"; "bytes"; "callable"; "chr"; "classmethod";
   "compile"; "complex"; "delattr"; "dict"; "dir"; "divmod"; "enumerate";
   "eval"; "exec"; "filter"; "float"; "format"; "frozenset"; "getattr";
   "globals"; "hasattr"; "hash"; "help"; "hex"; "id"; "input"; "int";
   "isinstance"; "issubclass"; "iter"; "len"; "list"; "locals"; "map";
   "max"; "memoryview"; "min"; "next"; "object"; "oct"; "open"; "ord";
   "pow"; "print"; "property"; "range"; "repr"; "reversed"; "round";
   "set"; "setattr"; "slice"; "sorted"; "staticmethod"; "str"; "sum";
   "super"; "tuple"; "type"; "vars"; "zip"; "__import__";
   "True"; "False"; "None"; "Ellipsis"; "NotImplemented"; "__debug__";
   "copyright"; "credits"; "license"; "exit"; "quit";
   "BaseException"; "Exception"; "ArithmeticError"; "AssertionError";
   "AttributeError"; "BlockingIOError"; "BrokenPipeError"; "BufferError";
   "BytesWarning"; "ChildProcessError"; "ConnectionAbortedError";
   "ConnectionError"; "ConnectionRefusedError"; "ConnectionResetError";
   "DeprecationWarning"; "EOFError"; "EncodingWarning";
   "EnvironmentError"; "FileExistsError"; "FileNotFoundError";
   "FloatingPointError"; "FutureWarning"; "GeneratorExit"; "IOError";
   "ImportError"; "ImportWarning"; "IndentationError"; "IndexError";
   "InterruptedError"; "IsADirectoryError"; "KeyError";
   "KeyboardInterrupt"; "LookupError"; "MemoryError";
   "ModuleNotFoundError"; "NameError"; "NotADirectoryError";
   "NotImplementedError"; "OSError"; "OverflowError";
   "PendingDeprecationWarning"; "PermissionError"; "ProcessLookupError";
   "RecursionError"; "ReferenceError"; "ResourceWarning"; "RuntimeError";
   "RuntimeWarning"; "StopAsyncIteration"; "StopIteration"; "SyntaxError";
   "SyntaxWarning"; "SystemError"; "SystemExit"; "TabError";
   "TimeoutError"; "TypeError"; "UnboundLocalError"; "UnicodeDecodeError";
   "UnicodeEncodeError"; "UnicodeError"; "UnicodeTranslateError";
   "UnicodeWarning"; "UserWarning"; "ValueError"; "Warning";
   "ZeroDivisionError"; "BaseExceptionGroup"; "ExceptionGroup"].

(** A name that is not local to a function is looked up in the globals of
    its module, then in the builtins; bound in neither, it is a
    [NameError]. *)
Definition lookup_name (G : scope) (x : string) : result pyobj :=
  match G !! x with
  | Some v => Ok v
  | None => if bool_decide (x ∈ builtins) then Ok ObjOther else Raise NameError
  end.

(** The global names of [coq2vec/__init__.py]: those its [import]
    statements bind (lines 1-15), the names every module has, and its own
    classes, functions and constants, in the order of their definition. *)
Definition module_globals : scope :=
  list_to_map [
    ("__name__", ObjOther); ("__doc__", ObjOther); ("__package__", ObjOther);
    ("__loader__", ObjOther); ("__spec__", ObjOther); ("__file__", ObjOther);
    ("__path__", ObjOther); ("__cached__", ObjOther); ("__builtins__", ObjOther);
    ("List", ObjOther); ("TypeVar", ObjOther); ("Dict", ObjOther);
    ("Optional", ObjOther); ("Union", ObjOther); ("overload", ObjOther);
    ("cast", ObjOther); ("Set", ObjOther);
    ("re", ObjOther); ("sys", ObjOther); ("contextlib", ObjOther);
    ("pickle", ObjOther); ("itertools", ObjOther); ("time", ObjOther);
    ("Path", ObjOther); ("torch", ObjOther); ("optim", ObjOther);
    ("nn", ObjOther); ("loss", ObjOther); ("data", ObjOther);
    ("tqdm", ObjOther);
    ("DummyFile", ObjOther); ("silent", ObjOther); ("use_cuda", ObjOther);
    ("cuda_device", ObjStr (str "cuda:0"));
    ("EOS_token", ObjInt 1); ("SOS_token", ObjInt 0);
    ("CoqRNNVectorizer", ObjOther); ("EncoderRNN", ObjOther);
    ("DecoderRNN", ObjOther); ("autoencoderBatchLoss", ObjOther);
    ("symbols_regexp", ObjOther); ("get_symbols", ObjOther);
    ("T", ObjOther); ("maybe_cuda", ObjOther);
    ("normalize_sentence_length", ObjOther); ("timeSince", ObjOther);
    ("asMinutes", ObjOther)
  ].

(** Lines 36-37. *)
Definition EOS_token : Z := 1.
Definition SOS_token : Z := 0.

(* ===================================================================== *)
(** ** Encoder and decoder                                                *)
(* ===================================================================== *)

(** Lines 138-157. *)
Record EncoderRNN : Type := mkEncoder {
  enc_hidden_size : nat;
  enc_embedding : Embedding;
  enc_lstm : LSTM
}.

Definition EncoderRNN_forward (self : EncoderRNN)
    (input : LongTensor) (hidden cell : vec) : result (vec * vec * vec) :=
  embedded ← embed_flat (enc_embedding self) input;
  let output := embedded in
  '(output, (hidden, cell)) ← lstm_forward (enc_lstm self) output hidden cell;
  Ok (output, hidden, cell).

Definition EncoderRNN_initHidden (self : EncoderRNN) : vec :=
  zeros (enc_hidden_size self).
Definition EncoderRNN_initCell (self : EncoderRNN) : vec :=
  zeros (enc_hidden_size self).

(** Lines 159-178. *)
Record DecoderRNN : Type := mkDecoder {
  dec_hidden_size : nat;
  dec_embedding : Embedding;
  dec_lstm : LSTM;
  dec_out : Linear
}.

(** [F.relu], with [F] looked up among the globals at the moment of the
    call. *)
Definition F_relu (G : scope) : result (vec -> vec) :=
  F ← lookup_name G "F";
  match F with
  | ObjFunctional => Ok relu
  | _ => Raise AttributeError
  end.

Definition DecoderRNN_forward (G : scope) (self : DecoderRNN)
    (input : LongTensor) (hidden cell : vec) : result (vec * vec * vec) :=
  embedded ← embed_flat (dec_embedding self) input;
  relu_of_F ← F_relu G;
  '(output, (hidden, cell)) ←
     lstm_forward (dec_lstm self) (relu_of_F embedded) hidden cell;
  out ← linear_forward (dec_out self) output;
  let token_dist := log_softmax out in
  Ok (token_dist, hidden, cell).

Definition DecoderRNN_initHidden (self : DecoderRNN) : vec :=
  zeros (dec_hidden_size self).
Definition DecoderRNN_initCell (self : DecoderRNN) : vec :=
  zeros (dec_hidden_size self).

(** The shapes torch gives the parameters of its modules. *)
Definition matrix_shaped (W : list vec) (rows cols : nat) : Prop :=
  length W = rows /\ Forall (fun row => length row = cols) W.

Definition lstm_shaped (l : LSTM) (n : nat) : Prop :=
  lstm_input_size l = n /\ lstm_hidden_size l = n /\
  matrix_shaped (weight_ih l) (4 * n) n /\
  matrix_shaped (weight_hh l) (4 * n) n /\
  length (bias_ih l) = (4 * n)%nat /\ length (bias_hh l) = (4 * n)%nat.

(** An [EncoderRNN(vocab_size, n)]. *)
Definition encoder_shaped (e : EncoderRNN) (vocab_size : nat) : Prop :=
  matrix_shaped (emb_weight (enc_embedding e)) vocab_size (enc_hidden_size e) /\
  lstm_shaped (enc_lstm e) (enc_hidden_size e).

(** A [DecoderRNN(n, vocab_size)]. *)
Definition decoder_shaped (d : DecoderRNN) (vocab_size : nat) : Prop :=
  matrix_shaped (emb_weight (dec_embedding d)) vocab_size (dec_hidden_size d) /\
  lstm_shaped (dec_lstm d) (dec_hidden_size d) /\
  in_features (dec_out d) = dec_hidden_size d /\
  matrix_shaped (lin_weight (dec_out d)) vocab_size (dec_hidden_size d) /\
  length (lin_bias (dec_out d)) = vocab_size.

(* ===================================================================== *)
(** ** What the run time decides                                          *)
(* ===================================================================== *)

(** The choices Python and torch make that the source does not fix. *)
Class Runtime : Type := {
  (** [list(s)] for a set [s]: its elements, each once, in some order. *)
  list_of_set : gset pystr -> list pystr;
  list_of_set_perm : forall X, list_of_set X ≡ₚ elements X;
  (** The numbers the random initialisation of the weights draws. *)
  random_stream : nat -> R;
  (** [topk(1)]: an index of a largest entry. *)
  topk_index : vec -> nat;
  topk_index_max : forall (d : vec) (i : nat) (x : R),
      d !! i = Some x ->
      exists y, d !! topk_index d = Some y /\ (x <= y)%R;
  (** The permutation of [0 .. n-1] the data loader draws for an epoch. *)
  randperm : nat -> nat -> list nat;
  randperm_perm : forall epoch n, randperm epoch n ≡ₚ seq 0 n;
  (** [loss.backward(); optimizer.step()]: the parameters after one step
      of gradient descent on the loss of a batch. *)
  sgd_update : R -> EncoderRNN * DecoderRNN -> batch_arg ->
               EncoderRNN * DecoderRNN;
  (** Whether this torch's [RandomSampler] refuses an empty data set. *)
  sampler_rejects_empty : bool
}.

(* ===================================================================== *)
(** ** The reconstruction loss of a batch (lines 180-204)                 *)
(* ===================================================================== *)

Section Loss.
Context `{Runtime}.

(** [data.size(0)]: a list has no [size]. *)
Definition arg_size0 (data : batch_arg) : result nat :=
  match data with
  | ArgTensor t => size0 t
  | ArgList _ => Raise AttributeError
  end.

(** [data[i]] for [0 <= i]. *)
Definition arg_index (data : batch_arg) (i : nat) : result LongTensor :=
  match data with
  | ArgTensor t => index0 t i
  | ArgList ts => match ts !! i with Some t => Ok t | None => Raise IndexError end
  end.

(** [decoder_output.topk(1)] followed by [topi.squeeze().detach()]. *)
Definition topk1 (decoder_output : vec) : result LongTensor :=
  match decoder_output with
  | [] => Raise RuntimeError
  | _ => Ok (scalar (Z.of_nat (topk_index decoder_output)))
  end.

(** Lines 189-190, over the values [eis] that [ei] still has to take. *)
Fixpoint encoder_loop (encoder : EncoderRNN) (data : batch_arg) (eis : list nat)
    (encoder_hidden encoder_cell : vec) : result (vec * vec) :=
  match eis with
  | [] => Ok (encoder_hidden, encoder_cell)
  | ei :: eis =>
      input ← arg_index data ei;
      '(encoder_output, encoder_hidden, encoder_cell) ←
         EncoderRNN_forward encoder input encoder_hidden encoder_cell;
      encoder_loop encoder data eis encoder_hidden encoder_cell
  end.

(** Lines 195-202, over the values [dis] that [di] still has to take. *)
Fixpoint decoder_loop (G : scope) (decoder : DecoderRNN) (criterion : Criterion)
    (data : batch_arg) (dis : list nat)
    (decoder_input : LongTensor) (decoder_hidden decoder_cell : vec)
    (loss : R) : result R :=
  match dis with
  | [] => Ok loss
  | di :: dis =>
      '(decoder_output, decoder_hidden, decoder_cell) ←
         DecoderRNN_forward G decoder decoder_input decoder_hidden decoder_cell;
      topi ← topk1 decoder_output;
      let decoder_input := topi in
      target ← arg_index data di;
      l ← criterion decoder_output target;
      let loss := (loss + l)%R in
      tok ← item decoder_input;
      if tok =? EOS_token then Ok loss
      else decoder_loop G decoder criterion data dis
             decoder_input decoder_hidden decoder_cell loss
  end.

Definition autoencoderBatchLoss (G : scope)
    (encoder : EncoderRNN) (decoder : DecoderRNN)
    (data : batch_arg) (criterion : Criterion) : result R :=
  input_length ← arg_size0 data;
  let target_length := input_length in
  let encoder_hidden := EncoderRNN_initHidden encoder in
  let encoder_cell := EncoderRNN_initCell encoder in
  let decoder_cell := DecoderRNN_initCell decoder in
  let loss := 0%R in
  '(encoder_hidden, encoder_cell) ←
     encoder_loop encoder data (seq 0 input_length) encoder_hidden encoder_cell;
  let decoder_input := mkLong [1%nat; 1%nat] [SOS_token] in
  let decoder_hidden := encoder_hidden in
  decoder_loop G decoder criterion data (seq 0 target_length)
    decoder_input decoder_hidden decoder_cell loss.

End Loss.

(* ===================================================================== *)
(** ** The words of the specification about the loss                      *)
(* ===================================================================== *)

Section LossSpec.
Context `{Runtime}.

(** The slices [t[0]], [t[1]], ... of a tensor along its first dimension. *)
Definition slices (t : LongTensor) : list LongTensor :=
  match shape t with
  | [] => []
  | n :: sh =>
      map (fun i => mkLong sh (take (numel sh) (drop (i * numel sh) (entries t))))
          (seq 0 n)
  end.

(** "Run the encoder across a sequence": one step per input, the state
    threaded from step to step. *)
Fixpoint encode_from (encoder : EncoderRNN) (inputs : list LongTensor)
    (hidden cell : vec) : result (vec * vec) :=
  match inputs with
  | [] => Ok (hidden, cell)
  | x :: xs =>
      '(_, hidden, cell) ← EncoderRNN_forward encoder x hidden cell;
      encode_from encoder xs hidden cell
  end.

(** "... starting from freshly zeroed hidden and cell states." *)
Definition encode (encoder : EncoderRNN) (inputs : list LongTensor)
  : result (vec * vec) :=
  encode_from encoder inputs (zeros (enc_hidden_size encoder))
                             (zeros (enc_hidden_size encoder)).

(** What a decoder step is fed: a token and the two states. *)
Definition fed : Type := (LongTensor * vec * vec)%type.

(** One greedy step: the decoder's distribution on what it is fed, and
    what the next step is fed when the decoder runs on its own output:
    the [topk(1)] token and the new states. *)
Definition greedy_step (G : scope) (decoder : DecoderRNN) (s : fed)
  : result (vec * fed) :=
  let '(token, hidden, cell) := s in
  '(dist, hidden, cell) ← DecoderRNN_forward G decoder token hidden cell;
  token ← topk1 dist;
  Ok (dist, (token, hidden, cell)).

(** What step [k] of a purely autoregressive run is fed, starting from
    [start]: no ground truth enters. *)
Fixpoint generated (G : scope) (decoder : DecoderRNN) (start : fed) (k : nat)
  : result fed :=
  match k with
  | O => Ok start
  | S k =>
      s ← generated G decoder start k;
      '(_, s') ← greedy_step G decoder s;
      Ok s'
  end.

(** The loss added from step [k] on, over at most [steps] steps: step [k]
    is fed [generated k] and scored against [data[k]]; decoding stops
    after the step that generates the end-of-sequence marker, or when the
    steps are used up. *)
Fixpoint autoregressive_loss (G : scope) (decoder : DecoderRNN)
    (criterion : Criterion) (data : batch_arg) (start : fed)
    (steps k : nat) (loss : R) : result R :=
  match steps with
  | O => Ok loss
  | S steps =>
      s ← generated G decoder start k;
      '(dist, (token, _, _)) ← greedy_step G decoder s;
      target ← arg_index data k;
      l ← criterion dist target;
      t ← item token;
      if t =? EOS_token then Ok (loss + l)%R
      else autoregressive_loss G decoder criterion data start steps (S k)
             (loss + l)%R
  end.

End LossSpec.

(* ===================================================================== *)
(** ** The vectorizer (lines 39-136)                                      *)
(* ===================================================================== *)

(** The attributes of a [CoqRNNVectorizer] (lines 40-42). *)
Record CoqRNNVectorizer : Type := mkVectorizer {
  symbol_mapping : option (gmap pystr Z);
  model : option EncoderRNN;
  _decoder : option DecoderRNN
}.

(** What [torch.save] writes and [torch.load] reads back: the pickled
    tuple [(symbol_mapping, model, _decoder)]. *)
Definition bundle : Type :=
  (option (gmap pystr Z) * option EncoderRNN * option DecoderRNN)%type.

(** The effects of training that are visible from outside. *)
Inductive event : Set :=
| EvPrint | EvZeroGrad | EvBackward | EvOptimizerStep.

(** The file system, as far as the module meets it.  The operating
    system and [pathlib] decide which file a path names, and they refuse
    some paths: [Path('').open('wb')] raises [IsADirectoryError], a path
    under a missing directory [FileNotFoundError], a path with a null
    character [ValueError].  [Path_location p] is what
    [Path(p).open(...)] makes of the string [p], and [str_location p]
    what the built-in [open(p, ...)] makes of it: the file, as a key
    under which the spellings of one path meet, or the exception raised.
    [contents] is what the files that hold a pickled tuple hold.  Writing
    a file changes the contents alone: it makes no directory, and a path
    that names a file before names the same file after. *)
Record filesystem : Type := mkFS {
  Path_location : pystr -> result pystr;
  str_location : pystr -> result pystr;
  contents : gmap pystr bundle
}.

(** What the file that [Path(path)] names holds. *)
Definition saved_at (fs : filesystem) (path : pystr) : option bundle :=
  match Path_location fs path with
  | Ok file => contents fs !! file
  | Raise _ => None
  end.

(** A name of letters, digits, [_], [-] and [.] that does not start with
    a dot. *)
Definition file_name (p : pystr) : bool :=
  match p with
  | [] => false
  | c :: _ =>
      negb (c =? 46)%N &&
      forallb (Re.in_class [(45, 46); (48, 57); (65, 90); (95, 95); (97, 122)]%N) p
  end.

(** A file system to evaluate the definitions on: one directory without
    entries.  A [file_name] names a file in it and every other path is
    refused. *)
#[global] Instance filesystem_empty : Empty filesystem :=
  mkFS (fun p => if existsb (N.eqb 0) p then Raise ValueError
                 else if file_name p then Ok p else Raise OSError)
       (fun p => if existsb (N.eqb 0) p then Raise ValueError
                 else if file_name p then Ok p
                 else match p with [] => Raise FileNotFoundError | _ => Raise OSError end)
       ∅.

(** The state a method runs in: the object it is called on, the files,
    and the trace of effects so far (latest first). *)
Record pystate : Type := mkState {
  self : CoqRNNVectorizer;
  files : filesystem;
  trace : list event
}.

(** A method: it returns or raises, and leaves a state either way. *)
Definition Py (A : Type) : Type := pystate -> result A * pystate.

#[global] Instance Py_ret : MRet Py := fun _ a st => (Ok a, st).
#[global] Instance Py_bind : MBind Py := fun _ _ f m st =>
  match m st with
  | (Ok a, st') => f a st'
  | (Raise e, st') => (Raise e, st')
  end.

Definition lift {A} (r : result A) : Py A := fun st => (r, st).

Definition get_self : Py CoqRNNVectorizer := fun st => (Ok (self st), st).

Definition set_self (v : CoqRNNVectorizer) : Py unit := fun st =>
  (Ok tt, mkState v (files st) (trace st)).

Definition set_symbol_mapping (m : option (gmap pystr Z)) : Py unit :=
  v ← get_self; set_self (mkVectorizer m (model v) (_decoder v)).

Definition set_model (e : option EncoderRNN) : Py unit :=
  v ← get_self; set_self (mkVectorizer (symbol_mapping v) e (_decoder v)).

Definition set_decoder (d : option DecoderRNN) : Py unit :=
  v ← get_self; set_self (mkVectorizer (symbol_mapping v) (model v) d).

Definition emit (ev : event) : Py unit := fun st =>
  (Ok tt, mkState (self st) (files st) (ev :: trace st)).

(** [with Path(path).open('wb') as f: torch.save(b, f)]: where the path
    cannot be opened the exception of [open] goes on and nothing is
    written. *)
Definition write_file (path : pystr) (b : bundle) : Py unit := fun st =>
  match Path_location (files st) path with
  | Ok file =>
      (Ok tt,
       mkState (self st)
               (mkFS (Path_location (files st)) (str_location (files st))
                     (<[file := b]> (contents (files st))))
               (trace st))
  | Raise e => (Raise e, st)
  end.

(** [torch.load(path)] on a string: the built-in [open] of the path,
    then the pickled tuple of the file. *)
Definition read_file (path : pystr) : Py bundle := fun st =>
  (match str_location (files st) path with
   | Ok file =>
       match contents (files st) !! file with
       | Some b => Ok b
       | None => Raise FileNotFoundError
       end
   | Raise e => Raise e
   end, st).

(** [for x in xs: body], threading the local variables the body assigns. *)
Fixpoint for_fold {A S} (xs : list A) (body : A -> S -> Py S) (s : S) : Py S :=
  match xs with
  | [] => mret s
  | x :: xs => s' ← body x s; for_fold xs body s'
  end.

Definition for_each {A} (xs : list A) (body : A -> Py unit) : Py unit :=
  for_fold xs (fun x _ => body x) tt.

(** [enumerate(xs, start)]. *)
Definition enumerate {A} (start : Z) (xs : list A) : list (Z * A) :=
  imap (fun i x => (start + Z.of_nat i, x)) xs.

(** [range(n)]. *)
Definition range (n : Z) : list Z := map Z.of_nat (seq 0 (Z.to_nat n)).

(** Truth value of an [Optional] dict: [None] and the empty dict are
    false. *)
Definition truthy_mapping (m : option (gmap pystr Z)) : bool :=
  match m with
  | Some m => negb (bool_decide (m = ∅))
  | None => false
  end.

(** Lines 43-48.  Had [model_path] a value, [torch.load] would read the
    file of that name. *)
Definition CoqRNNVectorizer__init__ (G : scope) : Py unit :=
  _ ← set_symbol_mapping None;
  _ ← set_model None;
  _ ← set_decoder None;
  _ ← lift (lookup_name G "torch");
  model_path ← lift (lookup_name G "model_path");
  '(m, e, d) ← match model_path with
               | ObjStr path => read_file path
               | _ => lift (Raise AttributeError)
               end;
  set_self (mkVectorizer m e d).

(** [CoqRNNVectorizer()]: a new object, initialised by [__init__]; the
    caller gets it only if [__init__] returns. *)
Definition CoqRNNVectorizer_new (G : scope) (fs : filesystem)
  : result CoqRNNVectorizer :=
  match CoqRNNVectorizer__init__ G (mkState (mkVectorizer None None None) fs []) with
  | (Ok _, st) => Ok (self st)
  | (Raise e, _) => Raise e
  end.

(** Lines 49-51: the path is converted and nothing else is done. *)
Definition load_weights (model_path : pystr) : Py unit :=
  mret tt.

(** Lines 52-57.  The argument is the string; line 54 makes the [Path]
    that line 55 opens. *)
Definition save_weights (model_path : pystr) : Py unit :=
  v ← get_self;
  write_file model_path (symbol_mapping v, model v, _decoder v).

(** Lines 122-136, with [assert] statements in force (the interpreter's
    default).  The loop of lines 134-135 is that of lines 189-190, run on
    the tensor of the term. *)
Definition term_to_vector (v : CoqRNNVectorizer) (term_text : pystr)
  : result vec :=
  if negb (truthy_mapping (symbol_mapping v)) then Raise AssertionError else
  match symbol_mapping v, model v with
  | Some mapping, Some model =>
      let term_sentence := get_symbols term_text in
      let term_tensor :=
        view_column (long_of_list
          (omap (fun symb => mapping !! symb) term_sentence ++ [EOS_token])) in
      input_length ← size0 term_tensor;
      let hidden := EncoderRNN_initHidden model in
      let cell := EncoderRNN_initCell model in
      '(hidden, cell) ←
         encoder_loop model (ArgTensor term_tensor) (seq 0 input_length)
           hidden cell;
      Ok hidden
  | _, _ => Raise AssertionError
  end.

(** A computation that leaves the vocabulary of [self] alone. *)
Definition keeps_mapping {A} (m : Py A) : Prop :=
  forall st, symbol_mapping (self (snd (m st))) = symbol_mapping (self st).

(* ===================================================================== *)
(** ** Training (lines 58-121)                                            *)
(* ===================================================================== *)

Section Train.
Context `{Runtime}.

(** A [rows] by [cols] matrix of freshly drawn numbers, from position
    [off] of the random stream. *)
Definition random_matrix (off rows cols : nat) : list vec :=
  map (fun i => map (fun j => random_stream (off + i * cols + j)%nat) (seq 0 cols))
      (seq 0 rows).

Definition random_vector (off n : nat) : vec :=
  map (fun j => random_stream (off + j)%nat) (seq 0 n).

(** [nn.LSTM(n, n)] with fresh weights. *)
Definition LSTM_new (off n : nat) : LSTM :=
  mkLSTM n n
    (random_matrix off (4 * n) n)
    (random_matrix (off + 4 * n * n) (4 * n) n)
    (random_vector (off + 8 * n * n) (4 * n))
    (random_vector (off + 8 * n * n + 4 * n) (4 * n)).

(** The numbers an encoder of the given sizes draws. *)
Definition encoder_draws (v n : nat) : nat := (v * n + 8 * n * n + 8 * n)%nat.

(** torch refuses a tensor with a negative dimension ([RuntimeError]) and,
    from release 2.1 on, a recurrent layer of width zero ([ValueError]). *)
Definition check_sizes (vocab_size hidden_size : Z) : result unit :=
  if (vocab_size <? 0) || (hidden_size <? 0) then Raise RuntimeError
  else if hidden_size =? 0 then Raise ValueError
  else Ok tt.

(** [EncoderRNN(input_size, hidden_size)], lines 139-144. *)
Definition EncoderRNN_new (input_size hidden_size : Z) : result EncoderRNN :=
  _ ← check_sizes input_size hidden_size;
  let v := Z.to_nat input_size in
  let n := Z.to_nat hidden_size in
  Ok (mkEncoder n (mkEmbedding (random_matrix 0 v n)) (LSTM_new (v * n) n)).

(** [DecoderRNN(hidden_size, output_size)], lines 160-166; it draws after
    the encoder. *)
Definition DecoderRNN_new (hidden_size output_size : Z) : result DecoderRNN :=
  _ ← check_sizes output_size hidden_size;
  let v := Z.to_nat output_size in
  let n := Z.to_nat hidden_size in
  let off := encoder_draws v n in
  Ok (mkDecoder n
        (mkEmbedding (random_matrix off v n))
        (LSTM_new (off + v * n) n)
        (mkLinear n (random_matrix (off + encoder_draws v n) v n)
                    (random_vector (off + encoder_draws v n + v * n) v))).

(** [optim.SGD(params, lr=learning_rate)] refuses a negative rate. *)
Definition SGD_new (learning_rate : R) : result unit :=
  if Rlt_dec learning_rate 0 then Raise ValueError else Ok tt.

(** [data.DataLoader(data.TensorDataset(t), batch_size=b, shuffle=True,
    drop_last=True)]. *)
Record DataLoader : Type := mkLoader {
  dl_dataset : LongTensor;
  dl_batch_size : nat
}.

Definition DataLoader_new (t : LongTensor) (batch_size : Z) : result DataLoader :=
  n ← size0 t;
  if batch_size <=? 0 then Raise ValueError
  else if Nat.eqb n 0 && sampler_rejects_empty then Raise ValueError
  else Ok (mkLoader t (Z.to_nat batch_size)).

(** The entries of the [i]-th sample of a data set. *)
Definition sample_entries (t : LongTensor) (i : nat) : list Z :=
  let k := numel (tail (shape t)) in take k (drop (i * k) (entries t)).

(** The batches of one pass over the loader: the samples in the order
    drawn for this epoch, [batch_size] at a time, a last incomplete batch
    dropped.  Each batch is the list of one stacked tensor. *)
Definition batches (dl : DataLoader) (epoch : nat) : list batch_arg :=
  let t := dl_dataset dl in
  let b := dl_batch_size dl in
  let n := hd 0%nat (shape t) in
  let order := randperm epoch n in
  map (fun k =>
         let idx := take b (drop (k * b) order) in
         ArgList [mkLong (b :: tail (shape t))
                         (concat (map (sample_entries t) idx))])
      (seq 0 (n / b)).

(** [int(a / b)] for ints [a] and [b]. *)
Definition int_div (a b : Z) : result Z :=
  if b =? 0 then Raise ZeroDivisionError else Ok (Z.quot a b).

(** Lines 63-68: the symbols of the corpus and its longest term. *)
Definition corpus_symbols (terms : list pystr) : gset pystr :=
  fold_left (fun token_set term =>
               fold_left (fun token_set symbol => {[symbol]} ∪ token_set)
                         (get_symbols term) token_set)
            terms ∅.

Definition corpus_max_length (terms : list pystr) : Z :=
  fold_left (fun max_length_so_far term =>
               Z.max (Z.of_nat (length (get_symbols term))) max_length_so_far)
            terms 0.

(** [self.symbol_mapping[symbol] = idx]. *)
Definition assign_symbol (symbol : pystr) (idx : Z) : Py unit :=
  v ← get_self;
  match symbol_mapping v with
  | Some m => set_symbol_mapping (Some (<[symbol := idx]> m))
  | None => lift (Raise AttributeError)
  end.

(** The dictionary the loop of lines 72-73 leaves, started on [m] with
    the first index [start]. *)
Definition assigned (start : Z) (token_vocab : list pystr)
    (m : gmap pystr Z) : gmap pystr Z :=
  fold_left (fun m p => <[snd p := fst p]> m) (enumerate start token_vocab) m.

(** Lines 74-77. *)
Definition choose_max_term_length (force_max_length : option Z)
    (max_length_so_far : Z) : Z :=
  match force_max_length with
  | Some f => if f =? 0 then max_length_so_far else Z.min f max_length_so_far
  | None => max_length_so_far
  end.

(** A forced length is usable when it is absent or not negative. *)
Definition force_ok (force_max_length : option Z) : Prop :=
  match force_max_length with Some f => 0 <= f | None => True end.

(** Lines 80-84: one row of [term_tensors]. *)
Definition term_row (mapping : gmap pystr Z) (max_term_length : Z)
    (term : pystr) : list Z :=
  normalize_sentence_length
    (omap (fun symb => mapping !! symb) (get_symbols term))
    max_term_length EOS_token ++ [EOS_token].

(** Lines 109-117: the progress report. *)
Definition report (batch_num batch_size epoch dataset_size n_epochs
                   print_every : Z) : Py unit :=
  if print_every =? 0 then lift (Raise ZeroDivisionError)
  else if batch_num mod print_every =? 0 then
    let items_processed := batch_num * batch_size + epoch * dataset_size in
    if dataset_size * n_epochs =? 0 then lift (Raise ZeroDivisionError)
    else if items_processed =? 0 then lift (Raise ZeroDivisionError)
    else emit EvPrint
  else mret tt.

(** Lines 104-117: the body of the loop over the batches. *)
Definition train_batch (G : scope) (learning_rate : R)
    (batch_size epoch dataset_size n_epochs print_every : Z)
    (numbered : Z * batch_arg) (locals : EncoderRNN * DecoderRNN * R)
  : Py (EncoderRNN * DecoderRNN * R) :=
  let '(batch_num, data_batch) := numbered in
  let '(encoder, decoder, epoch_loss) := locals in
  _ ← emit EvZeroGrad;
  loss ← lift (autoencoderBatchLoss G encoder decoder data_batch NLLLoss);
  _ ← emit EvBackward;
  _ ← emit EvOptimizerStep;
  let '(encoder, decoder) :=
    sgd_update learning_rate (encoder, decoder) data_batch in
  let epoch_loss := (epoch_loss + loss)%R in
  _ ← report batch_num batch_size epoch dataset_size n_epochs print_every;
  mret (encoder, decoder, epoch_loss).

(** Lines 101-119: the body of the loop over the epochs. *)
Definition train_epoch (G : scope) (learning_rate : R)
    (data_batches : DataLoader)
    (batch_size dataset_size n_epochs print_every : Z)
    (epoch : Z) (nets : EncoderRNN * DecoderRNN)
  : Py (EncoderRNN * DecoderRNN) :=
  let '(encoder, decoder) := nets in
  _ ← emit EvPrint;
  let epoch_loss := 0%R in
  '(encoder, decoder, epoch_loss) ←
     for_fold (enumerate 1 (batches data_batches (Z.to_nat epoch)))
       (train_batch G learning_rate batch_size epoch dataset_size n_epochs
          print_every)
       (encoder, decoder, epoch_loss);
  _ ← set_model (Some encoder);
  _ ← set_decoder (Some decoder);
  mret (encoder, decoder).

(** Lines 58-121.  Line 62 records the device and the calls of [tqdm]
    draw progress bars: neither changes what is computed. *)
Definition train (G : scope) (terms : list pystr)
    (hidden_size : Z) (learning_rate : R) (n_epochs : Z)
    (batch_size : Z) (print_every : Z) (force_max_length : option Z)
  : Py unit :=
  let token_set := corpus_symbols terms in
  let max_length_so_far := corpus_max_length terms in
  let token_vocab := list_of_set token_set in
  _ ← set_symbol_mapping (Some ∅);
  _ ← for_each (enumerate 0 token_vocab)
        (fun '(idx, symbol) => assign_symbol symbol idx);
  let max_term_length :=
    choose_max_term_length force_max_length max_length_so_far in
  v ← get_self;
  let mapping := default ∅ (symbol_mapping v) in
  term_tensors ←
    lift (long_of_rows (map (term_row mapping max_term_length) terms));
  data_batches ← lift (DataLoader_new term_tensors batch_size);
  row ← lift (index0 term_tensors 0);
  width ← lift (size0 row);
  num_batches ← lift (int_div (Z.of_nat width) batch_size);
  let dataset_size := num_batches * batch_size in
  encoder ← lift (EncoderRNN_new (Z.of_nat (length token_vocab)) hidden_size);
  decoder ← lift (DecoderRNN_new hidden_size (Z.of_nat (length token_vocab)));
  _ ← lift (SGD_new learning_rate);
  _ ← for_fold (range n_epochs)
        (train_epoch G learning_rate data_batches batch_size dataset_size
           n_epochs print_every)
        (encoder, decoder);
  mret tt.

End Train.

(* ===================================================================== *)
(** ** A run time and two small networks, to evaluate the definitions     *)
(* ===================================================================== *)

(** The first index of a largest entry. *)
Fixpoint argmax_from (best : nat) (bv : R) (i : nat) (d : vec) : nat :=
  match d with
  | [] => best
  | x :: d' =>
      if Rlt_dec bv x then argmax_from i x (S i) d'
      else argmax_from best bv (S i) d'
  end.

Definition first_argmax (d : vec) : nat :=
  match d with
  | [] => 0%nat
  | x :: d' => argmax_from 0 x 1 d'
  end.

(** A network of width one over a vocabulary of two symbols; the row of
    index 1 of its embedding is negative. *)
Definition example_embedding : Embedding := mkEmbedding [[1%R]; [(-1)%R]].

Definition example_lstm : LSTM :=
  mkLSTM 1 1 [[1%R]; [1%R]; [1%R]; [1%R]] [[0%R]; [0%R]; [0%R]; [0%R]]
         [0%R; 0%R; 0%R; 0%R] [0%R; 0%R; 0%R; 0%R].

Definition example_encoder : EncoderRNN :=
  mkEncoder 1 example_embedding example_lstm.

Definition example_decoder : DecoderRNN :=
  mkDecoder 1 example_embedding example_lstm
            (mkLinear 1 [[1%R]; [0%R]] [0%R; 0%R]).

(** The module's globals after [import torch.nn.functional as F]. *)
Definition globals_with_F : scope := <["F" := ObjFunctional]> module_globals.

(** A vectorizer as training leaves it: a vocabulary of two symbols and
    the two networks above. *)
Definition trained_example : CoqRNNVectorizer :=
  mkVectorizer (Some (<[str "a" := 0]> (<[str "b" := 1]> ∅)))
               (Some example_encoder) (Some example_decoder).

(** A vectorizer on which nothing was trained or loaded. *)
Definition untrained : CoqRNNVectorizer := mkVectorizer None None None.

(* ===================================================================== *)
(** ** Predicates of the further properties                               *)
(* ===================================================================== *)

(** The characters an alternative of [symbols_regexp] can start with, and
    the characters that are neither such a character nor whitespace. *)
Definition operator_chars : pystr := str ",:)(;@~+*&|/\=%-<>^[]}{".

Definition plain (c : N) : bool :=
  negb (isspace c) && negb (existsb (N.eqb c) operator_chars).

(** A character is a barrier for a pattern when no literal of the pattern
    is that character and no lookaround class holds it: no match then
    contains the character or depends on what lies beyond it. *)
Fixpoint barrier (sp : N) (r : regex) : bool :=
  match r with
  | Lit c | Rep12 c => negb (sp =? c)%N
  | Cat r1 r2 | Alt r1 r2 => barrier sp r1 && barrier sp r2
  | NotBehind cs | NotAhead cs => negb (in_class cs sp)
  end.

(** Two left contexts a lookbehind cannot tell apart: the same nearest
    character, or a barrier on one side and the start of the string on
    the other. *)
Definition same_lookbehind (sp : N) (b1 b2 : list N) : Prop :=
  head b1 = head b2 \/ (head b1 = Some sp /\ b2 = []).

(** A computation that writes no file and records only events of the
    given kind. *)
Definition effects_within (allowed : event -> Prop) {A} (m : Py A) : Prop :=
  forall st,
    files (snd (m st)) = files st /\
    exists added, trace (snd (m st)) = added ++ trace st /\ Forall allowed added.

(* ===================================================================== *)
(** ** Silencing the standard streams (lines 17-35)                       *)
(* ===================================================================== *)

(** What [sys.stdout] and [sys.stderr] may name: a stream that shows what
    is written to it, or an instance of [DummyFile]. *)
Inductive fileobj : Type :=
| Console (fd : nat)
| DummyFile.

(** The two names of [sys], and what the console streams have shown so
    far (latest first). *)
Record streams : Type := mkStreams {
  sys_stdout : fileobj;
  sys_stderr : fileobj;
  shown : list (nat * pystr)
}.

(** [f.write(x)]; lines 18-19 for a [DummyFile]: [pass]. *)
Definition file_write (f : fileobj) (x : pystr) (w : streams) : streams :=
  match f with
  | DummyFile => w
  | Console fd => mkStreams (sys_stdout w) (sys_stderr w) ((fd, x) :: shown w)
  end.

(** A block of code run under [with silent():], as far as the streams
    see it. *)
Definition Block (A : Type) : Type := streams -> result A * streams.

(** Lines 21-31: the generator wrapped by [contextlib.contextmanager],
    around the block of the [with] statement.  An exception of the block
    is thrown into the generator at [yield]; the [finally] clause runs
    and the exception goes on. *)
Definition silent {A} (block : Block A) : Block A := fun w =>
  let save_stderr := sys_stderr w in
  let save_stdout := sys_stdout w in
  let w := mkStreams (sys_stdout w) DummyFile (shown w) in
  let w := mkStreams DummyFile (sys_stderr w) (shown w) in
  let '(outcome, w) := block w in
  let w := mkStreams (sys_stdout w) save_stderr (shown w) in
  let w := mkStreams save_stdout (sys_stderr w) (shown w) in
  (outcome, w).

(** Statements that reach the streams through the two names of [sys]:
    [print(x)], [print(x, file=sys.stderr)], and [raise e]. *)
Inductive statement : Type :=
| Print (x : pystr)
| PrintErr (x : pystr)
| RaiseExn (e : exn).

(** [print] writes its argument, then the line end. *)
Definition print_to (f : fileobj) (x : pystr) (w : streams) : streams :=
  file_write f [10%N] (file_write f x w).

Fixpoint run_statements (block : list statement) : Block unit := fun w =>
  match block with
  | [] => (Ok tt, w)
  | Print x :: rest => run_statements rest (print_to (sys_stdout w) x w)
  | PrintErr x :: rest => run_statements rest (print_to (sys_stderr w) x w)
  | RaiseExn e :: _ => (Raise e, w)
  end.

(* ===================================================================== *)
(** * Properties                                                          *)
(* ===================================================================== *)

(** ** A run time exists *)

Lemma argmax_from_spec (d pre : vec) (best : nat) (bv : R) :
  (pre ++ d) !! best = Some bv ->
  (forall j x, pre !! j = Some x -> (x <= bv)%R) ->
  exists y, (pre ++ d) !! argmax_from best bv (length pre) d = Some y /\
            forall j x, (pre ++ d) !! j = Some x -> (x <= y)%R.
Proof.
  revert pre best bv. induction d as [|x d IH]; intros pre best bv Hb Hpre; simpl.
  - exists bv. split; [exact Hb|]. intros j z. rewrite app_nil_r. apply Hpre.
  - assert (Hlen : length (pre ++ [x]) = S (length pre))
      by (rewrite length_app; simpl; lia).
    assert (Hsplit : pre ++ x :: d = (pre ++ [x]) ++ d)
      by now rewrite <- app_assoc.
    assert (Hlast : forall j z, (pre ++ [x]) !! j = Some z ->
                                pre !! j = Some z \/ z = x).
    { intros j z Hj. apply lookup_app_Some in Hj as [Hj|[_ Hj]]; [now left|].
      right. destruct (j - length pre)%nat; simpl in Hj; [|done].
      now injection Hj as ->. }
    rewrite Hsplit in *. rewrite <- Hlen.
    destruct (Rlt_dec bv x) as [Hlt|Hge].
    + apply IH.
      * rewrite <- Hsplit. apply list_lookup_middle. reflexivity.
      * intros j z Hj. destruct (Hlast j z Hj) as [Hj'| ->];
          [apply Hpre in Hj'|]; lra.
    + apply IH; [exact Hb|].
      intros j z Hj. destruct (Hlast j z Hj) as [Hj'| ->];
        [now apply (Hpre j) | lra].
Qed.

Lemma first_argmax_max (d : vec) (i : nat) (x : R) :
  d !! i = Some x ->
  exists y, d !! first_argmax d = Some y /\ (x <= y)%R.
Proof.
  destruct d as [|x0 d]; [done|]. intros Hi. unfold first_argmax.
  destruct (argmax_from_spec d [x0] 0 x0) as (y & Hy & Hmax).
  - reflexivity.
  - intros [|j] z Hj; simpl in Hj; [injection Hj as ->; lra | done].
  - exists y. split; [exact Hy|]. now apply (Hmax i).
Qed.

(** A run time in which sets are listed in the order of [elements], the
    weights start at zero, the loader does not shuffle, a step of gradient
    descent leaves the parameters as they are, and the sampler accepts an
    empty data set. *)
#[global] Instance example_runtime : Runtime := {|
  list_of_set := elements;
  list_of_set_perm := fun X => reflexivity (elements X);
  random_stream := fun _ => 0%R;
  topk_index := first_argmax;
  topk_index_max := first_argmax_max;
  randperm := fun _ n => seq 0 n;
  randperm_perm := fun _ n => reflexivity (seq 0 n);
  sgd_update := fun _ nets _ => nets;
  sampler_rejects_empty := false
|}.

(** The same with a sampler that refuses an empty data set. *)
Definition strict_runtime : Runtime := {|
  list_of_set := elements;
  list_of_set_perm := fun X => reflexivity (elements X);
  random_stream := fun _ => 0%R;
  topk_index := first_argmax;
  topk_index_max := first_argmax_max;
  randperm := fun _ n => seq 0 n;
  randperm_perm := fun _ n => reflexivity (seq 0 n);
  sgd_update := fun _ nets _ => nets;
  sampler_rejects_empty := true
|}.

(** ** The definitions at work *)

Example normalize_truncates : normalize_sentence_length [5; 6; 7] 2 1 = [5; 6].
Proof. reflexivity. Qed.

Example normalize_pads : normalize_sentence_length [5] 3 1 = [5; 1; 1].
Proof. reflexivity. Qed.

Example normalize_negative_target : normalize_sentence_length [5; 6; 7] (-1) 1 = [5; 6].
Proof. reflexivity. Qed.

Example long_of_rows_ragged : long_of_rows [[1; 2]; [3]] = Raise ValueError.
Proof. reflexivity. Qed.

Example index0_row :
  index0 (mkLong [2%nat; 3%nat] [1; 2; 3; 4; 5; 6]) 1 = Ok (mkLong [3%nat] [4; 5; 6]).
Proof. reflexivity. Qed.

Example batches_of_three :
  batches (mkLoader (mkLong [3%nat; 2%nat] [1; 2; 3; 4; 5; 6]) 2) 0
  = [ArgList [mkLong [2%nat; 2%nat] [1; 2; 3; 4]]].
Proof. reflexivity. Qed.

Example term_row_a_plus_b :
  term_row (<[str "a" := 0]> (<[str "+" := 1]> (<[str "b" := 2]> ∅))) 5 (str "a + c + b")
  = [0; 1; 1; 2; 1; 1].
Proof. vm_compute. reflexivity. Qed.

(** ** Tokenizer *)

Lemma lstrip_blank (w : pystr) :
  forallb isspace w = true -> lstrip w = [].
Proof.
  induction w as [|c w IH]; simpl; [done|].
  destruct (isspace c); simpl; [exact IH | discriminate].
Qed.

Lemma strip_blank (w : pystr) :
  forallb isspace w = true -> strip w = [].
Proof.
  intros Hw. unfold strip. now rewrite (lstrip_blank w Hw).
Qed.

Lemma get_symbols_strip (s w : pystr) :
  w ∈ get_symbols s -> strip w <> [].
Proof.
  unfold get_symbols. intros [Hne _]%list_elem_of_filter.
  destruct (strip w); [discriminate | done].
Qed.

Lemma arrow_match (before rest : list N) :
  match_len symbols_regexp before (str "->" ++ rest) = Some 2%nat.
Proof.
  unfold match_len.
  destruct before as [|b before]; [reflexivity|].
  cbv -[in_class].
  repeat match goal with
         | |- context [in_class ?cs b] => destruct (in_class cs b)
         end; reflexivity.
Qed.

Lemma sub_scan_arrow (before rest : list N) :
  sub_scan symbols_regexp before (str "->" ++ rest) 0
  = str " -> " ++ sub_scan symbols_regexp (rev (str "->") ++ before) rest 0.
Proof.
  change (str "->" ++ rest) with (45 :: 62 :: rest)%N.
  cbn [sub_scan]. change (45 :: 62 :: rest)%N with (str "->" ++ rest).
  rewrite arrow_match. reflexivity.
Qed.

(** After a [<] the scanner never stands on the [-] of [<->]: it has
    taken [<-] already. *)
Lemma get_symbols_double_arrow :
  get_symbols (str "a<->b") = [str "a"; str "<-"; str ">b"].
Proof. vm_compute. reflexivity. Qed.

(** C10.  [get_symbols] splits ["a+b"] into [a], [+], [b] and ["x -> y"]
    into [x], [->], [y]; wherever the scanner stands on a [-] followed by
    [>] it matches the two characters together and sets them off as the
    one token [->]; and for every
    input string no token is empty or made of whitespace only. *)
Theorem get_symbols_tokens :
  get_symbols (str "a+b") = [str "a"; str "+"; str "b"] /\
  get_symbols (str "x -> y") = [str "x"; str "->"; str "y"] /\
  (forall before rest : list N,
      match_len symbols_regexp before (str "->" ++ rest) = Some 2%nat /\
      sub_scan symbols_regexp before (str "->" ++ rest) 0
      = str " -> " ++ sub_scan symbols_regexp (rev (str "->") ++ before) rest 0) /\
  (forall s w : pystr,
      w ∈ get_symbols s -> w <> [] /\ forallb isspace w = false).
Proof.
  split; [vm_compute; reflexivity|].
  split; [vm_compute; reflexivity|].
  split; [intros before rest; split; [apply arrow_match | apply sub_scan_arrow]|].
  intros s w Hw. apply get_symbols_strip in Hw. split.
  - intros ->. now apply Hw.
  - destruct (forallb isspace w) eqn:E; [|reflexivity].
    exfalso. apply Hw. now apply strip_blank.
Qed.

(** ** Construction *)

Lemma model_path_unbound : lookup_name module_globals "model_path" = Raise NameError.
Proof. vm_compute. reflexivity. Qed.

Lemma F_unbound : lookup_name module_globals "F" = Raise NameError.
Proof. vm_compute. reflexivity. Qed.

(** C2.  [CoqRNNVectorizer()] raises [NameError] whatever the files hold:
    [__init__] evaluates [torch.load(model_path)] and the module binds no
    name [model_path]; so the constructor never hands out an instance. *)
Theorem CoqRNNVectorizer_new_NameError (fs : filesystem) :
  CoqRNNVectorizer_new module_globals fs = Raise NameError /\
  (forall st, fst (CoqRNNVectorizer__init__ module_globals st) = Raise NameError).
Proof.
  split.
  - vm_compute. reflexivity.
  - intros [v fs' tr]. vm_compute. reflexivity.
Qed.

(** ** Inference before training *)

(** C6, as stated, fails: on an untrained vectorizer [term_to_vector]
    does not raise [NotTrainedError]. *)
Lemma term_to_vector_untrained_counterexample :
  term_to_vector untrained (str "a") <> Raise NotTrainedError.
Proof. vm_compute. discriminate. Qed.

(** C6, amended.  While [symbol_mapping] or [model] is unset,
    [term_to_vector] fails on every input string, and the failure is the
    [AssertionError] of its [assert] statements. *)
Theorem term_to_vector_untrained (v : CoqRNNVectorizer) (term_text : pystr) :
  symbol_mapping v = None \/ model v = None ->
  term_to_vector v term_text = Raise AssertionError.
Proof.
  intros [Hm|He]; unfold term_to_vector.
  - rewrite Hm. reflexivity.
  - destruct (negb (truthy_mapping (symbol_mapping v))); [reflexivity|].
    rewrite He. now destruct (symbol_mapping v).
Qed.

Lemma term_to_vector_untrained_witness :
  term_to_vector untrained (str "a") = Raise AssertionError.
Proof. apply term_to_vector_untrained. left. reflexivity. Defined.

(** ** Saving and loading *)

Lemma load_weights_noop (model_path : pystr) (st : pystate) :
  load_weights model_path st = (Ok tt, st).
Proof. reflexivity. Qed.

Lemma trained_example_vector :
  is_ok (term_to_vector trained_example (str "a")) = true.
Proof. vm_compute. reflexivity. Qed.

(** C1 fails on the code.  [save_weights], where it returns, has written
    the bundle of the saved vectorizer to the file the path names, and
    [load_weights] leaves the vectorizer it is called on as it was,
    whatever the file holds.  So when a trained vectorizer is saved (to
    [weights.dat] in an empty directory, which succeeds) and one that
    holds nothing loads the file, the first returns a vector for ["a"]
    and the second still raises [AssertionError]. *)
Theorem save_then_load_restores_nothing :
  (forall (saved loading : CoqRNNVectorizer) (path : pystr)
          (fs : filesystem) (tr : list event),
      let run1 := save_weights path (mkState saved fs tr) in
      let st1 := snd run1 in
      let st2 := snd (load_weights path (mkState loading (files st1) tr)) in
      (fst run1 = Ok tt ->
       saved_at (files st1) path
       = Some (symbol_mapping saved, model saved, _decoder saved)) /\
      self st2 = loading) /\
  fst (save_weights (str "weights.dat") (mkState trained_example ∅ [])) = Ok tt /\
  is_ok (term_to_vector trained_example (str "a")) = true /\
  term_to_vector untrained (str "a") = Raise AssertionError.
Proof.
  split; [|split; [|split]].
  - intros saved loading path fs tr. cbv zeta.
    rewrite load_weights_noop. cbn [snd self files]. split; [|reflexivity].
    unfold save_weights, write_file, saved_at, mbind, Py_bind, get_self.
    cbn [self files trace].
    destruct (Path_location fs path) as [file|e] eqn:Hopen;
      cbn [fst snd files Path_location contents]; [|discriminate].
    intros _. rewrite Hopen. apply lookup_insert_eq.
  - vm_compute. reflexivity.
  - exact trained_example_vector.
  - reflexivity.
Qed.

(** ** The monad of methods *)

Lemma Py_bind_unfold {A B} (m : Py A) (f : A -> Py B) (st : pystate) :
  (m ≫= f) st =
  match m st with
  | (Ok a, st') => f a st'
  | (Raise e, st') => (Raise e, st')
  end.
Proof. reflexivity. Qed.

Lemma lift_bind {A B} (r : result A) (f : A -> Py B) (st : pystate) :
  (lift r ≫= f) st =
  match r with Ok a => f a st | Raise e => (Raise e, st) end.
Proof. now destruct r. Qed.

Lemma set_symbol_mapping_run (m : option (gmap pystr Z)) (st : pystate) :
  set_symbol_mapping m st =
  (Ok tt, mkState (mkVectorizer m (model (self st)) (_decoder (self st)))
                  (files st) (trace st)).
Proof. reflexivity. Qed.

Lemma set_model_run (e : option EncoderRNN) (st : pystate) :
  set_model e st =
  (Ok tt, mkState (mkVectorizer (symbol_mapping (self st)) e (_decoder (self st)))
                  (files st) (trace st)).
Proof. reflexivity. Qed.

Lemma set_decoder_run (d : option DecoderRNN) (st : pystate) :
  set_decoder d st =
  (Ok tt, mkState (mkVectorizer (symbol_mapping (self st)) (model (self st)) d)
                  (files st) (trace st)).
Proof. reflexivity. Qed.

Lemma emit_run (ev : event) (st : pystate) :
  emit ev st = (Ok tt, mkState (self st) (files st) (ev :: trace st)).
Proof. reflexivity. Qed.

Lemma get_self_run (st : pystate) : get_self st = (Ok (self st), st).
Proof. reflexivity. Qed.

Lemma keeps_mret {A} (a : A) : keeps_mapping (mret a : Py A).
Proof. intros st. reflexivity. Qed.

Lemma keeps_lift {A} (r : result A) : keeps_mapping (lift r).
Proof. intros st. reflexivity. Qed.

Lemma keeps_emit (ev : event) : keeps_mapping (emit ev).
Proof. intros st. reflexivity. Qed.

Lemma keeps_get_self : keeps_mapping get_self.
Proof. intros st. reflexivity. Qed.

Lemma keeps_set_model (e : option EncoderRNN) : keeps_mapping (set_model e).
Proof. intros st. reflexivity. Qed.

Lemma keeps_set_decoder (d : option DecoderRNN) : keeps_mapping (set_decoder d).
Proof. intros st. reflexivity. Qed.

Lemma keeps_bind {A B} (m : Py A) (f : A -> Py B) :
  keeps_mapping m -> (forall a, keeps_mapping (f a)) -> keeps_mapping (m ≫= f).
Proof.
  intros Hm Hf st. rewrite Py_bind_unfold. specialize (Hm st).
  destruct (m st) as [[a|e] st']; simpl in *; [|exact Hm].
  now rewrite Hf.
Qed.

Lemma keeps_for_fold {A S} (xs : list A) (body : A -> S -> Py S) (s : S) :
  (forall x s, keeps_mapping (body x s)) -> keeps_mapping (for_fold xs body s).
Proof.
  intros Hbody. revert s. induction xs as [|x xs IH]; intros s; simpl.
  - apply keeps_mret.
  - apply keeps_bind; [apply Hbody | exact IH].
Qed.

Create HintDb keeps.
#[local] Hint Resolve keeps_mret keeps_lift keeps_emit keeps_get_self
  keeps_set_model keeps_set_decoder : keeps.

Ltac keeps :=
  repeat first
    [ solve [auto with keeps]
    | apply keeps_for_fold; intros
    | match goal with
      | |- keeps_mapping (let '(_, _) := ?x in _) => destruct x
      | |- keeps_mapping (if ?b then _ else _) => destruct b
      end
    | apply keeps_bind; [|intros] ].

(** ** The vocabulary *)

Section Vocabulary.
Context `{Runtime}.

Lemma enumerate_cons {A} (start : Z) (x : A) (xs : list A) :
  enumerate start (x :: xs) = (start, x) :: enumerate (start + 1) xs.
Proof.
  unfold enumerate. simpl. f_equal; [f_equal; lia|].
  apply imap_ext. intros i y _. simpl. f_equal. lia.
Qed.

Lemma enumerate_nil {A} (start : Z) : enumerate start (@nil A) = [].
Proof. reflexivity. Qed.

Lemma for_each_assign (token_vocab : list pystr) (start : Z)
    (m : gmap pystr Z) (e : option EncoderRNN) (d : option DecoderRNN)
    (fs : filesystem) (tr : list event) :
  for_each (enumerate start token_vocab)
    (fun '(idx, symbol) => assign_symbol symbol idx)
    (mkState (mkVectorizer (Some m) e d) fs tr) =
  (Ok tt, mkState (mkVectorizer (Some (assigned start token_vocab m)) e d) fs tr).
Proof.
  revert start m. induction token_vocab as [|x xs IH]; intros start m.
  - reflexivity.
  - unfold for_each, assigned in *. rewrite enumerate_cons. simpl.
    rewrite Py_bind_unfold. cbn. apply IH.
Qed.

Lemma assigned_fresh (token_vocab : list pystr) (start : Z)
    (m : gmap pystr Z) (symbol : pystr) :
  symbol ∉ token_vocab -> assigned start token_vocab m !! symbol = m !! symbol.
Proof.
  revert start m. induction token_vocab as [|x xs IH]; intros start m Hnot.
  - reflexivity.
  - unfold assigned in *. rewrite enumerate_cons. simpl.
    apply not_elem_of_cons in Hnot as [Hne Hnot].
    rewrite IH by exact Hnot. now apply lookup_insert_ne.
Qed.

Lemma assigned_lookup (token_vocab : list pystr) (start : Z)
    (m : gmap pystr Z) (i : nat) (symbol : pystr) :
  NoDup token_vocab -> token_vocab !! i = Some symbol ->
  assigned start token_vocab m !! symbol = Some (start + Z.of_nat i).
Proof.
  revert start m i. induction token_vocab as [|x xs IH]; intros start m i Hnd Hi.
  - done.
  - apply NoDup_cons in Hnd as [Hx Hnd].
    unfold assigned in *. rewrite enumerate_cons. simpl.
    destruct i as [|i]; simpl in Hi.
    + injection Hi as ->.
      change (assigned (start + 1) xs (<[symbol := start]> m) !! symbol
              = Some (start + Z.of_nat 0)).
      rewrite assigned_fresh by exact Hx.
      rewrite lookup_insert_eq. f_equal. lia.
    + rewrite (IH _ _ i) by assumption. f_equal. lia.
Qed.

Lemma corpus_symbols_term (term : pystr) (X : gset pystr) (symbol : pystr) :
  symbol ∈ fold_left (fun token_set symbol => {[symbol]} ∪ token_set)
             (get_symbols term) X <->
  symbol ∈ get_symbols term \/ symbol ∈ X.
Proof.
  revert X. induction (get_symbols term) as [|y ys IH]; intros X; simpl.
  - split; [now right | intros [Hin|HX]; [inversion Hin | exact HX]].
  - rewrite IH, elem_of_union, elem_of_singleton, elem_of_cons. tauto.
Qed.

Lemma corpus_symbols_fold (terms : list pystr) (X : gset pystr) (symbol : pystr) :
  symbol ∈ fold_left (fun token_set term =>
                        fold_left (fun token_set symbol => {[symbol]} ∪ token_set)
                                  (get_symbols term) token_set) terms X <->
  (exists term, term ∈ terms /\ symbol ∈ get_symbols term) \/ symbol ∈ X.
Proof.
  revert X. induction terms as [|t ts IH]; intros X; simpl.
  - split; [now right | intros [(t & Ht & _)|HX]; [inversion Ht | exact HX]].
  - rewrite IH, corpus_symbols_term. split.
    + intros [(t' & Ht' & Hs)|[Hs|HX]].
      * left. exists t'. split; [now right | exact Hs].
      * left. exists t. split; [now left | exact Hs].
      * now right.
    + intros [(t' & Ht' & Hs)|HX].
      * apply elem_of_cons in Ht' as [->|Ht'].
        -- right. now left.
        -- left. now exists t'.
      * right. now right.
Qed.

(** The symbols of the corpus are those of its terms. *)
Lemma elem_of_corpus_symbols (terms : list pystr) (symbol : pystr) :
  symbol ∈ corpus_symbols terms <->
  exists term, term ∈ terms /\ symbol ∈ get_symbols term.
Proof.
  unfold corpus_symbols. rewrite corpus_symbols_fold. split.
  - intros [Hin|Hin]; [exact Hin | now apply elem_of_empty in Hin].
  - now left.
Qed.

Lemma list_of_set_NoDup (X : gset pystr) : NoDup (list_of_set X).
Proof. rewrite list_of_set_perm. apply NoDup_elements. Qed.

Lemma list_of_set_length (X : gset pystr) : length (list_of_set X) = size X.
Proof. now rewrite list_of_set_perm. Qed.

Lemma elem_of_list_of_set (X : gset pystr) (x : pystr) :
  x ∈ list_of_set X <-> x ∈ X.
Proof. rewrite list_of_set_perm. apply elem_of_elements. Qed.

Lemma keeps_report (batch_num batch_size epoch dataset_size n_epochs
                    print_every : Z) :
  keeps_mapping (report batch_num batch_size epoch dataset_size n_epochs
                   print_every).
Proof. unfold report. keeps. Qed.

Lemma keeps_train_batch (G : scope) (learning_rate : R)
    (batch_size epoch dataset_size n_epochs print_every : Z)
    (numbered : Z * batch_arg) (locals : EncoderRNN * DecoderRNN * R) :
  keeps_mapping (train_batch G learning_rate batch_size epoch dataset_size
                   n_epochs print_every numbered locals).
Proof.
  destruct numbered as [batch_num data_batch], locals as [[enc dec] l].
  unfold train_batch. keeps. apply keeps_report.
Qed.

Lemma keeps_train_epoch (G : scope) (learning_rate : R) (dl : DataLoader)
    (batch_size dataset_size n_epochs print_every epoch : Z)
    (nets : EncoderRNN * DecoderRNN) :
  keeps_mapping (train_epoch G learning_rate dl batch_size dataset_size
                   n_epochs print_every epoch nets).
Proof.
  destruct nets as [enc dec]. unfold train_epoch. keeps.
  apply keeps_train_batch.
Qed.

(** Whatever [train] goes on to do, it leaves in [self.symbol_mapping]
    the dictionary built from the symbols of the corpus. *)
Lemma train_symbol_mapping (G : scope) (terms : list pystr)
    (hidden_size : Z) (learning_rate : R) (n_epochs batch_size print_every : Z)
    (force_max_length : option Z) (st : pystate) :
  symbol_mapping
    (self (snd (train G terms hidden_size learning_rate n_epochs batch_size
                  print_every force_max_length st))) =
  Some (assigned 0 (list_of_set (corpus_symbols terms)) ∅).
Proof.
  destruct st as [[m e d] fs tr]. unfold train.
  rewrite Py_bind_unfold, set_symbol_mapping_run. cbn [self model _decoder files trace].
  rewrite Py_bind_unfold, for_each_assign.
  match goal with
  | |- symbol_mapping (self (snd (?m ?st))) = _ =>
      assert (Hk : keeps_mapping m)
  end.
  { keeps. apply keeps_train_epoch. }
  now rewrite Hk.
Qed.

(** C5 fails on the code.  The index of the end-of-sequence marker is not
    reserved: as soon as the corpus has two distinct symbols, the
    vocabulary [train] builds maps one of them to [EOS_token], in whatever
    order the set of symbols is listed. *)
Theorem train_maps_a_symbol_to_EOS (G : scope) (terms : list pystr)
    (hidden_size : Z) (learning_rate : R) (n_epochs batch_size print_every : Z)
    (force_max_length : option Z) (st : pystate) :
  (2 <= size (corpus_symbols terms))%nat ->
  exists (mapping : gmap pystr Z) (symbol term : pystr),
    symbol_mapping
      (self (snd (train G terms hidden_size learning_rate n_epochs batch_size
                    print_every force_max_length st))) = Some mapping /\
    term ∈ terms /\ symbol ∈ get_symbols term /\
    mapping !! symbol = Some EOS_token.
Proof.
  intros Hsize. rewrite train_symbol_mapping.
  set (vocab := list_of_set (corpus_symbols terms)).
  assert (Hlen : (1 < length vocab)%nat)
    by (unfold vocab; rewrite list_of_set_length; lia).
  destruct (lookup_lt_is_Some_2 vocab 1 Hlen) as [symbol Hsym].
  assert (Hin : symbol ∈ corpus_symbols terms).
  { apply elem_of_list_of_set. eapply list_elem_of_lookup_2. exact Hsym. }
  apply elem_of_corpus_symbols in Hin as (term & Hterm & Hs).
  exists (assigned 0 vocab ∅), symbol, term.
  split; [reflexivity|]. split; [exact Hterm|]. split; [exact Hs|].
  apply (assigned_lookup vocab 0 ∅ 1 symbol); [apply list_of_set_NoDup | exact Hsym].
Qed.

End Vocabulary.

Lemma train_maps_a_symbol_to_EOS_witness :
  exists (mapping : gmap pystr Z) (symbol term : pystr),
    symbol_mapping
      (self (snd (train module_globals [str "a + b"] 8 (1 / 2)%R 1 2 1 None
                    (mkState untrained ∅ [])))) = Some mapping /\
    term ∈ [str "a + b"] /\ symbol ∈ get_symbols term /\
    mapping !! symbol = Some EOS_token.
Proof.
  apply train_maps_a_symbol_to_EOS. vm_compute. lia.
Defined.

(** ** Normalised rows *)

(** The normaliser returns a sequence of the target length (a target
    that is not negative). *)
Lemma normalize_sentence_length_length (sentence : list Z) (target fill : Z) :
  0 <= target ->
  length (normalize_sentence_length sentence target fill) = Z.to_nat target.
Proof.
  intros Ht. unfold normalize_sentence_length, slice_to.
  destruct (Z.gtb_spec (Z.of_nat (length sentence)) target).
  - destruct (Z.ltb_spec target 0); [lia|]. rewrite length_take. lia.
  - destruct (Z.ltb_spec (Z.of_nat (length sentence)) target).
    + rewrite length_app, length_replicate. lia.
    + lia.
Qed.

(** A sequence that is not longer than the target is a prefix of its
    normalisation. *)
Lemma normalize_sentence_length_prefix (sentence : list Z) (target fill : Z) :
  Z.of_nat (length sentence) <= target ->
  take (length sentence) (normalize_sentence_length sentence target fill) = sentence.
Proof.
  intros Ht. unfold normalize_sentence_length.
  destruct (Z.gtb_spec (Z.of_nat (length sentence)) target); [lia|].
  destruct (Z.ltb_spec (Z.of_nat (length sentence)) target).
  - now rewrite take_app_length.
  - now rewrite firstn_all.
Qed.

Lemma corpus_max_length_from (terms : list pystr) (acc : Z) :
  acc <= fold_left (fun max_length_so_far term =>
                      Z.max (Z.of_nat (length (get_symbols term))) max_length_so_far)
                   terms acc.
Proof.
  revert acc. induction terms as [|t ts IH]; intros acc; simpl; [lia|].
  etransitivity; [|apply IH]. lia.
Qed.

Lemma corpus_max_length_nonneg (terms : list pystr) : 0 <= corpus_max_length terms.
Proof. apply corpus_max_length_from. Qed.

Lemma choose_max_term_length_nonneg (force_max_length : option Z) (terms : list pystr) :
  force_ok force_max_length ->
  0 <= choose_max_term_length force_max_length (corpus_max_length terms).
Proof.
  pose proof (corpus_max_length_nonneg terms).
  destruct force_max_length as [f|]; simpl; intros Hf; [|lia].
  destruct (f =? 0); lia.
Qed.

Lemma term_row_length (mapping : gmap pystr Z) (L : Z) (term : pystr) :
  0 <= L -> length (term_row mapping L term) = S (Z.to_nat L).
Proof.
  intros HL. unfold term_row.
  rewrite length_app, normalize_sentence_length_length by exact HL. simpl. lia.
Qed.

Lemma long_of_rows_rectangular (rows : list (list Z)) (w : nat) :
  rows <> [] -> Forall (fun r => length r = w) rows ->
  long_of_rows rows = Ok (mkLong [length rows; w] (concat rows)).
Proof.
  intros Hne Hall. destruct rows as [|r rows]; [done|].
  unfold long_of_rows.
  assert (Hr : length r = w) by now inversion Hall.
  rewrite Hr.
  replace (forallb (fun r' => Nat.eqb (length r') w) (r :: rows)) with true;
    [reflexivity|].
  symmetry. apply forallb_forall. intros r' Hin.
  apply Nat.eqb_eq. rewrite Forall_forall in Hall. apply Hall.
  now apply list_elem_of_In.
Qed.

(** ** Training on a corpus too small for a batch *)

Section SmallCorpus.
Context `{Runtime}.

Lemma replicate_snoc_cons {A} (n : nat) (x : A) (l : list A) :
  replicate n x ++ x :: l = x :: replicate n x ++ l.
Proof. induction n as [|n IH]; simpl; [reflexivity | now rewrite IH]. Qed.

Lemma batches_drop_last (t : LongTensor) (batch_size : nat) (epoch : nat) :
  (hd 0%nat (shape t) < batch_size)%nat ->
  batches (mkLoader t batch_size) epoch = [].
Proof.
  intros Hlt. unfold batches. cbn [dl_dataset dl_batch_size].
  now rewrite Nat.div_small.
Qed.

(** An epoch over no batch prints its header and stores the networks as
    they are. *)
Lemma train_epoch_without_batches (G : scope) (learning_rate : R)
    (dl : DataLoader) (batch_size dataset_size n_epochs print_every epoch : Z)
    (encoder : EncoderRNN) (decoder : DecoderRNN) (st : pystate) :
  batches dl (Z.to_nat epoch) = [] ->
  train_epoch G learning_rate dl batch_size dataset_size n_epochs print_every
    epoch (encoder, decoder) st =
  (Ok (encoder, decoder),
   mkState (mkVectorizer (symbol_mapping (self st)) (Some encoder) (Some decoder))
           (files st) (EvPrint :: trace st)).
Proof.
  intros Hb. unfold train_epoch. rewrite Hb.
  rewrite Py_bind_unfold, emit_run. cbn [enumerate imap for_fold].
  rewrite Py_bind_unfold. cbn [mret Py_ret].
  rewrite Py_bind_unfold, set_model_run. cbn [self files trace].
  rewrite Py_bind_unfold, set_decoder_run. reflexivity.
Qed.

Lemma epochs_without_batches (G : scope) (learning_rate : R)
    (dl : DataLoader) (batch_size dataset_size n_epochs print_every : Z)
    (epochs : list Z) (encoder : EncoderRNN) (decoder : DecoderRNN)
    (st : pystate) :
  (forall epoch, batches dl epoch = []) ->
  for_fold epochs
    (train_epoch G learning_rate dl batch_size dataset_size n_epochs print_every)
    (encoder, decoder) st =
  (Ok (encoder, decoder),
   mkState (match epochs with
            | [] => self st
            | _ => mkVectorizer (symbol_mapping (self st))
                                (Some encoder) (Some decoder)
            end)
           (files st) (replicate (length epochs) EvPrint ++ trace st)).
Proof.
  intros Hb. revert st. induction epochs as [|e es IH]; intros st.
  - now destruct st.
  - cbn [for_fold]. rewrite Py_bind_unfold, train_epoch_without_batches by apply Hb.
    rewrite IH. cbn [self files trace length replicate].
    rewrite replicate_snoc_cons. now destruct es.
Qed.

Lemma check_sizes_ok (vocab_size hidden_size : Z) :
  0 <= vocab_size -> 0 < hidden_size -> check_sizes vocab_size hidden_size = Ok tt.
Proof.
  intros Hv Hh. unfold check_sizes.
  destruct (Z.ltb_spec vocab_size 0); [lia|].
  destruct (Z.ltb_spec hidden_size 0); [lia|].
  destruct (Z.eqb_spec hidden_size 0); [lia|]. reflexivity.
Qed.

Lemma SGD_new_ok (learning_rate : R) :
  (0 <= learning_rate)%R -> SGD_new learning_rate = Ok tt.
Proof. intros Hl. unfold SGD_new. destruct (Rlt_dec learning_rate 0); [lra | reflexivity]. Qed.

(** On a corpus that is not empty, under hyperparameters torch accepts,
    [train] gets as far as its loop over the epochs, with the vocabulary
    stored, the terms in one tensor and the two networks built. *)
Lemma train_to_loop (G : scope) (terms : list pystr)
    (hidden_size : Z) (learning_rate : R) (n_epochs batch_size print_every : Z)
    (force_max_length : option Z) (st : pystate) :
  terms <> [] -> 0 < batch_size ->
  0 < hidden_size -> (0 <= learning_rate)%R -> force_ok force_max_length ->
  let vocab := list_of_set (corpus_symbols terms) in
  exists (encoder : EncoderRNN) (decoder : DecoderRNN)
         (term_tensors : LongTensor) (dataset_size : Z),
    EncoderRNN_new (Z.of_nat (length vocab)) hidden_size = Ok encoder /\
    DecoderRNN_new hidden_size (Z.of_nat (length vocab)) = Ok decoder /\
    hd 0%nat (shape term_tensors) = length terms /\
    train G terms hidden_size learning_rate n_epochs batch_size print_every
      force_max_length st =
    (for_fold (range n_epochs)
       (train_epoch G learning_rate
          (mkLoader term_tensors (Z.to_nat batch_size))
          batch_size dataset_size n_epochs print_every)
       (encoder, decoder)
     ≫= fun _ => mret tt)
      (mkState (mkVectorizer (Some (assigned 0 vocab ∅))
                             (model (self st)) (_decoder (self st)))
               (files st) (trace st)).
Proof.
  intros Hne Hbs Hh Hlr Hf vocab.
  assert (Hcs : check_sizes (Z.of_nat (length vocab)) hidden_size = Ok tt)
    by (apply check_sizes_ok; lia).
  unfold EncoderRNN_new, DecoderRNN_new. rewrite Hcs. cbn [mbind result_bind].
  set (L := choose_max_term_length force_max_length (corpus_max_length terms)).
  assert (HL : 0 <= L) by now apply choose_max_term_length_nonneg.
  set (t := mkLong [length terms; S (Z.to_nat L)]
                   (concat (map (term_row (assigned 0 vocab ∅) L) terms))).
  assert (Hdiv : exists q, int_div (Z.of_nat (S (Z.to_nat L))) batch_size = Ok q).
  { unfold int_div. destruct (Z.eqb_spec batch_size 0); [lia|]. eauto. }
  destruct Hdiv as [q Hq].
  eexists _, _, t, (q * batch_size).
  split; [reflexivity|]. split; [reflexivity|]. split; [reflexivity|].
  destruct st as [[m e d] fs tr]. unfold train. fold vocab.
  rewrite Py_bind_unfold, set_symbol_mapping_run. cbn [self model _decoder files trace].
  rewrite Py_bind_unfold, for_each_assign.
  rewrite Py_bind_unfold, get_self_run. cbn [self symbol_mapping default].
  fold L. rewrite lift_bind.
  rewrite (long_of_rows_rectangular _ (S (Z.to_nat L))); cycle 1.
  { now destruct terms. }
  { apply Forall_map, Forall_forall. intros x _. now apply term_row_length. }
  rewrite length_map.
  change (Datatypes.id (assigned 0 vocab ∅)) with (assigned 0 vocab ∅). fold t.
  assert (Hdl : DataLoader_new t batch_size = Ok (mkLoader t (Z.to_nat batch_size))).
  { unfold DataLoader_new. cbn [t size0 shape mbind result_bind].
    destruct (Z.leb_spec batch_size 0); [lia|].
    destruct terms; [done|]. reflexivity. }
  rewrite lift_bind, Hdl.
  assert (Hrow : index0 t 0 = Ok (mkLong [S (Z.to_nat L)]
                   (take (numel [S (Z.to_nat L)]) (drop (0 * numel [S (Z.to_nat L)]) (entries t))))).
  { unfold index0. cbn [t shape]. destruct terms; [done|]. reflexivity. }
  rewrite lift_bind, Hrow, lift_bind. cbn [size0 shape].
  rewrite lift_bind, Hq.
  rewrite lift_bind. unfold EncoderRNN_new. rewrite Hcs. cbn [mbind result_bind].
  rewrite lift_bind. unfold DecoderRNN_new. rewrite Hcs. cbn [mbind result_bind].
  rewrite lift_bind, SGD_new_ok by exact Hlr. reflexivity.
Qed.

(** The whole of [train] on a corpus that is not empty and has fewer
    terms than a batch, under hyperparameters torch accepts. *)
Lemma train_small_corpus (G : scope) (terms : list pystr)
    (hidden_size : Z) (learning_rate : R) (n_epochs batch_size print_every : Z)
    (force_max_length : option Z) (st : pystate) :
  terms <> [] -> Z.of_nat (length terms) < batch_size ->
  0 < hidden_size -> (0 <= learning_rate)%R -> force_ok force_max_length ->
  let vocab := list_of_set (corpus_symbols terms) in
  exists (encoder : EncoderRNN) (decoder : DecoderRNN),
    EncoderRNN_new (Z.of_nat (length vocab)) hidden_size = Ok encoder /\
    DecoderRNN_new hidden_size (Z.of_nat (length vocab)) = Ok decoder /\
    train G terms hidden_size learning_rate n_epochs batch_size print_every
      force_max_length st =
    (Ok tt,
     mkState (match range n_epochs with
              | [] => mkVectorizer (Some (assigned 0 vocab ∅))
                                   (model (self st)) (_decoder (self st))
              | _ => mkVectorizer (Some (assigned 0 vocab ∅))
                                  (Some encoder) (Some decoder)
              end)
             (files st) (replicate (Z.to_nat n_epochs) EvPrint ++ trace st)).
Proof.
  intros Hne Hsmall Hh Hlr Hf vocab.
  destruct (train_to_loop G terms hidden_size learning_rate n_epochs batch_size
              print_every force_max_length st Hne ltac:(lia) Hh Hlr Hf)
    as (enc & dec & t & ds & Henc & Hdec & Ht & Hrun).
  exists enc, dec. split; [exact Henc|]. split; [exact Hdec|].
  rewrite Hrun, Py_bind_unfold, epochs_without_batches; cycle 1.
  { intros epoch. apply batches_drop_last. rewrite Ht. lia. }
  cbn [mret Py_ret self files trace symbol_mapping].
  unfold range at 2. rewrite length_map, length_seq. reflexivity.
Qed.

(** As soon as the corpus fills a batch, the first batch of the first
    epoch stops [train]: the loader hands [autoencoderBatchLoss] a list
    holding the batch tensor, and a list has no [size]. *)
Lemma train_first_batch_AttributeError (G : scope) (terms : list pystr)
    (hidden_size : Z) (learning_rate : R) (n_epochs batch_size print_every : Z)
    (force_max_length : option Z) (st : pystate) :
  0 < batch_size <= Z.of_nat (length terms) -> 0 < n_epochs ->
  0 < hidden_size -> (0 <= learning_rate)%R -> force_ok force_max_length ->
  fst (train G terms hidden_size learning_rate n_epochs batch_size print_every
         force_max_length st) = Raise AttributeError.
Proof.
  intros Hbs Hep Hh Hlr Hf.
  assert (Hne : terms <> []) by (intros ->; simpl in Hbs; lia).
  destruct (train_to_loop G terms hidden_size learning_rate n_epochs batch_size
              print_every force_max_length st Hne ltac:(lia) Hh Hlr Hf)
    as (enc & dec & t & ds & _ & _ & Ht & Hrun).
  rewrite Hrun, Py_bind_unfold. unfold range.
  destruct (Z.to_nat n_epochs) as [|k] eqn:Ek; [lia|].
  cbn [seq map for_fold]. rewrite Py_bind_unfold.
  unfold train_epoch at 1. rewrite Py_bind_unfold, emit_run, Py_bind_unfold.
  unfold batches. cbn [dl_dataset dl_batch_size]. rewrite Ht.
  assert (Hcount : exists m, (length terms / Z.to_nat batch_size)%nat = S m).
  { destruct (length terms / Z.to_nat batch_size)%nat eqn:E; [|eauto].
    apply Nat.div_small_iff in E; lia. }
  destruct Hcount as [m ->]. cbn [seq map]. rewrite enumerate_cons.
  cbn [for_fold]. rewrite Py_bind_unfold.
  unfold train_batch at 1. rewrite Py_bind_unfold, emit_run, lift_bind.
  reflexivity.
Qed.

(** On the empty corpus [train] raises, in every run time: the sampler
    refuses the empty data set or, where it accepts it, line 90 indexes
    the empty tensor. *)
Lemma train_empty_corpus (G : scope)
    (hidden_size : Z) (learning_rate : R) (n_epochs batch_size print_every : Z)
    (force_max_length : option Z) (st : pystate) :
  exists e, fst (train G [] hidden_size learning_rate n_epochs batch_size
                   print_every force_max_length st) = Raise e /\
            (e = ValueError \/ e = IndexError).
Proof.
  destruct st as [[m e d] fs tr]. unfold train.
  rewrite Py_bind_unfold, set_symbol_mapping_run. cbn [self model _decoder files trace].
  rewrite Py_bind_unfold, for_each_assign.
  rewrite Py_bind_unfold, get_self_run. cbn [self symbol_mapping default map long_of_rows].
  rewrite lift_bind, lift_bind. unfold DataLoader_new.
  cbn [size0 shape mbind result_bind Nat.eqb andb].
  destruct (batch_size <=? 0); [eexists; split; [reflexivity | now left]|].
  destruct sampler_rejects_empty; [eexists; split; [reflexivity | now left]|].
  rewrite lift_bind. cbn. eexists; split; [reflexivity | now right].
Qed.

(** C8, amended.  When the corpus is not empty and has fewer terms than
    one batch, and torch accepts the hyperparameters (a positive hidden
    size, a learning rate and a forced length that are not negative),
    [train] returns without raising; all it does is print the header of
    each epoch: it takes no optimiser step, and after a first epoch the
    networks it stores are the freshly initialised ones. *)
Theorem train_without_batches (G : scope) (terms : list pystr)
    (hidden_size : Z) (learning_rate : R) (n_epochs batch_size print_every : Z)
    (force_max_length : option Z) (st : pystate) :
  terms <> [] -> Z.of_nat (length terms) < batch_size ->
  0 < hidden_size -> (0 <= learning_rate)%R -> force_ok force_max_length ->
  let run := train G terms hidden_size learning_rate n_epochs batch_size
               print_every force_max_length st in
  let vocab_size := Z.of_nat (length (list_of_set (corpus_symbols terms))) in
  fst run = Ok tt /\
  (exists added : list event,
      trace (snd run) = added ++ trace st /\
      added = replicate (Z.to_nat n_epochs) EvPrint /\
      EvOptimizerStep ∉ added) /\
  (0 < n_epochs ->
   exists (encoder : EncoderRNN) (decoder : DecoderRNN),
     EncoderRNN_new vocab_size hidden_size = Ok encoder /\
     DecoderRNN_new hidden_size vocab_size = Ok decoder /\
     model (self (snd run)) = Some encoder /\
     _decoder (self (snd run)) = Some decoder).
Proof.
  intros Hne Hsmall Hh Hlr Hf run vocab_size.
  destruct (train_small_corpus G terms hidden_size learning_rate n_epochs
              batch_size print_every force_max_length st Hne Hsmall Hh Hlr Hf)
    as (enc & dec & Henc & Hdec & Hrun).
  subst run vocab_size. rewrite Hrun. cbn [fst snd trace self].
  split; [reflexivity|]. split.
  - eexists. split; [reflexivity|]. split; [reflexivity|].
    intros Hin%elem_of_replicate. destruct Hin as [Heq _]. discriminate.
  - intros Hpos. exists enc, dec. unfold range.
    destruct (Z.to_nat n_epochs) eqn:E; [lia|]. cbn. auto.
Qed.

End SmallCorpus.

(** C8, as stated, fails: the empty corpus has fewer terms than a batch of
    two, and [train] raises on it: where the sampler accepts an empty data
    set, [IndexError] at line 90; where it refuses one, [ValueError] at
    the construction of the loader. *)
Lemma train_without_batches_counterexample :
  Z.of_nat (length (@nil pystr)) < 2 /\
  fst (@train example_runtime module_globals [] 8 (1 / 2)%R 1 2 1 None
         (mkState untrained ∅ [])) = Raise IndexError /\
  fst (@train strict_runtime module_globals [] 8 (1 / 2)%R 1 2 1 None
         (mkState untrained ∅ [])) = Raise ValueError.
Proof. split; [reflexivity | split; vm_compute; reflexivity]. Qed.

Lemma train_without_batches_witness :
  let run := train module_globals [str "a"] 8 (1 / 2)%R 1 2 1 None
               (mkState untrained ∅ []) in
  let vocab_size := Z.of_nat (length (list_of_set (corpus_symbols [str "a"]))) in
  fst run = Ok tt /\
  (exists added : list event,
      trace (snd run) = added ++ [] /\
      added = replicate (Z.to_nat 1) EvPrint /\
      EvOptimizerStep ∉ added) /\
  (0 < 1 ->
   exists (encoder : EncoderRNN) (decoder : DecoderRNN),
     EncoderRNN_new vocab_size 8 = Ok encoder /\
     DecoderRNN_new 8 vocab_size = Ok decoder /\
     model (self (snd run)) = Some encoder /\
     _decoder (self (snd run)) = Some decoder).
Proof.
  apply (train_without_batches module_globals [str "a"] 8 (1 / 2)%R 1 2 1 None
           (mkState untrained ∅ [])).
  - discriminate.
  - simpl. lia.
  - lia.
  - lra.
  - exact I.
Defined.

(** ** Terms of unknown symbols *)

Lemma corpus_a_elements : elements (corpus_symbols [str "a"]) = [str "a"].
Proof. vm_compute. reflexivity. Qed.

Lemma unknown_symbols :
  get_symbols (str "completely_unknown_symbol_xyz")
  = [str "completely_unknown_symbol_xyz"].
Proof. vm_compute. reflexivity. Qed.

(** C9 fails on the code.  Train on the corpus ["a"] (one term, batches of
    two, so training returns having stored the initial networks); the
    vocabulary is [{a: 0}] and the term [completely_unknown_symbol_xyz]
    has no symbol in it.  [term_to_vector] then feeds the encoder the
    index of the end-of-sequence marker alone, and that index lies outside
    the embedding table of one row: the call raises [IndexError]. *)
Theorem term_to_vector_unknown_IndexError `{Runtime} :
  let run := train module_globals [str "a"] 8 (1 / 2)%R 1 2 1 None
               (mkState untrained ∅ []) in
  let unknown := str "completely_unknown_symbol_xyz" in
  fst run = Ok tt /\
  symbol_mapping (self (snd run)) = Some (<[str "a" := 0]> ∅) /\
  omap (fun symb => (<[str "a" := 0]> ∅ : gmap pystr Z) !! symb)
       (get_symbols unknown) = [] /\
  term_to_vector (self (snd run)) unknown = Raise IndexError.
Proof.
  intros run unknown.
  destruct (train_small_corpus module_globals [str "a"] 8 (1 / 2)%R 1 2 1 None
              (mkState untrained ∅ [])) as (enc & dec & Henc & Hdec & Hrun);
    [discriminate | simpl; lia | lia | lra | exact I |].
  assert (Hvocab : list_of_set (corpus_symbols [str "a"]) = [str "a"]).
  { apply Permutation_singleton_r. rewrite list_of_set_perm, corpus_a_elements.
    reflexivity. }
  rewrite Hvocab in *.
  subst run unknown. rewrite Hrun. cbn [fst snd self symbol_mapping range].
  injection Henc as <-.
  split; [reflexivity|]. split; [reflexivity|].
  rewrite unknown_symbols. split; [vm_compute; reflexivity|].
  vm_compute. reflexivity.
Qed.

(** ** One step of the networks *)

Lemma length_matvec (W : list vec) (x : vec) : length (matvec W x) = length W.
Proof. apply length_map. Qed.

Lemma length_vadd (u v : vec) : length (vadd u v) = Nat.min (length u) (length v).
Proof. apply length_zip_with. Qed.

Lemma length_vmul (u v : vec) : length (vmul u v) = Nat.min (length u) (length v).
Proof. apply length_zip_with. Qed.

Lemma length_relu (x : vec) : length (relu x) = length x.
Proof. apply length_map. Qed.

Lemma length_log_softmax (x : vec) : length (log_softmax x) = length x.
Proof. apply length_map. Qed.

(** On a cell state of width [n] a well-shaped cell returns states of
    width [n]. *)
Lemma lstm_cell_length (l : LSTM) (n : nat) (x h c : vec) :
  lstm_shaped l n -> length c = n ->
  length (fst (lstm_cell l x h c)) = n /\ length (snd (lstm_cell l x h c)) = n.
Proof.
  intros (_ & Hn & [Hih _] & [Hhh _] & Hbi & Hbh) Hc.
  unfold lstm_cell. cbn [fst snd]. rewrite Hn.
  set (gates := vadd _ _).
  assert (Hg : length gates = (4 * n)%nat).
  { unfold gates. rewrite !length_vadd, !length_matvec. lia. }
  rewrite !length_vmul, !length_map, !length_vadd, !length_vmul, !length_map,
    !length_take, !length_drop, Hg, Hc. lia.
Qed.

Lemma sum_exp_pos (x : vec) : x <> [] -> (0 < sum_exp x)%R.
Proof.
  unfold sum_exp. destruct x as [|a x]; [done|]. intros _. simpl.
  assert (0 <= fold_right Rplus 0 (map exp x))%R.
  { induction x as [|b x IH]; simpl; [lra|]. pose proof (exp_pos b). lra. }
  pose proof (exp_pos a). lra.
Qed.

Lemma sum_exp_shift (x : vec) (a : R) :
  (sum_exp (map (fun xi => xi - a) x) = sum_exp x * / exp a)%R.
Proof.
  unfold sum_exp. induction x as [|b x IH]; simpl.
  - lra.
  - rewrite IH. unfold Rminus. rewrite exp_plus, exp_Ropp. lra.
Qed.

(** The exponentials of a log-softmax sum to one. *)
Lemma sum_exp_log_softmax (x : vec) : x <> [] -> sum_exp (log_softmax x) = 1%R.
Proof.
  intros Hx. pose proof (sum_exp_pos x Hx) as Hpos.
  unfold log_softmax. rewrite sum_exp_shift, exp_ln by exact Hpos.
  apply Rinv_r. lra.
Qed.

Lemma F_relu_bound (G : scope) :
  G !! "F" = Some ObjFunctional -> F_relu G = Ok relu.
Proof. intros HF. unfold F_relu, lookup_name. now rewrite HF. Qed.

Lemma embed_rows_single (W : list vec) (tok : Z) (row : vec) :
  0 <= tok -> W !! Z.to_nat tok = Some row -> embed_rows W [tok] = Ok row.
Proof.
  intros Ht Hrow. cbn [embed_rows]. destruct (Z.ltb_spec tok 0); [lia|].
  rewrite Hrow. cbn. now rewrite app_nil_r.
Qed.

Lemma lookup_in_range {A} (W : list A) (V : nat) (tok : Z) :
  length W = V -> 0 <= tok < Z.of_nat V -> is_Some (W !! Z.to_nat tok).
Proof. intros HW Ht. apply lookup_lt_is_Some. lia. Qed.

(** What the two [forward] methods compute on a single token that has a
    row in the embedding table. *)
Lemma EncoderRNN_forward_single (e : EncoderRNN) (input : LongTensor)
    (tok : Z) (row h c : vec) :
  entries input = [tok] -> 0 <= tok ->
  emb_weight (enc_embedding e) !! Z.to_nat tok = Some row ->
  EncoderRNN_forward e input h c =
  ('(output, (hidden, cell)) ← lstm_forward (enc_lstm e) row h c;
   Ok (output, hidden, cell)).
Proof.
  intros Hin Ht Hrow. unfold EncoderRNN_forward, embed_flat. rewrite Hin.
  now rewrite (embed_rows_single _ tok row Ht Hrow).
Qed.

Lemma DecoderRNN_forward_single (G : scope) (d : DecoderRNN)
    (input : LongTensor) (tok : Z) (row h c : vec) :
  G !! "F" = Some ObjFunctional ->
  entries input = [tok] -> 0 <= tok ->
  emb_weight (dec_embedding d) !! Z.to_nat tok = Some row ->
  DecoderRNN_forward G d input h c =
  ('(output, (hidden, cell)) ← lstm_forward (dec_lstm d) (relu row) h c;
   out ← linear_forward (dec_out d) output;
   Ok (log_softmax out, hidden, cell)).
Proof.
  intros HF Hin Ht Hrow. unfold DecoderRNN_forward, embed_flat. rewrite Hin.
  rewrite (embed_rows_single _ tok row Ht Hrow). cbn [mbind result_bind].
  now rewrite (F_relu_bound G HF).
Qed.

(** The LSTM accepts an input and states of its width. *)
Lemma lstm_forward_shaped (l : LSTM) (n : nat) (x h c : vec) :
  lstm_shaped l n -> length x = n -> length h = n -> length c = n ->
  lstm_forward l x h c
  = Ok (fst (lstm_cell l x h c), (fst (lstm_cell l x h c), snd (lstm_cell l x h c))).
Proof.
  intros (Hi & Hn & _) Hx Hh Hc. unfold lstm_forward.
  rewrite Hi, Hn, Hx, Hh, Hc, Nat.eqb_refl. cbn [negb].
  now destruct (lstm_cell l x h c).
Qed.

Lemma matrix_row_length (W : list vec) (rows cols i : nat) (row : vec) :
  matrix_shaped W rows cols -> W !! i = Some row -> length row = cols.
Proof.
  intros [_ Hrows] Hrow. rewrite Forall_forall in Hrows. apply Hrows.
  eapply list_elem_of_lookup_2. exact Hrow.
Qed.

(** One step of the encoder on a single token inside its table. *)
Lemma EncoderRNN_forward_step (e : EncoderRNN) (V : nat)
    (input : LongTensor) (tok : Z) (h c : vec) :
  encoder_shaped e V ->
  entries input = [tok] -> 0 <= tok < Z.of_nat V ->
  length h = enc_hidden_size e -> length c = enc_hidden_size e ->
  exists row,
    emb_weight (enc_embedding e) !! Z.to_nat tok = Some row /\
    let hc := lstm_cell (enc_lstm e) row h c in
    EncoderRNN_forward e input h c = Ok (fst hc, fst hc, snd hc) /\
    length (fst hc) = enc_hidden_size e /\ length (snd hc) = enc_hidden_size e.
Proof.
  intros [HW Hl] Hin Ht Hh Hc.
  destruct (lookup_in_range _ V tok (proj1 HW) Ht) as [row Hrow].
  exists row. split; [exact Hrow|]. intros hc.
  pose proof (matrix_row_length _ _ _ _ _ HW Hrow) as Hlen.
  destruct (lstm_cell_length (enc_lstm e) _ row h c Hl Hc) as [Hh' Hc'].
  split; [|split; assumption].
  rewrite (EncoderRNN_forward_single e input tok row) by (assumption || lia).
  now rewrite (lstm_forward_shaped _ _ _ _ _ Hl Hlen Hh Hc).
Qed.

(** In a namespace where [F] names [torch.nn.functional] (the module's
    own is not one, see [F_unbound]), a decoder of the constructor's
    shapes, stepped on a token index inside its embedding table and on
    states of its width, embeds the token, applies [relu] to the
    embedding, runs the LSTM cell, projects the new hidden state to the
    size of the vocabulary and returns its log-softmax: a vector with one
    entry per symbol whose exponentials sum to one. *)
Lemma DecoderRNN_forward_step (G : scope) (d : DecoderRNN) (V : nat)
    (input : LongTensor) (tok : Z) (h c : vec) :
  G !! "F" = Some ObjFunctional ->
  decoder_shaped d V ->
  entries input = [tok] -> 0 <= tok < Z.of_nat V ->
  length h = dec_hidden_size d -> length c = dec_hidden_size d ->
  exists row out,
    emb_weight (dec_embedding d) !! Z.to_nat tok = Some row /\
    let hc := lstm_cell (dec_lstm d) (relu row) h c in
    linear_forward (dec_out d) (fst hc) = Ok out /\
    DecoderRNN_forward G d input h c = Ok (log_softmax out, fst hc, snd hc) /\
    length (fst hc) = dec_hidden_size d /\ length (snd hc) = dec_hidden_size d /\
    length (log_softmax out) = V /\
    sum_exp (log_softmax out) = 1%R.
Proof.
  intros HF (HW & Hl & Hfeat & [HWo _] & Hb) Hin Ht Hh Hc.
  destruct (lookup_in_range _ V tok (proj1 HW) Ht) as [row Hrow].
  pose proof (matrix_row_length _ _ _ _ _ HW Hrow) as Hlen.
  destruct (lstm_cell_length (dec_lstm d) _ (relu row) h c Hl Hc) as [Hh' Hc'].
  set (hc := lstm_cell (dec_lstm d) (relu row) h c) in *.
  set (out := vadd (matvec (lin_weight (dec_out d)) (fst hc)) (lin_bias (dec_out d))).
  assert (Hout : linear_forward (dec_out d) (fst hc) = Ok out).
  { unfold linear_forward. now rewrite Hh', Hfeat, Nat.eqb_refl. }
  assert (HoutV : length out = V).
  { unfold out. rewrite length_vadd, length_matvec. lia. }
  exists row, out. split; [exact Hrow|]. cbv zeta. fold hc.
  split; [exact Hout|]. split; [|split; [exact Hh'|split; [exact Hc'|split]]].
  - rewrite (DecoderRNN_forward_single G d input tok row) by (assumption || lia).
    rewrite (lstm_forward_shaped _ _ _ _ _ Hl) by (rewrite ?length_relu; assumption).
    fold hc. cbn [mbind result_bind]. now rewrite Hout.
  - now rewrite length_log_softmax.
  - apply sum_exp_log_softmax. intros ->. simpl in HoutV. lia.
Qed.

Lemma example_decoder_shaped : decoder_shaped example_decoder 2.
Proof.
  unfold decoder_shaped, lstm_shaped, matrix_shaped. cbn.
  repeat split; repeat constructor.
Qed.

(** C4 fails on the code.  The module never imports
    [torch.nn.functional as F], so line 170 raises [NameError] at every
    decoder step the claim speaks of: for every decoder with the shapes
    its constructor gives, every token index inside its embedding table
    and every pair of states of its width, [forward] raises instead of
    returning a distribution.  So does the step that starts every
    decoding, on [SOS_token] and zero states. *)
Theorem DecoderRNN_forward_NameError :
  (forall (d : DecoderRNN) (V : nat) (input : LongTensor) (tok : Z) (h c : vec),
      decoder_shaped d V ->
      entries input = [tok] -> 0 <= tok < Z.of_nat V ->
      length h = dec_hidden_size d -> length c = dec_hidden_size d ->
      DecoderRNN_forward module_globals d input h c = Raise NameError) /\
  decoder_shaped example_decoder 2 /\
  DecoderRNN_forward module_globals example_decoder
    (mkLong [1%nat; 1%nat] [SOS_token])
    (DecoderRNN_initHidden example_decoder) (DecoderRNN_initCell example_decoder)
  = Raise NameError.
Proof.
  assert (Hstep : forall (d : DecoderRNN) (V : nat) (input : LongTensor)
                         (tok : Z) (h c : vec),
             decoder_shaped d V ->
             entries input = [tok] -> 0 <= tok < Z.of_nat V ->
             DecoderRNN_forward module_globals d input h c = Raise NameError).
  { intros d V input tok h c (HW & _) Hin Htok.
    destruct (lookup_in_range _ V tok (proj1 HW) Htok) as [row Hrow].
    unfold DecoderRNN_forward, embed_flat. rewrite Hin.
    rewrite (embed_rows_single _ tok row) by (lia || exact Hrow).
    cbn [mbind result_bind]. unfold F_relu. now rewrite F_unbound. }
  split; [|split].
  - intros d V input tok h c Hshape Hin Htok _ _. now apply (Hstep d V input tok).
  - exact example_decoder_shaped.
  - apply (Hstep example_decoder 2%nat _ SOS_token);
      [exact example_decoder_shaped | reflexivity | unfold SOS_token; lia].
Qed.

Lemma example_encoder_shaped : encoder_shaped example_encoder 2.
Proof.
  unfold encoder_shaped, lstm_shaped, matrix_shaped. cbn.
  repeat split; repeat constructor.
Qed.

Lemma globals_with_F_binds_F : globals_with_F !! "F" = Some ObjFunctional.
Proof. reflexivity. Qed.

Lemma sigmoid_pos (x : R) : (0 < sigmoid x)%R.
Proof.
  unfold sigmoid. pose proof (exp_pos (- x)).
  apply Rdiv_lt_0_compat; lra.
Qed.

(** The states the example LSTM reaches from the zero state on the
    embedding [-1]. *)
Lemma example_cell_plain :
  lstm_cell example_lstm [(-1)%R] [0%R] [0%R]
  = ([(sigmoid (-1) * tanh (sigmoid (-1) * tanh (-1)))%R],
     [(sigmoid (-1) * tanh (-1))%R]).
Proof.
  unfold lstm_cell, example_lstm. cbn -[Rplus Rmult tanh sigmoid IZR].
  replace (1 * -1 + 0 + 0 + (0 * 0 + 0 + 0))%R with (-1)%R by lra.
  replace (sigmoid (-1) * 0 + sigmoid (-1) * tanh (-1))%R
    with (sigmoid (-1) * tanh (-1))%R by lra.
  reflexivity.
Qed.

(** ** The reconstruction loss *)

Section LossProps.
Context `{Runtime}.

Lemma index0_slice (t : LongTensor) (n : nat) (sh : list nat) (i : nat) :
  shape t = n :: sh -> (i < n)%nat ->
  index0 t i = Ok (mkLong sh (take (numel sh) (drop (i * numel sh) (entries t)))).
Proof.
  intros Hs Hi. unfold index0. rewrite Hs.
  destruct (Nat.ltb_spec i n); [reflexivity | lia].
Qed.

Lemma encoder_loop_slices_from (encoder : EncoderRNN) (t : LongTensor)
    (n : nat) (sh : list nat) (m k : nat) (hidden cell : vec) :
  shape t = n :: sh -> (k + m <= n)%nat ->
  encoder_loop encoder (ArgTensor t) (seq k m) hidden cell =
  encode_from encoder
    (map (fun i => mkLong sh (take (numel sh) (drop (i * numel sh) (entries t))))
         (seq k m))
    hidden cell.
Proof.
  intros Hs. revert k hidden cell.
  induction m as [|m IH]; intros k hidden cell Hk; [reflexivity|].
  cbn [seq map encoder_loop encode_from arg_index].
  rewrite (index0_slice t n sh k Hs) by lia. cbn [mbind result_bind].
  destruct (EncoderRNN_forward _ _ _ _) as [[[out h'] c']|e]; [|reflexivity].
  cbn [mbind result_bind]. apply IH. lia.
Qed.

(** The loop of lines 189-190 runs the encoder across the slices of the
    tensor. *)
Lemma encoder_loop_slices (encoder : EncoderRNN) (t : LongTensor)
    (n : nat) (hidden cell : vec) :
  size0 t = Ok n ->
  encoder_loop encoder (ArgTensor t) (seq 0 n) hidden cell =
  encode_from encoder (slices t) hidden cell.
Proof.
  unfold size0, slices. destruct (shape t) as [|n' sh] eqn:Hs; [discriminate|].
  intros [= ->]. now apply (encoder_loop_slices_from encoder t n sh n 0).
Qed.

Lemma generated_succ (G : scope) (decoder : DecoderRNN) (start s s' : fed)
    (dist : vec) (k : nat) :
  generated G decoder start k = Ok s ->
  greedy_step G decoder s = Ok (dist, s') ->
  generated G decoder start (S k) = Ok s'.
Proof. intros Hs Hstep. cbn [generated]. rewrite Hs. cbn. now rewrite Hstep. Qed.

(** The loop of lines 195-202 is the autoregressive run: what it feeds
    the decoder at step [k] is [generated k]. *)
Lemma decoder_loop_generated (G : scope) (decoder : DecoderRNN)
    (criterion : Criterion) (data : batch_arg) (start : fed)
    (steps k : nat) (token : LongTensor) (hidden cell : vec) (loss : R) :
  generated G decoder start k = Ok (token, hidden, cell) ->
  decoder_loop G decoder criterion data (seq k steps) token hidden cell loss =
  autoregressive_loss G decoder criterion data start steps k loss.
Proof.
  revert k token hidden cell loss.
  induction steps as [|steps IH]; intros k token hidden cell loss Hgen;
    [reflexivity|].
  cbn [seq decoder_loop autoregressive_loss]. rewrite Hgen.
  cbn [mbind result_bind].
  pose proof (generated_succ G decoder start (token, hidden, cell)) as Hnext.
  unfold greedy_step in *.
  destruct (DecoderRNN_forward G decoder token hidden cell)
    as [[[dist h'] c']|e]; [|reflexivity].
  cbn [mbind result_bind] in *.
  destruct (topk1 dist) as [topi|e]; [|reflexivity].
  cbn [mbind result_bind] in *.
  destruct (arg_index data k) as [target|e]; [|reflexivity].
  cbn [mbind result_bind].
  destruct (criterion dist target) as [l|e]; [|reflexivity].
  cbn [mbind result_bind].
  destruct (item topi) as [t|e]; [|reflexivity].
  cbn [mbind result_bind].
  destruct (t =? EOS_token); [reflexivity|].
  apply IH. now apply (Hnext _ dist k).
Qed.

(** [topk(1)] picks an index of a largest entry. *)
Lemma topk1_max (dist : vec) (token : LongTensor) :
  topk1 dist = Ok token ->
  exists (i : nat) (y : R),
    token = scalar (Z.of_nat i) /\ dist !! i = Some y /\
    forall j x, dist !! j = Some x -> (x <= y)%R.
Proof.
  unfold topk1. destruct dist as [|x0 dist]; [discriminate|].
  intros [= <-]. set (d := x0 :: dist).
  destruct (topk_index_max d 0 x0 eq_refl) as (y & Hy & _).
  exists (topk_index d), y. split; [reflexivity|]. split; [exact Hy|].
  intros j x Hj. destruct (topk_index_max d j x Hj) as (y' & Hy' & Hle).
  rewrite Hy in Hy'. now injection Hy' as <-.
Qed.

(** C7.  The loss computation steps the decoder autoregressively: the
    first step is fed the start-of-sequence token with the encoder's
    hidden state, every later step the token the step before generated,
    an index of a largest entry of that step's distribution, and never an
    entry of [data], which enters only as the target the step is scored
    against; decoding stops after the first step that generates the
    end-of-sequence marker, or after [target_length = data.size(0)]
    steps. *)
Theorem autoencoderBatchLoss_autoregressive (G : scope) (encoder : EncoderRNN)
    (decoder : DecoderRNN) (data : batch_arg) (criterion : Criterion) :
  autoencoderBatchLoss G encoder decoder data criterion =
  (target_length ← arg_size0 data;
   '(hidden, _) ← encoder_loop encoder data (seq 0 target_length)
                    (zeros (enc_hidden_size encoder))
                    (zeros (enc_hidden_size encoder));
   autoregressive_loss G decoder criterion data
     (mkLong [1%nat; 1%nat] [SOS_token], hidden, zeros (dec_hidden_size decoder))
     target_length 0 0%R) /\
  (forall (s s' : fed) (dist : vec),
      greedy_step G decoder s = Ok (dist, s') ->
      exists (i : nat) (y : R),
        fst (fst s') = scalar (Z.of_nat i) /\ dist !! i = Some y /\
        forall j x, dist !! j = Some x -> (x <= y)%R).
Proof.
  split.
  - unfold autoencoderBatchLoss.
    destruct (arg_size0 data) as [n|e]; [|reflexivity].
    cbn [mbind result_bind].
    unfold EncoderRNN_initHidden, EncoderRNN_initCell, DecoderRNN_initCell.
    destruct (encoder_loop _ _ _ _ _) as [[h c]|e]; [|reflexivity].
    cbn [mbind result_bind]. now apply decoder_loop_generated.
  - intros [[token hidden] cell] [[token' hidden'] cell'] dist. unfold greedy_step.
    destruct (DecoderRNN_forward _ _ _ _ _) as [[[d h'] c']|e]; [|discriminate].
    cbn [mbind result_bind].
    destruct (topk1 d) as [topi|e] eqn:Htop; [|discriminate].
    cbn [mbind result_bind]. intros [= -> -> -> ->]. cbn [fst].
    now apply topk1_max.
Qed.

End LossProps.

(** The encoder's step on the index 1 from the zero state. *)
Lemma example_encoder_step :
  EncoderRNN_forward example_encoder (mkLong [1%nat] [1]) [0%R] [0%R]
  = Ok ([(sigmoid (-1) * tanh (sigmoid (-1) * tanh (-1)))%R],
        [(sigmoid (-1) * tanh (sigmoid (-1) * tanh (-1)))%R],
        [(sigmoid (-1) * tanh (-1))%R]).
Proof.
  rewrite (EncoderRNN_forward_single example_encoder _ 1 [(-1)%R])
    by (reflexivity || lia).
  unfold lstm_forward. cbn [negb Nat.eqb length example_encoder
    enc_lstm example_lstm lstm_input_size lstm_hidden_size].
  change (mkLSTM 1 1 _ _ _ _) with example_lstm.
  rewrite example_cell_plain. reflexivity.
Qed.

(** ** Unknown symbols over a vocabulary of two or more *)

Lemma omap_unknown (mapping : gmap pystr Z) (symbols : list pystr) :
  Forall (fun symb => mapping !! symb = None) symbols ->
  omap (fun symb => mapping !! symb) symbols = [].
Proof.
  induction 1 as [|symb symbols Hs _ IH]; [reflexivity|].
  cbn [omap list_omap]. now rewrite Hs.
Qed.

(** Where the embedding table has a row for index 1, a term of unknown
    symbols is encoded as the end-of-sequence marker alone, and the
    vector has the encoder's width. *)
Lemma term_to_vector_unknown_ok (v : CoqRNNVectorizer)
    (mapping : gmap pystr Z) (encoder : EncoderRNN) (V : nat)
    (term_text : pystr) :
  symbol_mapping v = Some mapping -> mapping <> ∅ ->
  model v = Some encoder -> encoder_shaped encoder V -> (2 <= V)%nat ->
  Forall (fun symb => mapping !! symb = None) (get_symbols term_text) ->
  term_to_vector v term_text
    = fst <$> encode encoder [mkLong [1%nat] [EOS_token]] /\
  exists vector, term_to_vector v term_text = Ok vector /\
                 length vector = enc_hidden_size encoder.
Proof.
  intros Hm Hne He Hshape HV Hunknown.
  assert (Hrun : term_to_vector v term_text
                 = fst <$> encode encoder [mkLong [1%nat] [EOS_token]]).
  { unfold term_to_vector. rewrite Hm, He. cbn [truthy_mapping].
    rewrite bool_decide_false by exact Hne. cbn [negb].
    rewrite (omap_unknown mapping _ Hunknown). cbn [app].
    change (size0 (view_column (long_of_list [EOS_token]))) with (Ok 1%nat).
    cbn [mbind result_bind].
    rewrite (encoder_loop_slices encoder _ 1) by reflexivity.
    unfold encode, EncoderRNN_initHidden, EncoderRNN_initCell.
    change (slices (view_column (long_of_list [EOS_token])))
      with [mkLong [1%nat] [EOS_token]].
    now destruct (encode_from _ _ _ _) as [[h c]|e]. }
  split; [exact Hrun|]. rewrite Hrun. unfold encode. cbn [encode_from].
  destruct (EncoderRNN_forward_step encoder V (mkLong [1%nat] [EOS_token])
              EOS_token (zeros (enc_hidden_size encoder))
              (zeros (enc_hidden_size encoder)) Hshape eq_refl)
    as (row & _ & Hstep & Hlen & _).
  - unfold EOS_token. lia.
  - apply length_replicate.
  - apply length_replicate.
  - rewrite Hstep. cbn. eexists. split; [reflexivity | exact Hlen].
Qed.

(** ** The networks [train] builds *)

Section Constructors.
Context `{Runtime}.

Lemma random_matrix_shaped (off rows cols : nat) :
  matrix_shaped (random_matrix off rows cols) rows cols.
Proof.
  unfold matrix_shaped, random_matrix. split.
  - now rewrite length_map, length_seq.
  - apply Forall_map, Forall_forall. intros i _. cbn.
    now rewrite length_map, length_seq.
Qed.

Lemma LSTM_new_shaped (off n : nat) : lstm_shaped (LSTM_new off n) n.
Proof.
  unfold lstm_shaped, LSTM_new, random_vector. cbn.
  repeat split; try apply random_matrix_shaped;
    now rewrite length_map, length_seq.
Qed.

(** The constructors give the shapes the step lemmas ask for. *)
Lemma EncoderRNN_new_shaped (input_size hidden_size : Z) (e : EncoderRNN) :
  EncoderRNN_new input_size hidden_size = Ok e ->
  encoder_shaped e (Z.to_nat input_size) /\
  enc_hidden_size e = Z.to_nat hidden_size.
Proof.
  unfold EncoderRNN_new. destruct (check_sizes _ _); [|discriminate].
  cbn. intros [= <-]. unfold encoder_shaped. cbn.
  split; [split|reflexivity]; [apply random_matrix_shaped | apply LSTM_new_shaped].
Qed.

Lemma DecoderRNN_new_shaped (hidden_size output_size : Z) (d : DecoderRNN) :
  DecoderRNN_new hidden_size output_size = Ok d ->
  decoder_shaped d (Z.to_nat output_size) /\
  dec_hidden_size d = Z.to_nat hidden_size.
Proof.
  unfold DecoderRNN_new. destruct (check_sizes _ _); [|discriminate].
  cbn. intros [= <-]. unfold decoder_shaped, random_vector. cbn.
  split; [|reflexivity].
  repeat split; try apply random_matrix_shaped; try apply LSTM_new_shaped.
  now rewrite length_map, length_seq.
Qed.

End Constructors.

(** A dictionary without symbols counts as no dictionary: a vectorizer
    trained on a corpus without symbols fails like an untrained one. *)
Lemma term_to_vector_empty_vocabulary (v : CoqRNNVectorizer) (term_text : pystr) :
  symbol_mapping v = Some ∅ -> term_to_vector v term_text = Raise AssertionError.
Proof. intros Hm. unfold term_to_vector. now rewrite Hm. Qed.

(* ===================================================================== *)
(** * Further properties                                                  *)
(* ===================================================================== *)

(** ** What the tokenizer keeps *)

Lemma filter_nonspace_cons_space (c : N) (s : pystr) :
  isspace c = true ->
  filter (fun c => isspace c = false) (c :: s) = filter (fun c => isspace c = false) s.
Proof. intros Hc. rewrite filter_cons_False; [reflexivity | congruence]. Qed.

Lemma filter_nonspace_cons_char (c : N) (s : pystr) :
  isspace c = false ->
  filter (fun c => isspace c = false) (c :: s)
  = c :: filter (fun c => isspace c = false) s.
Proof. intros Hc. now rewrite filter_cons_True. Qed.

(** The substitution only inserts spaces: for every pattern, the text
    without its whitespace is the same before and after. *)
Lemma sub_scan_nonspace (r : regex) (after before : list N) (skip : nat) :
  filter (fun c => isspace c = false) (sub_scan r before after skip)
  = filter (fun c => isspace c = false) (drop skip after).
Proof.
  revert before skip. induction after as [|c rest IH]; intros before skip.
  - now destruct skip.
  - cbn [sub_scan]. destruct skip as [|n]; [|apply IH].
    assert (Hcopy : filter (fun c => isspace c = false)
                      (c :: sub_scan r (c :: before) rest 0)
                    = filter (fun c => isspace c = false) (c :: rest)).
    { destruct (isspace c) eqn:Hc.
      - rewrite !filter_nonspace_cons_space by exact Hc. apply (IH _ 0%nat).
      - rewrite !filter_nonspace_cons_char by exact Hc. f_equal. apply (IH _ 0%nat). }
    destruct (match_len r before (c :: rest)) as [[|n]|]; try exact Hcopy.
    rewrite filter_nonspace_cons_space by reflexivity.
    rewrite filter_app, filter_nonspace_cons_space by reflexivity.
    rewrite IH, <- filter_app.
    change (take (S n) (c :: rest)) with (c :: take n rest).
    rewrite <- app_comm_cons, take_drop. reflexivity.
Qed.

(** [split] cuts at whitespace and loses nothing else. *)
Lemma split_ws_concat (s : pystr) (cur : list N) :
  concat (split_ws cur s) = rev cur ++ filter (fun c => isspace c = false) s.
Proof.
  revert cur. induction s as [|c rest IH]; intros cur; cbn [split_ws].
  - rewrite filter_nil. destruct cur; [reflexivity|]. cbn [concat].
    now rewrite !app_nil_r.
  - destruct (isspace c) eqn:Hc.
    + rewrite filter_nonspace_cons_space by exact Hc.
      destruct cur; [apply IH|]. cbn [concat]. now rewrite IH.
    + rewrite filter_nonspace_cons_char by exact Hc.
      rewrite IH. cbn [rev]. now rewrite <- app_assoc.
Qed.

(** Every piece [split] returns is a non-empty run without whitespace. *)
Lemma split_ws_pieces (s : pystr) (cur : list N) :
  Forall (fun c => isspace c = false) cur ->
  Forall (fun w : pystr => w <> [] /\ Forall (fun c => isspace c = false) w)
         (split_ws cur s).
Proof.
  revert cur. induction s as [|c rest IH]; intros cur Hcur; cbn [split_ws].
  - destruct cur as [|x cur]; [constructor|]. constructor; [|constructor]. split.
    + intros Hnil. apply (f_equal (@length N)) in Hnil.
      rewrite length_rev in Hnil. discriminate.
    + now apply Forall_rev.
  - destruct (isspace c) eqn:Hc.
    + destruct cur as [|x cur]; [now apply IH|].
      constructor; [|now apply IH]. split.
      * intros Hnil. apply (f_equal (@length N)) in Hnil.
        rewrite length_rev in Hnil. discriminate.
      * now apply Forall_rev.
    + apply IH. now constructor.
Qed.

Lemma lstrip_nonspace_head (c : N) (s : pystr) :
  isspace c = false -> lstrip (c :: s) = c :: s.
Proof. intros Hc. cbn [lstrip]. now rewrite Hc. Qed.

(** [strip] leaves a word alone that neither starts nor ends in
    whitespace. *)
Lemma strip_piece (w : pystr) :
  w <> [] -> Forall (fun c => isspace c = false) w -> strip w = w.
Proof.
  intros Hne Hw. unfold strip.
  destruct w as [|c w]; [done|].
  rewrite lstrip_nonspace_head by now inversion Hw.
  destruct (rev (c :: w)) as [|x l] eqn:Hrev.
  - apply (f_equal (@length N)) in Hrev. rewrite length_rev in Hrev. discriminate.
  - rewrite lstrip_nonspace_head.
    + now rewrite <- Hrev, rev_involutive.
    + apply Forall_rev in Hw. rewrite Hrev in Hw. now inversion Hw.
Qed.


Lemma filter_pieces (l : list pystr) :
  Forall (fun w : pystr => w <> [] /\ Forall (fun c => isspace c = false) w) l ->
  filter (fun word => nonempty (strip word) = true) l = l.
Proof.
  induction 1 as [|w l [Hne Hw] _ IH]; [reflexivity|].
  rewrite filter_cons_True, IH; [reflexivity|].
  rewrite (strip_piece w Hne Hw). now destruct w.
Qed.

Lemma split_sub_padded_concat (r : regex) (s : pystr) :
  concat (split (sub_padded r s)) = filter (fun c => isspace c = false) s.
Proof.
  unfold split, sub_padded. rewrite split_ws_concat, sub_scan_nonspace.
  reflexivity.
Qed.

Lemma filter_nonspace_nil (s : pystr) :
  filter (fun c => isspace c = false) s = [] <-> Forall (fun c => isspace c = true) s.
Proof.
  induction s as [|c s IH].
  - split; [constructor | reflexivity].
  - destruct (isspace c) eqn:Hc.
    + rewrite filter_nonspace_cons_space by exact Hc. rewrite IH. split.
      * now constructor.
      * now inversion 1.
    + rewrite filter_nonspace_cons_char by exact Hc. split; [discriminate|].
      inversion 1; congruence.
Qed.

(** X1 (lines 210-214): [get_symbols] loses, invents and reorders
    nothing: the tokens of a string, joined, are the string without its
    whitespace characters. *)
Theorem get_symbols_concat (s : pystr) :
  concat (get_symbols s) = filter (fun c => isspace c = false) s.
Proof.
  unfold get_symbols.
  rewrite filter_pieces by (apply split_ws_pieces; constructor).
  apply split_sub_padded_concat.
Qed.

(** X2 (lines 210-214): no token is empty or contains a whitespace
    character, and a string has no token exactly when it consists of
    whitespace only. *)
Theorem get_symbols_solid_tokens (s : pystr) :
  Forall (fun w : pystr => w <> [] /\ Forall (fun c => isspace c = false) w)
         (get_symbols s)
  /\ (get_symbols s = [] <-> Forall (fun c => isspace c = true) s).
Proof.
  assert (Hpieces : Forall (fun w : pystr => w <> [] /\
                       Forall (fun c => isspace c = false) w)
                      (split (sub_padded symbols_regexp s)))
    by (apply split_ws_pieces; constructor).
  unfold get_symbols. rewrite filter_pieces by exact Hpieces.
  split; [exact Hpieces|].
  rewrite <- filter_nonspace_nil, <- (split_sub_padded_concat symbols_regexp).
  split.
  - now intros ->.
  - intros Hcat. destruct (split _) as [|w l]; [reflexivity|].
    inversion Hpieces as [|? ? [Hne _] _]; subst.
    cbn [concat] in Hcat. apply app_eq_nil in Hcat as [Hw _]. contradiction.
Qed.

(** X3 (line 214): the guard [if word.strip() != ''] never removes a
    word: [get_symbols] returns what [split()] returns. *)
Theorem get_symbols_guard_redundant (s : pystr) :
  get_symbols s = split (sub_padded symbols_regexp s).
Proof.
  unfold get_symbols. apply filter_pieces.
  unfold split. generalize (sub_padded symbols_regexp s) as padded.
  intros padded. apply split_ws_pieces. constructor.
Qed.

(** No alternative of the pattern matches at a character that is not one
    of [operator_chars]. *)
Lemma match_len_plain (c : N) (before rest : list N) :
  existsb (N.eqb c) operator_chars = false ->
  match_len symbols_regexp before (c :: rest) = None.
Proof.
  intros H. cbv -[N.eqb] in H.
  repeat (apply orb_false_elim in H; destruct H as [? H]).
  cbv -[N.eqb in_class].
  repeat match goal with
         | E : (c =? _)%N = false |- _ => rewrite E; clear E
         end.
  destruct before; repeat (destruct (in_class _ _)); reflexivity.
Qed.

Lemma sub_scan_plain (s before : list N) :
  Forall (fun c => plain c = true) s ->
  sub_scan symbols_regexp before s 0 = s.
Proof.
  revert before. induction s as [|c s IH]; intros before Hs; [reflexivity|].
  inversion Hs as [|? ? Hc Hs']; subst. cbn [sub_scan].
  rewrite match_len_plain.
  - now rewrite IH.
  - unfold plain in Hc. apply andb_prop in Hc as [_ Hc].
    now apply negb_true_iff in Hc.
Qed.

Lemma split_ws_run (s cur : list N) :
  cur <> [] -> Forall (fun c => isspace c = false) s ->
  split_ws cur s = [rev cur ++ s].
Proof.
  revert cur. induction s as [|c s IH]; intros cur Hcur Hs; cbn [split_ws].
  - rewrite app_nil_r. now destruct cur.
  - inversion Hs as [|? ? Hc Hs']; subst. rewrite Hc.
    rewrite IH by (done || discriminate). cbn [rev]. now rewrite <- app_assoc.
Qed.

(** X4 (lines 207-214): a non-empty string of plain characters (no
    whitespace, no character an operator starts with) is one token: an
    identifier or a number is never split. *)
Theorem get_symbols_plain_word (s : pystr) :
  s <> [] -> forallb plain s = true -> get_symbols s = [s].
Proof.
  intros Hne Hplain.
  assert (Hs : Forall (fun c => plain c = true) s).
  { apply List.Forall_forall. now apply forallb_forall. }
  assert (Hns : Forall (fun c => isspace c = false) s).
  { eapply Forall_impl; [exact Hs|]. intros c Hc. unfold plain in Hc.
    apply andb_prop in Hc as [Hc _]. now apply negb_true_iff in Hc. }
  unfold get_symbols, split, sub_padded. rewrite sub_scan_plain by exact Hs.
  destruct s as [|c s]; [done|].
  inversion Hns as [|? ? Hc Hns']; subst.
  cbn [split_ws]. rewrite Hc, split_ws_run by (done || discriminate).
  cbn [rev app]. rewrite filter_cons_True; [reflexivity|].
  rewrite strip_piece by (done || discriminate). reflexivity.
Qed.

Lemma get_symbols_plain_word_witness :
  get_symbols (str "forall_x1") = [str "forall_x1"].
Proof. apply get_symbols_plain_word; [discriminate | reflexivity]. Defined.

(** ** Tokenizing is local: whitespace separates *)

Section Barrier.
Variable sp : N.

(** What lies beyond a barrier does not change a match. *)
Lemma rmatch_barrier_after {X} (r : regex) (tail : list N) :
  barrier sp r = true ->
  forall (before after : list N) (n : nat)
         (k1 k2 : list N -> list N -> nat -> option X),
    (forall b a m, k1 b (a ++ sp :: tail) m = k2 b a m) ->
    rmatch r before (after ++ sp :: tail) n k1 = rmatch r before after n k2.
Proof.
  induction r as [c|r1 IH1 r2 IH2|r1 IH1 r2 IH2|c|cs|cs];
    cbn [barrier]; intros Hb before after n k1 k2 Hk.
  - apply negb_true_iff in Hb. destruct after as [|a rest]; cbn.
    + now rewrite Hb.
    + destruct (a =? c)%N; [apply Hk | reflexivity].
  - apply andb_prop in Hb as [Hb1 Hb2]. cbn [rmatch].
    apply IH1; [exact Hb1|]. intros b a m. now apply IH2.
  - apply andb_prop in Hb as [Hb1 Hb2]. cbn [rmatch].
    rewrite (IH1 Hb1 before after n k1 k2 Hk).
    destruct (rmatch r1 before after n k2); [reflexivity|]. now apply IH2.
  - apply negb_true_iff in Hb. destruct after as [|a1 [|a2 rest]]; cbn.
    + now rewrite Hb.
    + destruct (a1 =? c)%N; [|reflexivity]. rewrite Hb. apply (Hk _ []).
    + destruct (a1 =? c)%N; [|reflexivity].
      rewrite (Hk (a2 :: a1 :: before) rest), (Hk (a1 :: before) (a2 :: rest)).
      reflexivity.
  - cbn [rmatch]. destruct before as [|b ?]; [apply Hk|].
    destruct (in_class cs b); [reflexivity | apply Hk].
  - apply negb_true_iff in Hb. destruct after as [|a rest]; cbn.
    + rewrite Hb. apply (Hk _ []).
    + destruct (in_class cs a); [reflexivity|]. apply (Hk _ (a :: rest)).
Qed.

(** After a barrier a match is what it is at the start of the string. *)
Lemma rmatch_barrier_before {X} (r : regex) :
  barrier sp r = true ->
  forall (b1 b2 after : list N) (n : nat)
         (k1 k2 : list N -> list N -> nat -> option X),
    same_lookbehind sp b1 b2 ->
    (forall b1' b2' a m, same_lookbehind sp b1' b2' -> k1 b1' a m = k2 b2' a m) ->
    rmatch r b1 after n k1 = rmatch r b2 after n k2.
Proof.
  induction r as [c|r1 IH1 r2 IH2|r1 IH1 r2 IH2|c|cs|cs];
    cbn [barrier]; intros Hb b1 b2 after n k1 k2 Hctx Hk.
  - destruct after as [|a rest]; cbn; [reflexivity|].
    destruct (a =? c)%N; [|reflexivity]. apply Hk. now left.
  - apply andb_prop in Hb as [Hb1 Hb2]. cbn [rmatch].
    apply IH1; [exact Hb1 | exact Hctx|]. intros b1' b2' a m Hctx'.
    now apply IH2.
  - apply andb_prop in Hb as [Hb1 Hb2]. cbn [rmatch].
    rewrite (IH1 Hb1 b1 b2 after n k1 k2 Hctx Hk).
    destruct (rmatch r1 b2 after n k2); [reflexivity|]. now apply IH2.
  - destruct after as [|a1 [|a2 rest]]; cbn; [reflexivity| |].
    + destruct (a1 =? c)%N; [|reflexivity]. apply Hk. now left.
    + destruct (a1 =? c)%N; [|reflexivity].
      rewrite (Hk (a2 :: a1 :: b1) (a2 :: a1 :: b2)) by now left.
      rewrite (Hk (a1 :: b1) (a1 :: b2)) by now left. reflexivity.
  - apply negb_true_iff in Hb. cbn [rmatch].
    destruct Hctx as [Hhd|[Hhd ->]].
    + destruct b1 as [|x b1], b2 as [|y b2]; try discriminate.
      * apply Hk. now left.
      * injection Hhd as ->.
        destruct (in_class cs y); [reflexivity|]. apply Hk. now left.
    + destruct b1 as [|x b1]; [discriminate|]. injection Hhd as ->.
      rewrite Hb. apply Hk. now right.
  - cbn [rmatch]. destruct after as [|a rest]; [now apply Hk|].
    destruct (in_class cs a); [reflexivity|]. now apply Hk.
Qed.

(** A match consumes characters of the text, no more. *)
Lemma rmatch_consumes {X} (r : regex) :
  forall (before after : list N) (n : nat)
         (k : list N -> list N -> nat -> option X) (x : X),
    rmatch r before after n k = Some x ->
    exists b a m, k b a m = Some x /\ (m + length a = n + length after)%nat.
Proof.
  induction r as [c|r1 IH1 r2 IH2|r1 IH1 r2 IH2|c|cs|cs];
    intros before after n k x; cbn [rmatch].
  - destruct after as [|a rest]; [discriminate|].
    destruct (a =? c)%N; [|discriminate]. intros Hk.
    eexists _, _, _. split; [exact Hk|]. cbn. lia.
  - intros Hrun. apply IH1 in Hrun as (b & a & m & Hrun & Hlen).
    apply IH2 in Hrun as (b' & a' & m' & Hk & Hlen').
    eexists _, _, _. split; [exact Hk|]. lia.
  - destruct (rmatch r1 before after n k) eqn:H1.
    + intros [= <-]. now apply IH1 in H1.
    + apply IH2.
  - destruct after as [|a1 rest1]; [discriminate|].
    destruct (a1 =? c)%N; [|discriminate].
    destruct rest1 as [|a2 rest2].
    + intros Hk. eexists _, _, _. split; [exact Hk|]. cbn. lia.
    + destruct (a2 =? c)%N.
      * destruct (k (a2 :: a1 :: before) rest2 (S (S n))) eqn:H2.
        -- intros [= <-]. eexists _, _, _. split; [exact H2|]. cbn. lia.
        -- intros Hk. eexists _, _, _. split; [exact Hk|]. cbn. lia.
      * intros Hk. eexists _, _, _. split; [exact Hk|]. cbn. lia.
  - destruct before as [|b ?].
    + intros Hk. eexists _, _, _. split; [exact Hk|]. lia.
    + destruct (in_class cs b); [discriminate|].
      intros Hk. eexists _, _, _. split; [exact Hk|]. lia.
  - destruct after as [|a rest].
    + intros Hk. eexists _, _, _. split; [exact Hk|]. lia.
    + destruct (in_class cs a); [discriminate|].
      intros Hk. eexists _, _, _. split; [exact Hk|]. lia.
Qed.

Lemma match_len_bound (r : regex) (before after : list N) (n : nat) :
  match_len r before after = Some n -> (n <= length after)%nat.
Proof.
  unfold match_len. intros Hrun.
  apply rmatch_consumes in Hrun as (b & a & m & [= <-] & Hlen). lia.
Qed.

Variable r : regex.
Hypothesis barrier_r : barrier sp r = true.

Lemma match_len_before_barrier (before after tail : list N) :
  match_len r before (after ++ sp :: tail) = match_len r before after.
Proof. unfold match_len. now apply rmatch_barrier_after. Qed.

Lemma match_len_same_lookbehind (b1 b2 after : list N) :
  same_lookbehind sp b1 b2 -> match_len r b1 after = match_len r b2 after.
Proof.
  intros Hctx. unfold match_len. now apply rmatch_barrier_before.
Qed.

(** The substitution works on the two sides of a barrier apart. *)
Lemma sub_scan_app_barrier (s1 before tail : list N) (skip : nat) :
  (skip <= length s1)%nat ->
  sub_scan r before (s1 ++ sp :: tail) skip
  = sub_scan r before s1 skip ++ sp :: sub_scan r (sp :: rev s1 ++ before) tail 0.
Proof.
  revert before skip. induction s1 as [|c s1 IH]; intros before skip Hskip.
  - destruct skip; [|simpl in Hskip; lia].
    change ([] ++ sp :: tail) with (sp :: tail). cbn [sub_scan rev app].
    change (sp :: tail) with ([] ++ sp :: tail) at 1.
    rewrite match_len_before_barrier.
    destruct (match_len r before []) as [[|n]|] eqn:Hm; try reflexivity.
    apply match_len_bound in Hm. simpl in Hm. lia.
  - assert (Hrev : forall l, rev (c :: s1) ++ l = rev s1 ++ c :: l).
    { intros l. cbn [rev]. now rewrite <- app_assoc. }
    rewrite Hrev. rewrite <- app_comm_cons. cbn [sub_scan].
    destruct skip as [|n]; [|apply IH; simpl in Hskip; lia].
    rewrite app_comm_cons, match_len_before_barrier, <- app_comm_cons.
    destruct (match_len r before (c :: s1)) as [[|n]|] eqn:Hm.
    + rewrite IH by lia. reflexivity.
    + apply match_len_bound in Hm. cbn [length] in Hm.
      rewrite IH by lia.
      change (take (S n) (c :: s1 ++ sp :: tail))
        with (c :: take n (s1 ++ sp :: tail)).
      change (take (S n) (c :: s1)) with (c :: take n s1).
      rewrite (take_app_le s1) by lia.
      rewrite <- !app_comm_cons, <- app_assoc, <- app_comm_cons. reflexivity.
    + rewrite IH by lia. reflexivity.
Qed.

Lemma sub_scan_same_lookbehind (s b1 b2 : list N) (skip : nat) :
  same_lookbehind sp b1 b2 -> sub_scan r b1 s skip = sub_scan r b2 s skip.
Proof.
  revert b1 b2 skip. induction s as [|c s IH]; intros b1 b2 skip Hctx;
    [reflexivity|].
  assert (Hnext : same_lookbehind sp (c :: b1) (c :: b2)) by now left.
  cbn [sub_scan]. destruct skip as [|n]; [|now apply IH].
  rewrite (match_len_same_lookbehind b1 b2 (c :: s) Hctx).
  destruct (match_len r b2 (c :: s)) as [[|n]|];
    now rewrite (IH _ _ _ Hnext).
Qed.

End Barrier.

Lemma split_ws_app_space (a b cur : list N) (sp : N) :
  isspace sp = true ->
  split_ws cur (a ++ sp :: b) = split_ws cur a ++ split_ws [] b.
Proof.
  intros Hsp. revert cur. induction a as [|c a IH]; intros cur.
  - cbn [app split_ws]. rewrite Hsp. now destruct cur.
  - rewrite <- app_comm_cons. cbn [split_ws].
    destruct (isspace c); [|apply IH].
    destruct cur; rewrite IH; reflexivity.
Qed.

Lemma space_outside_printable (sp : N) :
  isspace sp = true -> (sp <= 32 \/ 133 <= sp)%N.
Proof.
  unfold isspace, in_class. cbn [existsb fst snd]. intros Hsp.
  destruct (N.le_gt_cases sp 32) as [|Hlo]; [now left|].
  destruct (N.le_gt_cases 133 sp) as [|Hhi]; [now right|].
  exfalso.
  repeat match type of Hsp with
         | (_ || _) = true => apply orb_prop in Hsp as [Hsp|Hsp]
         | (_ && _) = true =>
             apply andb_prop in Hsp as [?%N.leb_le ?%N.leb_le]; lia
         end.
  discriminate.
Qed.

(** No operator contains a whitespace character, and no lookaround of
    the pattern stops at one. *)
Lemma space_barrier (sp : N) :
  isspace sp = true -> barrier sp symbols_regexp = true.
Proof.
  intros Hsp%space_outside_printable.
  cbv -[N.eqb N.leb andb orb negb].
  repeat match goal with
         | |- context [(sp =? ?k)%N] =>
             rewrite (proj2 (N.eqb_neq sp k)) by lia
         | |- context [((?lo <=? sp)%N && (sp <=? ?hi)%N)] =>
             replace ((lo <=? sp)%N && (sp <=? hi)%N) with false
               by (symmetry; apply andb_false_iff;
                   destruct (N.leb_spec lo sp); [right; apply N.leb_gt; lia
                                                | now left])
         end.
  reflexivity.
Qed.

(** X5 (lines 207-214): tokenizing is local.  A whitespace character
    separates: the tokens of a string are the tokens of what is left of
    the character followed by the tokens of what is right of it. *)
Theorem get_symbols_whitespace_separates (s1 s2 : pystr) (sp : N) :
  isspace sp = true ->
  get_symbols (s1 ++ sp :: s2) = get_symbols s1 ++ get_symbols s2.
Proof.
  intros Hsp. pose proof (space_barrier sp Hsp) as Hb.
  assert (Hsplit : forall s, get_symbols s = split (sub_padded symbols_regexp s)).
  { intros s. unfold get_symbols. apply filter_pieces.
    apply split_ws_pieces. constructor. }
  rewrite !Hsplit. unfold split, sub_padded.
  rewrite (sub_scan_app_barrier sp symbols_regexp Hb s1 [] s2 0) by lia.
  rewrite (sub_scan_same_lookbehind sp symbols_regexp Hb s2
             (sp :: rev s1 ++ []) []) by (right; split; reflexivity).
  now apply split_ws_app_space.
Qed.

Lemma get_symbols_whitespace_separates_witness :
  get_symbols (str "x :=" ++ 32%N :: str "y") =
  get_symbols (str "x :=") ++ get_symbols (str "y").
Proof. apply get_symbols_whitespace_separates. reflexivity. Defined.

(** ** The sequence normaliser *)

(** X6 (lines 231-237): for a target length that is not negative the
    result has exactly that length, it is the sentence followed by fill
    values and cut at the target, and normalising it again changes
    nothing. *)
Theorem normalize_sentence_length_exact (sentence : list Z) (target fill : Z) :
  0 <= target ->
  let result := normalize_sentence_length sentence target fill in
  length result = Z.to_nat target
  /\ result = take (Z.to_nat target) (sentence ++ replicate (Z.to_nat target) fill)
  /\ normalize_sentence_length result target fill = result.
Proof.
  intros Ht result.
  assert (Hform : result
                  = take (Z.to_nat target)
                         (sentence ++ replicate (Z.to_nat target) fill)).
  { subst result. unfold normalize_sentence_length, slice_to.
    destruct (Z.gtb_spec (Z.of_nat (length sentence)) target) as [Hgt|Hle].
    - destruct (Z.ltb_spec target 0); [lia|].
      rewrite take_app_le by lia. reflexivity.
    - destruct (Z.ltb_spec (Z.of_nat (length sentence)) target) as [Hlt|Hge].
      + rewrite take_app_ge by lia. rewrite take_replicate. do 2 f_equal. lia.
      + replace (Z.to_nat target) with (length sentence) by lia.
        now rewrite take_app_length. }
  assert (Hlen : length result = Z.to_nat target).
  { rewrite Hform, length_take, length_app, length_replicate. lia. }
  repeat split; [exact Hlen | exact Hform |].
  unfold normalize_sentence_length at 1. rewrite Hlen.
  destruct (Z.gtb_spec (Z.of_nat (Z.to_nat target)) target); [lia|].
  destruct (Z.ltb_spec (Z.of_nat (Z.to_nat target)) target); [lia|].
  reflexivity.
Qed.

Lemma normalize_sentence_length_exact_witness :
  let result := normalize_sentence_length [7; 8; 9] 5 1 in
  length result = 5%nat
  /\ result = [7; 8; 9; 1; 1]
  /\ normalize_sentence_length result 5 1 = result.
Proof. apply (normalize_sentence_length_exact [7; 8; 9] 5 1). lia. Defined.

(** X7 (lines 232-233): a negative target length raises nothing and pads
    nothing: the slice [sentence[:target_length]] drops the last
    [-target_length] elements, so the result is a prefix of the sentence
    whose length is not the target. *)
Theorem normalize_sentence_length_negative (sentence : list Z) (target fill : Z) :
  target < 0 ->
  normalize_sentence_length sentence target fill
  = take (length sentence - Z.to_nat (- target)) sentence
  /\ Z.of_nat (length (normalize_sentence_length sentence target fill))
     = Z.max 0 (Z.of_nat (length sentence) + target).
Proof.
  intros Ht. unfold normalize_sentence_length, slice_to.
  destruct (Z.gtb_spec (Z.of_nat (length sentence)) target); [|lia].
  destruct (Z.ltb_spec target 0); [|lia].
  replace (Z.to_nat (Z.of_nat (length sentence) + target))
    with (length sentence - Z.to_nat (- target))%nat by lia.
  split; [reflexivity|]. rewrite length_take. lia.
Qed.

Lemma normalize_sentence_length_negative_witness :
  normalize_sentence_length [7; 8; 9] (-1) 1 = [7; 8]
  /\ Z.of_nat (length (normalize_sentence_length [7; 8; 9] (-1) 1)) = 2.
Proof. apply (normalize_sentence_length_negative [7; 8; 9] (-1) 1). lia. Defined.

(** ** The vocabulary is a numbering of the corpus symbols *)

Section VocabularyNumbering.
Context `{Runtime}.

Lemma assigned_inv (token_vocab : list pystr) (start idx : Z) (symbol : pystr) :
  NoDup token_vocab ->
  assigned start token_vocab ∅ !! symbol = Some idx ->
  exists i : nat, token_vocab !! i = Some symbol /\ idx = start + Z.of_nat i.
Proof.
  intros Hnd Hlook.
  destruct (decide (symbol ∈ token_vocab)) as [Hin|Hnot].
  - apply list_elem_of_lookup_1 in Hin as [i Hi]. exists i. split; [exact Hi|].
    rewrite (assigned_lookup _ _ _ i symbol Hnd Hi) in Hlook. congruence.
  - rewrite assigned_fresh in Hlook by exact Hnot. discriminate.
Qed.

(** X8 (lines 63-73): whatever else [train] does, the vocabulary it
    leaves in [self.symbol_mapping] has exactly the symbols of the corpus
    as keys and numbers them without gap or repetition: the indices are
    the numbers from 0 up to the number of symbols, each used once. *)
Theorem train_vocabulary_numbering (G : scope) (terms : list pystr)
    (hidden_size : Z) (learning_rate : R) (n_epochs batch_size print_every : Z)
    (force_max_length : option Z) (st : pystate) :
  exists mapping : gmap pystr Z,
    symbol_mapping
      (self (snd (train G terms hidden_size learning_rate n_epochs batch_size
                    print_every force_max_length st))) = Some mapping /\
    (forall symbol, is_Some (mapping !! symbol) <->
                    exists term, term ∈ terms /\ symbol ∈ get_symbols term) /\
    (forall symbol idx, mapping !! symbol = Some idx ->
                        0 <= idx < Z.of_nat (size (corpus_symbols terms))) /\
    (forall symbol1 symbol2 idx,
        mapping !! symbol1 = Some idx -> mapping !! symbol2 = Some idx ->
        symbol1 = symbol2) /\
    (forall idx, 0 <= idx < Z.of_nat (size (corpus_symbols terms)) ->
                 exists symbol, mapping !! symbol = Some idx).
Proof.
  rewrite train_symbol_mapping.
  set (vocab := list_of_set (corpus_symbols terms)).
  assert (Hnd : NoDup vocab) by apply list_of_set_NoDup.
  assert (Hlen : length vocab = size (corpus_symbols terms))
    by apply list_of_set_length.
  exists (assigned 0 vocab ∅). split; [reflexivity|].
  split; [|split; [|split]].
  - intros symbol. split.
    + intros [idx Hidx]. apply assigned_inv in Hidx as (i & Hi & _); [|exact Hnd].
      apply elem_of_corpus_symbols, elem_of_list_of_set.
      eapply list_elem_of_lookup_2. exact Hi.
    + intros Hin. apply elem_of_corpus_symbols, elem_of_list_of_set in Hin.
      apply list_elem_of_lookup_1 in Hin as [i Hi].
      eexists. apply (assigned_lookup vocab 0 ∅ i symbol Hnd Hi).
  - intros symbol idx Hidx.
    apply assigned_inv in Hidx as (i & Hi & ->); [|exact Hnd].
    apply lookup_lt_Some in Hi. lia.
  - intros symbol1 symbol2 idx H1 H2.
    apply assigned_inv in H1 as (i1 & Hi1 & E1); [|exact Hnd].
    apply assigned_inv in H2 as (i2 & Hi2 & E2); [|exact Hnd].
    assert (i1 = i2) by lia. subst i2. congruence.
  - intros idx Hidx.
    destruct (lookup_lt_is_Some_2 vocab (Z.to_nat idx)) as [symbol Hsym]; [lia|].
    exists symbol. rewrite (assigned_lookup vocab 0 ∅ _ symbol Hnd Hsym).
    f_equal. lia.
Qed.

End VocabularyNumbering.

(** ** What training does to the world *)

Lemma within_mret (allowed : event -> Prop) {A} (a : A) :
  effects_within allowed (mret a : Py A).
Proof. intros st. split; [reflexivity|]. now exists []. Qed.

Lemma within_lift (allowed : event -> Prop) {A} (r : result A) :
  effects_within allowed (lift r).
Proof. intros st. split; [reflexivity|]. now exists []. Qed.

Lemma within_get_self (allowed : event -> Prop) : effects_within allowed get_self.
Proof. intros st. split; [reflexivity|]. now exists []. Qed.

Lemma within_set_symbol_mapping (allowed : event -> Prop)
    (m : option (gmap pystr Z)) :
  effects_within allowed (set_symbol_mapping m).
Proof. intros st. split; [reflexivity|]. now exists []. Qed.

Lemma within_set_model (allowed : event -> Prop) (e : option EncoderRNN) :
  effects_within allowed (set_model e).
Proof. intros st. split; [reflexivity|]. now exists []. Qed.

Lemma within_set_decoder (allowed : event -> Prop) (d : option DecoderRNN) :
  effects_within allowed (set_decoder d).
Proof. intros st. split; [reflexivity|]. now exists []. Qed.

Lemma within_emit (allowed : event -> Prop) (ev : event) :
  allowed ev -> effects_within allowed (emit ev).
Proof.
  intros Hev st. split; [reflexivity|]. exists [ev]. split; [reflexivity|].
  now constructor.
Qed.

Lemma within_bind (allowed : event -> Prop) {A B} (m : Py A) (f : A -> Py B) :
  effects_within allowed m -> (forall a, effects_within allowed (f a)) ->
  effects_within allowed (m ≫= f).
Proof.
  intros Hm Hf st. rewrite Py_bind_unfold.
  destruct (Hm st) as [Hfiles (added & Htrace & Hadded)].
  destruct (m st) as [[a|e] st']; cbn [snd] in *.
  - destruct (Hf a st') as [Hfiles' (added' & Htrace' & Hadded')].
    split; [congruence|]. exists (added' ++ added).
    split; [|now apply Forall_app].
    rewrite Htrace', Htrace. apply app_assoc.
  - split; [exact Hfiles|]. now exists added.
Qed.

Lemma within_for_fold (allowed : event -> Prop) {A S}
    (xs : list A) (body : A -> S -> Py S) (s : S) :
  (forall x s, x ∈ xs -> effects_within allowed (body x s)) ->
  effects_within allowed (for_fold xs body s).
Proof.
  revert s. induction xs as [|x xs IH]; intros s Hbody; cbn [for_fold].
  - apply within_mret.
  - apply within_bind.
    + apply Hbody. now left.
    + intros s'. apply IH. intros y s'' Hy. apply Hbody. now right.
Qed.

Lemma within_assign_symbol (allowed : event -> Prop) (symbol : pystr) (idx : Z) :
  effects_within allowed (assign_symbol symbol idx).
Proof.
  unfold assign_symbol. apply within_bind; [apply within_get_self|].
  intros v. destruct (symbol_mapping v).
  - apply within_set_symbol_mapping.
  - apply within_lift.
Qed.

Lemma elem_of_enumerate {A} (start : Z) (xs : list A) (p : Z * A) :
  p ∈ enumerate start xs -> snd p ∈ xs.
Proof.
  unfold enumerate. intros Hp. apply list_elem_of_lookup_1 in Hp as [i Hi].
  rewrite list_lookup_imap in Hi.
  destruct (xs !! i) as [x|] eqn:Hx; [|discriminate].
  injection Hi as <-. eapply list_elem_of_lookup_2. exact Hx.
Qed.

Section TrainEffects.
Context `{Runtime}.

(** What the loader yields is never a tensor: it is the list that holds
    the batch tensor. *)
Lemma elem_of_batches (dl : DataLoader) (epoch : nat) (data_batch : batch_arg) :
  data_batch ∈ batches dl epoch -> exists ts, data_batch = ArgList ts.
Proof.
  unfold batches. intros Hin. apply list_elem_of_fmap in Hin as (k & -> & _).
  eauto.
Qed.

(** On such a list, the body of the loop over the batches stops at line
    105, after [zero_grad]. *)
Lemma train_batch_list (G : scope) (learning_rate : R)
    (batch_size epoch dataset_size n_epochs print_every batch_num : Z)
    (ts : list LongTensor) (locals : EncoderRNN * DecoderRNN * R)
    (st : pystate) :
  train_batch G learning_rate batch_size epoch dataset_size n_epochs
    print_every (batch_num, ArgList ts) locals st
  = (Raise AttributeError,
     mkState (self st) (files st) (EvZeroGrad :: trace st)).
Proof.
  destruct locals as [[encoder decoder] epoch_loss]. unfold train_batch.
  rewrite Py_bind_unfold, emit_run, lift_bind. reflexivity.
Qed.

(** X9 (lines 58-121): no call of [train], whatever its arguments and
    whatever it returns or raises, writes a file or reaches
    [loss.backward()] or [optimizer.step()]: all it records are epoch
    headers and calls of [zero_grad]. *)
Theorem train_never_steps (G : scope) (terms : list pystr)
    (hidden_size : Z) (learning_rate : R) (n_epochs batch_size print_every : Z)
    (force_max_length : option Z) (st : pystate) :
  let run := train G terms hidden_size learning_rate n_epochs batch_size
               print_every force_max_length st in
  files (snd run) = files st /\
  exists added : list event,
    trace (snd run) = added ++ trace st /\
    Forall (fun ev => ev = EvPrint \/ ev = EvZeroGrad) added.
Proof.
  set (allowed := fun ev => ev = EvPrint \/ ev = EvZeroGrad).
  assert (Hbatch : forall dl bs ds ne pe epoch numbered locals,
             numbered ∈ enumerate 1 (batches dl (Z.to_nat epoch)) ->
             effects_within allowed
               (train_batch G learning_rate bs epoch ds ne pe numbered locals)).
  { intros dl bs ds ne pe epoch [batch_num data_batch] locals Hin st'.
    apply elem_of_enumerate, elem_of_batches in Hin as [ts Hts].
    cbn [snd] in Hts. subst data_batch. rewrite train_batch_list. cbn [snd files trace].
    split; [reflexivity|]. exists [EvZeroGrad]. split; [reflexivity|].
    constructor; [now right | constructor]. }
  assert (Hepoch : forall dl bs ds ne pe epoch nets,
             effects_within allowed
               (train_epoch G learning_rate dl bs ds ne pe epoch nets)).
  { intros dl bs ds ne pe epoch [encoder decoder]. unfold train_epoch.
    apply within_bind; [apply within_emit; now left|]. intros _.
    apply within_bind.
    - apply within_for_fold. intros numbered locals Hin. now apply (Hbatch dl).
    - intros [[encoder' decoder'] epoch_loss].
      apply within_bind; [apply within_set_model|]. intros _.
      apply within_bind; [apply within_set_decoder|]. intros _.
      apply within_mret. }
  apply (fun H => H st). unfold train.
  apply within_bind; [apply within_set_symbol_mapping|]. intros _.
  apply within_bind.
  { unfold for_each. apply within_for_fold. intros [idx symbol] _ _.
    apply within_assign_symbol. }
  intros _. apply within_bind; [apply within_get_self|]. intros v.
  repeat (apply within_bind; [apply within_lift|]; intros ?).
  apply within_bind; [|intros; apply within_mret].
  apply within_for_fold. intros epoch nets _. apply Hepoch.
Qed.

End TrainEffects.

Section TrainingBatch.
Context `{Runtime}.

(** C3 fails on the code.  During training no encoder is run at all:
    whatever the loader yields as a batch is the list that holds the
    batch tensor, and [autoencoderBatchLoss] raises [AttributeError] on
    [data.size(0)] before its first encoder step; so [train] on two terms
    with batches of two stops at its first batch.  Handed the batch
    tensor itself, the function takes the examples for the steps of one
    sequence: on two examples of two indices each it feeds the first
    example to the LSTM as a single step, which the LSTM refuses. *)
Theorem autoencoderBatchLoss_training_batch :
  (forall (G : scope) (encoder : EncoderRNN) (decoder : DecoderRNN)
          (criterion : Criterion) (data_batches : DataLoader) (epoch : nat)
          (data_batch : batch_arg),
      data_batch ∈ batches data_batches epoch ->
      autoencoderBatchLoss G encoder decoder data_batch criterion
      = Raise AttributeError) /\
  fst (train module_globals [str "a + b"; str "c"] 8 (1 / 2)%R 1 2 1 None
         (mkState untrained ∅ [])) = Raise AttributeError /\
  (forall G : scope,
      autoencoderBatchLoss G example_encoder example_decoder
        (ArgTensor (mkLong [2%nat; 2%nat] [0; 1; 0; 1])) NLLLoss
      = Raise RuntimeError).
Proof.
  split; [|split].
  - intros G encoder decoder criterion data_batches epoch data_batch Hin.
    apply elem_of_batches in Hin as [ts ->]. reflexivity.
  - apply train_first_batch_AttributeError;
      [simpl; lia | lia | lia | lra | exact I].
  - intros G. vm_compute. reflexivity.
Qed.

End TrainingBatch.

Section FullBatch.
Context `{Runtime}.

(** X10 (lines 87-107): as soon as the corpus fills one batch, [train]
    under hyperparameters torch accepts raises [AttributeError] at the
    first batch of the first epoch, after one epoch header and one
    [zero_grad]; it leaves the object half updated: the vocabulary is the
    new one while [model] and [_decoder] are what they were before the
    call. *)
Theorem train_full_batch_AttributeError (G : scope) (terms : list pystr)
    (hidden_size : Z) (learning_rate : R) (n_epochs batch_size print_every : Z)
    (force_max_length : option Z) (st : pystate) :
  0 < batch_size <= Z.of_nat (length terms) -> 0 < n_epochs ->
  0 < hidden_size -> (0 <= learning_rate)%R -> force_ok force_max_length ->
  let run := train G terms hidden_size learning_rate n_epochs batch_size
               print_every force_max_length st in
  fst run = Raise AttributeError /\
  symbol_mapping (self (snd run))
    = Some (assigned 0 (list_of_set (corpus_symbols terms)) ∅) /\
  model (self (snd run)) = model (self st) /\
  _decoder (self (snd run)) = _decoder (self st) /\
  trace (snd run) = EvZeroGrad :: EvPrint :: trace st.
Proof.
  intros Hbs Hep Hh Hlr Hf run.
  assert (Hne : terms <> []) by (intros ->; simpl in Hbs; lia).
  destruct (train_to_loop G terms hidden_size learning_rate n_epochs batch_size
              print_every force_max_length st Hne ltac:(lia) Hh Hlr Hf)
    as (enc & dec & t & ds & _ & _ & Ht & Hrun).
  assert (Hfirst : exists k, Z.to_nat n_epochs = S k)
    by (destruct (Z.to_nat n_epochs) eqn:E; [lia | eauto]).
  destruct Hfirst as [k Hk].
  assert (Hcount : exists m, (length terms / Z.to_nat batch_size)%nat = S m).
  { destruct (length terms / Z.to_nat batch_size)%nat eqn:E; [|eauto].
    apply Nat.div_small_iff in E; lia. }
  destruct Hcount as [m Hm].
  assert (Hstop : run =
            (Raise AttributeError,
             mkState (mkVectorizer
                        (Some (assigned 0 (list_of_set (corpus_symbols terms)) ∅))
                        (model (self st)) (_decoder (self st)))
                     (files st) (EvZeroGrad :: EvPrint :: trace st))).
  { subst run. rewrite Hrun, Py_bind_unfold. unfold range. rewrite Hk.
    cbn [seq map for_fold]. rewrite Py_bind_unfold.
    unfold train_epoch at 1. rewrite Py_bind_unfold, emit_run, Py_bind_unfold.
    unfold batches. cbn [dl_dataset dl_batch_size]. rewrite Ht, Hm.
    cbn [seq map]. rewrite enumerate_cons.
    cbn [for_fold]. rewrite Py_bind_unfold, train_batch_list. reflexivity. }
  rewrite Hstop. cbn [fst snd self symbol_mapping model _decoder trace]. auto.
Qed.

End FullBatch.

Lemma train_full_batch_AttributeError_witness :
  let run := train module_globals [str "a + b"; str "c"] 8 (1 / 2)%R 3 2 1 None
               (mkState trained_example ∅ []) in
  fst run = Raise AttributeError /\
  symbol_mapping (self (snd run))
    = Some (assigned 0 (list_of_set (corpus_symbols [str "a + b"; str "c"])) ∅) /\
  model (self (snd run)) = Some example_encoder /\
  _decoder (self (snd run)) = Some example_decoder /\
  trace (snd run) = [EvZeroGrad; EvPrint].
Proof.
  apply (train_full_batch_AttributeError module_globals [str "a + b"; str "c"]
           8 (1 / 2)%R 3 2 1 None (mkState trained_example ∅ []));
    [simpl; lia | lia | lia | lra | exact I].
Defined.

Section TrainReturns.
Context `{Runtime}.

(** X11 (lines 58-121): on a corpus that is not empty, under
    hyperparameters torch accepts, [train] returns exactly when it has no
    batch to process: when it is asked for no epoch, or when the corpus
    has fewer terms than one batch. *)
Theorem train_returns_iff (G : scope) (terms : list pystr)
    (hidden_size : Z) (learning_rate : R) (n_epochs batch_size print_every : Z)
    (force_max_length : option Z) (st : pystate) :
  terms <> [] -> 0 < batch_size ->
  0 < hidden_size -> (0 <= learning_rate)%R -> force_ok force_max_length ->
  fst (train G terms hidden_size learning_rate n_epochs batch_size print_every
         force_max_length st) = Ok tt
  <-> n_epochs <= 0 \/ Z.of_nat (length terms) < batch_size.
Proof.
  intros Hne Hbs Hh Hlr Hf. split.
  - intros Hok.
    destruct (Z.le_gt_cases n_epochs 0) as [|Hep]; [now left|].
    destruct (Z.lt_ge_cases (Z.of_nat (length terms)) batch_size) as [|Hfull];
      [now right|].
    rewrite (train_first_batch_AttributeError G terms hidden_size learning_rate
               n_epochs batch_size print_every force_max_length st) in Hok;
      [discriminate | lia | lia | assumption | assumption | assumption].
  - intros [Hep|Hsmall].
    + destruct (train_to_loop G terms hidden_size learning_rate n_epochs
                  batch_size print_every force_max_length st Hne Hbs Hh Hlr Hf)
        as (enc & dec & t & ds & _ & _ & _ & Hrun).
      rewrite Hrun, Py_bind_unfold. unfold range.
      replace (Z.to_nat n_epochs) with 0%nat by lia. reflexivity.
    + destruct (train_small_corpus G terms hidden_size learning_rate n_epochs
                  batch_size print_every force_max_length st Hne Hsmall Hh Hlr Hf)
        as (enc & dec & _ & _ & Hrun).
      now rewrite Hrun.
Qed.

End TrainReturns.

Lemma train_returns_iff_witness :
  fst (train module_globals [str "a + b"; str "c"] 8 (1 / 2)%R 0 2 1 None
         (mkState untrained ∅ [])) = Ok tt
  <-> 0 <= 0 \/ Z.of_nat (length [str "a + b"; str "c"]) < 2.
Proof.
  apply (train_returns_iff module_globals [str "a + b"; str "c"] 8 (1 / 2)%R
           0 2 1 None (mkState untrained ∅ []));
    [discriminate | lia | lia | lra | exact I].
Defined.

(** ** The vector of a term *)

Lemma tanh_bounds (x : R) : (-1 < tanh x < 1)%R.
Proof.
  unfold tanh, sinh, cosh, Rdiv.
  pose proof (exp_pos x) as Ha. pose proof (exp_pos (- x)) as Hb.
  set (a := exp x) in *. set (b := exp (- x)) in *.
  assert (Hd : (0 < (a + b) * / 2)%R) by lra.
  pose proof (Rinv_0_lt_compat _ Hd) as Hi.
  pose proof (Rinv_r ((a + b) * / 2)%R ltac:(lra)) as Hone.
  set (i := (/ ((a + b) * / 2))%R) in *.
  split; nra.
Qed.

Lemma sigmoid_bounds (x : R) : (0 < sigmoid x < 1)%R.
Proof.
  split; [apply sigmoid_pos|]. unfold sigmoid, Rdiv.
  pose proof (exp_pos (- x)) as Hb. set (b := exp (- x)) in *.
  pose proof (Rinv_0_lt_compat (1 + b)%R ltac:(lra)) as Hi.
  pose proof (Rinv_r (1 + b)%R ltac:(lra)) as Hone.
  set (i := (/ (1 + b))%R) in *. nra.
Qed.

Lemma gated_bounded (a b : vec) :
  Forall (fun y => (-1 <= y <= 1)%R) (vmul (map sigmoid a) (map tanh b)).
Proof.
  unfold vmul. revert b. induction a as [|x a IH]; intros [|y b]; cbn;
    try constructor; [|apply IH].
  pose proof (sigmoid_bounds x). pose proof (tanh_bounds y). split; nra.
Qed.

(** The hidden state an LSTM cell returns is an output gate times a
    hyperbolic tangent. *)
Lemma lstm_cell_hidden_bounded (l : LSTM) (x h c : vec) :
  Forall (fun y => (-1 <= y <= 1)%R) (fst (lstm_cell l x h c)).
Proof. unfold lstm_cell. cbn [fst]. apply gated_bounded. Qed.

Lemma EncoderRNN_forward_hidden_bounded (e : EncoderRNN) (input : LongTensor)
    (h c out h' c' : vec) :
  EncoderRNN_forward e input h c = Ok (out, h', c') ->
  Forall (fun y => (-1 <= y <= 1)%R) h'.
Proof.
  unfold EncoderRNN_forward.
  destruct (embed_flat _ _) as [embedded|]; [|discriminate].
  cbn [mbind result_bind]. unfold lstm_forward.
  repeat (destruct (negb _); [discriminate|]).
  pose proof (lstm_cell_hidden_bounded (enc_lstm e) embedded h c) as Hb.
  destruct (lstm_cell _ _ _ _) as [h1 c1]. cbn. intros [= _ <- _]. exact Hb.
Qed.

Section VectorOfTerm.
Context `{Runtime}.

Lemma encoder_loop_hidden_bounded (e : EncoderRNN) (data : batch_arg)
    (eis : list nat) (h c h' c' : vec) :
  encoder_loop e data eis h c = Ok (h', c') ->
  eis <> [] \/ Forall (fun y => (-1 <= y <= 1)%R) h ->
  Forall (fun y => (-1 <= y <= 1)%R) h'.
Proof.
  revert h c. induction eis as [|ei eis IH]; intros h c Hrun Hstart.
  - injection Hrun as <- <-. now destruct Hstart.
  - cbn [encoder_loop] in Hrun.
    destruct (arg_index data ei) as [input|]; [|discriminate].
    cbn [mbind result_bind] in Hrun.
    destruct (EncoderRNN_forward e input h c) as [[[out h1] c1]|] eqn:Hstep;
      [|discriminate].
    cbn [mbind result_bind] in Hrun. apply (IH h1 c1 Hrun). right.
    now apply (EncoderRNN_forward_hidden_bounded e input h c out h1 c1).
Qed.

Lemma encoder_loop_app (e : EncoderRNN) (data : batch_arg)
    (eis eis' : list nat) (h c : vec) :
  encoder_loop e data (eis ++ eis') h c =
  ('(h', c') ← encoder_loop e data eis h c; encoder_loop e data eis' h' c').
Proof.
  revert h c. induction eis as [|ei eis IH]; intros h c; [reflexivity|].
  cbn [app encoder_loop].
  destruct (arg_index data ei) as [input|]; [|reflexivity].
  cbn [mbind result_bind].
  destruct (EncoderRNN_forward e input h c) as [[[out h1] c1]|]; [|reflexivity].
  cbn [mbind result_bind]. apply IH.
Qed.

(** The row [k] of a column tensor holds its entry [k]. *)
Lemma column_slice (t : LongTensor) (n k : nat) (x : Z) :
  shape t = [n; 1%nat] -> (k < n)%nat -> entries t !! k = Some x ->
  index0 t k = Ok (mkLong [1%nat] [x]).
Proof.
  intros Hs Hk Hx. rewrite (index0_slice t n [1%nat] k Hs Hk).
  change (numel [1%nat]) with 1%nat. rewrite Nat.mul_1_r.
  now rewrite (drop_S _ _ _ Hx).
Qed.

(** Over rows that hold indices inside the table, the loop of lines
    134-135 returns, with states of the encoder's width. *)
Lemma encoder_loop_column_ok (e : EncoderRNN) (V : nat) (t : LongTensor)
    (n m k : nat) (h c : vec) :
  encoder_shaped e V -> shape t = [n; 1%nat] -> (k + m <= n)%nat ->
  length h = enc_hidden_size e -> length c = enc_hidden_size e ->
  (forall i, (k <= i < k + m)%nat ->
             exists x, entries t !! i = Some x /\ 0 <= x < Z.of_nat V) ->
  exists h' c',
    encoder_loop e (ArgTensor t) (seq k m) h c = Ok (h', c') /\
    length h' = enc_hidden_size e /\ length c' = enc_hidden_size e.
Proof.
  intros Hshape Hs. revert k h c.
  induction m as [|m IH]; intros k h c Hk Hh Hc Hin.
  - exists h, c. auto.
  - destruct (Hin k ltac:(lia)) as (x & Hx & Hrange).
    cbn [seq encoder_loop arg_index].
    rewrite (column_slice t n k x Hs ltac:(lia) Hx). cbn [mbind result_bind].
    destruct (EncoderRNN_forward_step e V (mkLong [1%nat] [x]) x h c
                Hshape eq_refl Hrange Hh Hc) as (row & _ & Hstep & Hh' & Hc').
    rewrite Hstep. cbn [mbind result_bind].
    apply IH; [lia | exact Hh' | exact Hc' |].
    intros i Hi. apply Hin. lia.
Qed.

(** A row that holds an index outside the table stops the loop. *)
Lemma encoder_loop_column_outside (e : EncoderRNN) (V : nat) (t : LongTensor)
    (n m : nat) (bad : Z) (h c : vec) :
  encoder_shaped e V -> shape t = [n; 1%nat] -> (m < n)%nat ->
  length h = enc_hidden_size e -> length c = enc_hidden_size e ->
  (forall i, (i < m)%nat ->
             exists x, entries t !! i = Some x /\ 0 <= x < Z.of_nat V) ->
  entries t !! m = Some bad -> ~ 0 <= bad < Z.of_nat V ->
  encoder_loop e (ArgTensor t) (seq 0 (S m)) h c = Raise IndexError.
Proof.
  intros Hshape Hs Hm Hh Hc Hin Hbad Hout.
  rewrite seq_S, encoder_loop_app.
  destruct (encoder_loop_column_ok e V t n m 0 h c Hshape Hs ltac:(lia) Hh Hc)
    as (h' & c' & -> & _ & _).
  { intros i Hi. apply Hin. lia. }
  cbn [mbind result_bind encoder_loop arg_index Nat.add].
  rewrite (column_slice t n m bad Hs Hm Hbad). cbn [mbind result_bind].
  unfold EncoderRNN_forward, embed_flat. cbn [entries embed_rows].
  destruct (Z.ltb_spec bad 0); [reflexivity|].
  destruct Hshape as [[HW _] _].
  rewrite (lookup_ge_None_2 (emb_weight (enc_embedding e))); [reflexivity|].
  lia.
Qed.

(** Lines 125-136 on a vectorizer that passes the two assertions. *)
Lemma term_to_vector_run (v : CoqRNNVectorizer) (mapping : gmap pystr Z)
    (encoder : EncoderRNN) (term_text : pystr) :
  symbol_mapping v = Some mapping -> mapping <> ∅ -> model v = Some encoder ->
  let indices := omap (fun symb => mapping !! symb) (get_symbols term_text)
                 ++ [EOS_token] in
  term_to_vector v term_text =
  fst <$> encoder_loop encoder (ArgTensor (view_column (long_of_list indices)))
            (seq 0 (length indices))
            (zeros (enc_hidden_size encoder)) (zeros (enc_hidden_size encoder)).
Proof.
  intros Hm Hne He indices. unfold term_to_vector. rewrite Hm, He.
  cbn [truthy_mapping]. rewrite bool_decide_false by exact Hne. cbn [negb].
  fold indices. cbn [view_column long_of_list size0 shape numel fold_right
    mbind result_bind].
  rewrite Nat.mul_1_r.
  unfold EncoderRNN_initHidden, EncoderRNN_initCell.
  now destruct (encoder_loop _ _ _ _ _) as [[h c]|].
Qed.

Lemma omap_in_range (mapping : gmap pystr Z) (V : nat) (symbols : list pystr) :
  (forall symbol idx, mapping !! symbol = Some idx -> 0 <= idx < Z.of_nat V) ->
  Forall (fun idx => 0 <= idx < Z.of_nat V)
         (omap (fun symb => mapping !! symb) symbols).
Proof.
  intros Hrange. induction symbols as [|s symbols IH]; [constructor|].
  cbn [omap list_omap]. destruct (mapping !! s) as [idx|] eqn:Hs; [|exact IH].
  constructor; [now apply (Hrange s) | exact IH].
Qed.

(** Where the embedding table has rows for the end-of-sequence marker and
    for every index of the vocabulary, every term has a vector, of the
    encoder's width. *)
Lemma term_to_vector_in_table (v : CoqRNNVectorizer) (mapping : gmap pystr Z)
    (encoder : EncoderRNN) (V : nat) (term_text : pystr) :
  symbol_mapping v = Some mapping -> mapping <> ∅ -> model v = Some encoder ->
  encoder_shaped encoder V -> (2 <= V)%nat ->
  (forall symbol idx, mapping !! symbol = Some idx -> 0 <= idx < Z.of_nat V) ->
  exists vector, term_to_vector v term_text = Ok vector /\
                 length vector = enc_hidden_size encoder.
Proof.
  intros Hm Hne He Hshape HV Hrange.
  rewrite (term_to_vector_run v mapping encoder term_text Hm Hne He). cbv zeta.
  set (indices := _ ++ [EOS_token]).
  assert (Hall : Forall (fun idx => 0 <= idx < Z.of_nat V) indices).
  { apply Forall_app. split; [now apply omap_in_range|].
    constructor; [unfold EOS_token; lia | constructor]. }
  destruct (encoder_loop_column_ok encoder V
              (view_column (long_of_list indices)) (length indices * 1)
              (length indices) 0
              (zeros (enc_hidden_size encoder)) (zeros (enc_hidden_size encoder))
              Hshape eq_refl ltac:(lia))
    as (h' & c' & -> & Hh' & _).
  - apply length_replicate.
  - apply length_replicate.
  - intros i Hi. destruct (lookup_lt_is_Some_2 indices i ltac:(lia)) as [x Hx].
    exists x. split; [exact Hx|].
    rewrite Forall_forall in Hall. apply Hall.
    eapply list_elem_of_lookup_2. exact Hx.
  - exists h'. split; [reflexivity | exact Hh'].
Qed.

(** Where the table has rows for the vocabulary but none for the
    end-of-sequence marker, no term has a vector. *)
Lemma term_to_vector_EOS_outside (v : CoqRNNVectorizer) (mapping : gmap pystr Z)
    (encoder : EncoderRNN) (V : nat) (term_text : pystr) :
  symbol_mapping v = Some mapping -> mapping <> ∅ -> model v = Some encoder ->
  encoder_shaped encoder V -> (V < 2)%nat ->
  (forall symbol idx, mapping !! symbol = Some idx -> 0 <= idx < Z.of_nat V) ->
  term_to_vector v term_text = Raise IndexError.
Proof.
  intros Hm Hne He Hshape HV Hrange.
  rewrite (term_to_vector_run v mapping encoder term_text Hm Hne He). cbv zeta.
  set (known := omap _ _).
  assert (Hall : Forall (fun idx => 0 <= idx < Z.of_nat V) known)
    by now apply omap_in_range.
  rewrite length_app, Nat.add_1_r.
  rewrite (encoder_loop_column_outside encoder V _ (length (known ++ [EOS_token]) * 1)
             (length known) EOS_token); try reflexivity.
  - exact Hshape.
  - rewrite length_app. cbn. lia.
  - apply length_replicate.
  - apply length_replicate.
  - intros i Hi. destruct (lookup_lt_is_Some_2 known i Hi) as [x Hx].
    exists x. cbn [view_column long_of_list entries].
    rewrite lookup_app_l by exact Hi. split; [exact Hx|].
    rewrite Forall_forall in Hall. apply Hall.
    eapply list_elem_of_lookup_2. exact Hx.
  - cbn [view_column long_of_list entries].
    rewrite lookup_app_r by lia. now rewrite Nat.sub_diag.
  - unfold EOS_token. lia.
Qed.

(** X12 (lines 122-136): every vector [term_to_vector] returns has all
    its entries between -1 and 1: it is the hidden state of an LSTM step,
    an output gate times a hyperbolic tangent. *)
Theorem term_to_vector_bounded (v : CoqRNNVectorizer) (term_text : pystr)
    (vector : vec) :
  term_to_vector v term_text = Ok vector ->
  Forall (fun y => (-1 <= y <= 1)%R) vector.
Proof.
  unfold term_to_vector.
  destruct (negb _); [discriminate|].
  destruct (symbol_mapping v) as [mapping|]; [|discriminate].
  destruct (model v) as [encoder|]; [|discriminate].
  set (indices := _ ++ [EOS_token]).
  cbn [view_column long_of_list size0 shape numel fold_right mbind result_bind].
  destruct (encoder_loop _ _ _ _ _) as [[h c]|] eqn:Hrun; [|discriminate].
  cbn [mbind result_bind]. intros [= <-].
  apply (encoder_loop_hidden_bounded _ _ _ _ _ _ _ Hrun). left.
  unfold indices. rewrite length_app, Nat.mul_1_r, Nat.add_1_r, seq_S.
  intros Hnil. now apply app_eq_nil in Hnil as [_ ?].
Qed.

(** X13 (lines 58-136): [train] followed by [term_to_vector].  After a
    call of [train] that returns (a corpus smaller than a batch, one
    epoch or more), what [term_to_vector] does on any term depends on the
    number of distinct symbols of the corpus alone: with none it fails
    its first assertion, with one it raises [IndexError] (the table has
    no row for the end-of-sequence marker), with two or more it returns a
    vector of [hidden_size] entries. *)
Theorem train_then_term_to_vector (G : scope) (terms : list pystr)
    (hidden_size : Z) (learning_rate : R) (n_epochs batch_size print_every : Z)
    (force_max_length : option Z) (st : pystate) (term_text : pystr) :
  terms <> [] -> Z.of_nat (length terms) < batch_size ->
  0 < hidden_size -> (0 <= learning_rate)%R -> force_ok force_max_length ->
  0 < n_epochs ->
  let v := self (snd (train G terms hidden_size learning_rate n_epochs
                        batch_size print_every force_max_length st)) in
  let V := size (corpus_symbols terms) in
  (V = 0%nat -> term_to_vector v term_text = Raise AssertionError) /\
  (V = 1%nat -> term_to_vector v term_text = Raise IndexError) /\
  ((2 <= V)%nat ->
   exists vector, term_to_vector v term_text = Ok vector /\
                  length vector = Z.to_nat hidden_size).
Proof.
  intros Hne Hsmall Hh Hlr Hf Hep v V.
  destruct (train_small_corpus G terms hidden_size learning_rate n_epochs
              batch_size print_every force_max_length st Hne Hsmall Hh Hlr Hf)
    as (enc & dec & Henc & _ & Hrun).
  set (vocab := list_of_set (corpus_symbols terms)) in *.
  assert (Hlen : length vocab = V) by apply list_of_set_length.
  assert (Hnd : NoDup vocab) by apply list_of_set_NoDup.
  assert (Hv : v = mkVectorizer (Some (assigned 0 vocab ∅)) (Some enc) (Some dec)).
  { subst v. rewrite Hrun. cbn [snd self]. unfold range.
    destruct (Z.to_nat n_epochs) eqn:E; [lia | reflexivity]. }
  apply EncoderRNN_new_shaped in Henc as [Hshape Hwidth].
  rewrite Nat2Z.id, Hlen in Hshape.
  assert (Hrange : forall symbol idx,
             assigned 0 vocab ∅ !! symbol = Some idx -> 0 <= idx < Z.of_nat V).
  { intros symbol idx Hidx.
    apply assigned_inv in Hidx as (i & Hi & ->); [|exact Hnd].
    apply lookup_lt_Some in Hi. lia. }
  assert (Hfull : (1 <= V)%nat -> assigned 0 vocab ∅ <> ∅).
  { intros HV Hempty.
    destruct (lookup_lt_is_Some_2 vocab 0 ltac:(lia)) as [symbol Hsym].
    pose proof (assigned_lookup vocab 0 ∅ 0 symbol Hnd Hsym) as Hlook.
    rewrite Hempty in Hlook. discriminate. }
  rewrite Hv. split; [|split].
  - intros HV. apply term_to_vector_empty_vocabulary. cbn [symbol_mapping].
    destruct vocab; [reflexivity | simpl in Hlen; lia].
  - intros HV.
    apply (term_to_vector_EOS_outside _ (assigned 0 vocab ∅) enc V);
      try reflexivity; try assumption; [apply Hfull|]; lia.
  - intros HV. rewrite <- Hwidth.
    apply (term_to_vector_in_table _ (assigned 0 vocab ∅) enc V);
      try reflexivity; try assumption. apply Hfull. lia.
Qed.

End VectorOfTerm.

Lemma train_then_term_to_vector_witness :
  let v := self (snd (train module_globals [str "a + b"] 8 (1 / 2)%R 1 2 1 None
                        (mkState untrained ∅ []))) in
  let V := size (corpus_symbols [str "a + b"]) in
  (V = 0%nat -> term_to_vector v (str "b + c") = Raise AssertionError) /\
  (V = 1%nat -> term_to_vector v (str "b + c") = Raise IndexError) /\
  ((2 <= V)%nat ->
   exists vector, term_to_vector v (str "b + c") = Ok vector /\
                  length vector = Z.to_nat 8).
Proof.
  apply (train_then_term_to_vector module_globals [str "a + b"] 8 (1 / 2)%R
           1 2 1 None (mkState untrained ∅ []) (str "b + c"));
    [discriminate | simpl; lia | lia | lra | exact I | lia].
Defined.

Lemma term_to_vector_bounded_witness :
  exists vector,
    term_to_vector trained_example (str "a") = Ok vector /\
    Forall (fun y => (-1 <= y <= 1)%R) vector.
Proof.
  eexists. split.
  - vm_compute. reflexivity.
  - apply (term_to_vector_bounded trained_example (str "a")).
    vm_compute. reflexivity.
Defined.

(** ** The errors of the two [forward] methods *)

Lemma embed_rows_in_table (W : list vec) (idx : list Z) :
  Forall (fun i => 0 <= i < Z.of_nat (length W)) idx ->
  exists embedded, embed_rows W idx = Ok embedded.
Proof.
  induction 1 as [|i idx Hi _ [rest' IH]]; [now exists []|].
  cbn [embed_rows]. destruct (Z.ltb_spec i 0); [lia|].
  destruct (lookup_lt_is_Some_2 W (Z.to_nat i) ltac:(lia)) as [row ->].
  rewrite IH. cbn. eauto.
Qed.

Lemma embed_rows_outside (W : list vec) (idx : list Z) :
  ~ Forall (fun i => 0 <= i < Z.of_nat (length W)) idx ->
  embed_rows W idx = Raise IndexError.
Proof.
  induction idx as [|i idx IH]; intros Hnot; [destruct Hnot; constructor|].
  cbn [embed_rows]. destruct (Z.ltb_spec i 0); [reflexivity|].
  destruct (W !! Z.to_nat i) as [row|] eqn:Hrow; [|reflexivity].
  rewrite IH; [reflexivity|]. intros Hrest. apply Hnot. constructor; [|exact Hrest].
  apply lookup_lt_Some in Hrow. lia.
Qed.

Lemma embed_rows_length (W : list vec) (rows cols : nat) (idx : list Z)
    (embedded : vec) :
  matrix_shaped W rows cols -> embed_rows W idx = Ok embedded ->
  length embedded = (length idx * cols)%nat.
Proof.
  intros HW. revert embedded. induction idx as [|i idx IH]; intros embedded.
  - now intros [= <-].
  - cbn [embed_rows]. destruct (i <? 0); [discriminate|].
    destruct (W !! Z.to_nat i) as [row|] eqn:Hrow; [|discriminate].
    destruct (embed_rows W idx) as [rest'|]; [|discriminate].
    cbn. intros [= <-]. rewrite length_app, (IH rest' eq_refl).
    now rewrite (matrix_row_length W rows cols _ row HW Hrow).
Qed.

(** X14 (lines 146-151): what the encoder's [forward] does on an encoder
    with the constructor's shapes and states of its width.  An index
    outside the embedding table is an [IndexError]; indices inside the
    table are a [RuntimeError] of the LSTM unless there is exactly one;
    on one index inside the table it returns, the output being the new
    hidden state, with states of the same width. *)
Theorem EncoderRNN_forward_outcome (e : EncoderRNN) (V : nat)
    (input : LongTensor) (h c : vec) :
  encoder_shaped e V -> (0 < enc_hidden_size e)%nat ->
  length h = enc_hidden_size e -> length c = enc_hidden_size e ->
  let in_table :=
    Forall (fun i => 0 <= i < Z.of_nat V) (entries input) in
  (~ in_table -> EncoderRNN_forward e input h c = Raise IndexError) /\
  (in_table -> length (entries input) <> 1%nat ->
   EncoderRNN_forward e input h c = Raise RuntimeError) /\
  (in_table -> length (entries input) = 1%nat ->
   exists output hidden cell,
     EncoderRNN_forward e input h c = Ok (output, hidden, cell) /\
     output = hidden /\
     length hidden = enc_hidden_size e /\ length cell = enc_hidden_size e).
Proof.
  intros Hshape Hn Hh Hc in_table. pose proof Hshape as [HW Hl].
  pose proof (proj1 HW) as HV. subst in_table V.
  split; [|split].
  - intros Hout. unfold EncoderRNN_forward, embed_flat.
    now rewrite embed_rows_outside.
  - intros Hin Hlen. unfold EncoderRNN_forward, embed_flat.
    destruct (embed_rows_in_table _ _ Hin) as [embedded Hemb]. rewrite Hemb.
    cbn [mbind result_bind]. unfold lstm_forward.
    rewrite (embed_rows_length _ _ _ _ _ HW Hemb), (proj1 Hl).
    destruct (Nat.eqb_spec (length (entries input) * enc_hidden_size e)
                (enc_hidden_size e)) as [Heq|_]; [|reflexivity].
    exfalso. apply Hlen. nia.
  - intros Hin Hlen.
    destruct (entries input) as [|tok [|? ?]] eqn:Hentries; try discriminate.
    apply Forall_inv in Hin.
    destruct (EncoderRNN_forward_step e (length (emb_weight (enc_embedding e)))
                input tok h c Hshape Hentries Hin Hh Hc)
      as (row & _ & Hstep & Hh' & Hc').
    eexists _, _, _. split; [exact Hstep|]. auto.
Qed.

Lemma EncoderRNN_forward_outcome_witness :
  let in_table :=
    Forall (fun i => 0 <= i < Z.of_nat 2) (entries (mkLong [2%nat] [0; 1])) in
  (~ in_table ->
   EncoderRNN_forward example_encoder (mkLong [2%nat] [0; 1]) [0%R] [0%R]
   = Raise IndexError) /\
  (in_table -> length (entries (mkLong [2%nat] [0; 1])) <> 1%nat ->
   EncoderRNN_forward example_encoder (mkLong [2%nat] [0; 1]) [0%R] [0%R]
   = Raise RuntimeError) /\
  (in_table -> length (entries (mkLong [2%nat] [0; 1])) = 1%nat ->
   exists output hidden cell,
     EncoderRNN_forward example_encoder (mkLong [2%nat] [0; 1]) [0%R] [0%R]
     = Ok (output, hidden, cell) /\
     output = hidden /\
     length hidden = enc_hidden_size example_encoder /\
     length cell = enc_hidden_size example_encoder).
Proof.
  apply (EncoderRNN_forward_outcome example_encoder 2 (mkLong [2%nat] [0; 1])
           [0%R] [0%R]);
    [exact example_encoder_shaped | simpl; lia | reflexivity | reflexivity].
Defined.

(** X15 (lines 168-172): as the module is written, the decoder's
    [forward] never returns, whatever the decoder, the input and the
    states: an index outside the embedding table is an [IndexError], and
    otherwise line 170 raises [NameError], the module binding no name
    [F]. *)
Theorem DecoderRNN_forward_never_returns (d : DecoderRNN)
    (input : LongTensor) (h c : vec) :
  let in_table :=
    Forall (fun i => 0 <= i < Z.of_nat (length (emb_weight (dec_embedding d))))
           (entries input) in
  (in_table -> DecoderRNN_forward module_globals d input h c = Raise NameError) /\
  (~ in_table -> DecoderRNN_forward module_globals d input h c = Raise IndexError).
Proof.
  cbv zeta. unfold DecoderRNN_forward, embed_flat. split.
  - intros Hin. destruct (embed_rows_in_table _ _ Hin) as [embedded ->].
    cbn [mbind result_bind]. unfold F_relu. now rewrite F_unbound.
  - intros Hout. now rewrite embed_rows_outside.
Qed.

Lemma DecoderRNN_forward_raises (d : DecoderRNN) (input : LongTensor) (h c : vec) :
  exists e, DecoderRNN_forward module_globals d input h c = Raise e.
Proof.
  unfold DecoderRNN_forward.
  destruct (embed_flat _ _) as [embedded|e]; [|now exists e].
  cbn [mbind result_bind]. unfold F_relu. rewrite F_unbound. now eexists.
Qed.

Section LossAsWritten.
Context `{Runtime}.

(** X16 (lines 180-204): as the module is written,
    [autoencoderBatchLoss] returns on one kind of data only, a tensor
    whose first dimension is 0, and then the loss is 0: on anything else
    it raises, at the latest at the first step of the decoder. *)
Theorem autoencoderBatchLoss_as_written (encoder : EncoderRNN)
    (decoder : DecoderRNN) (data : batch_arg) (criterion : Criterion) (loss : R) :
  autoencoderBatchLoss module_globals encoder decoder data criterion = Ok loss
  <-> loss = 0%R /\ exists t, data = ArgTensor t /\ size0 t = Ok 0%nat.
Proof.
  unfold autoencoderBatchLoss. split.
  - destruct data as [t|ts]; [|discriminate]. cbn [arg_size0].
    destruct (size0 t) as [[|n]|] eqn:Hsize; [| |discriminate].
    + cbn. intros [= <-]. eauto.
    + cbn [mbind result_bind].
      destruct (encoder_loop _ _ _ _ _) as [[hidden cell]|]; [|discriminate].
      cbn [mbind result_bind seq decoder_loop].
      destruct (DecoderRNN_forward_raises decoder
                  (mkLong [1%nat; 1%nat] [SOS_token]) hidden
                  (DecoderRNN_initCell decoder)) as [e ->].
      discriminate.
  - intros [-> (t & -> & Hsize)]. cbn [arg_size0]. rewrite Hsize. reflexivity.
Qed.

Lemma elem_le_sum_exp (out : vec) (i : nat) (x : R) :
  out !! i = Some x -> (exp x <= sum_exp out)%R.
Proof.
  unfold sum_exp. revert i. induction out as [|y out IH]; intros i Hi; [done|].
  assert (Hrest : (0 <= fold_right Rplus 0 (map exp out))%R).
  { clear. induction out as [|b out IH]; simpl; [lra|].
    pose proof (exp_pos b). lra. }
  destruct i as [|i]; cbn in *.
  - injection Hi as ->. lra.
  - specialize (IH i Hi). pose proof (exp_pos y). lra.
Qed.

(** A log-probability is not positive. *)
Lemma log_softmax_nonpos (out : vec) (i : nat) (y : R) :
  log_softmax out !! i = Some y -> (y <= 0)%R.
Proof.
  unfold log_softmax. rewrite list_lookup_fmap.
  destruct (out !! i) as [x|] eqn:Hx; [|discriminate]. cbn. intros [= <-].
  pose proof (elem_le_sum_exp out i x Hx) as Hle.
  pose proof (exp_pos x) as Hpos.
  destruct (Rle_or_lt x (ln (sum_exp out))) as [Hok|Hlt]; [lra|].
  apply exp_increasing in Hlt. rewrite exp_ln in Hlt by lra. lra.
Qed.

Lemma DecoderRNN_forward_dist (G : scope) (d : DecoderRNN) (input : LongTensor)
    (h c dist h' c' : vec) :
  DecoderRNN_forward G d input h c = Ok (dist, h', c') ->
  exists out, dist = log_softmax out.
Proof.
  unfold DecoderRNN_forward.
  destruct (embed_flat _ _); [|discriminate]. cbn [mbind result_bind].
  destruct (F_relu G); [|discriminate]. cbn [mbind result_bind].
  destruct (lstm_forward _ _ _ _) as [[output [h1 c1]]|]; [|discriminate].
  cbn [mbind result_bind].
  destruct (linear_forward _ _) as [out|]; [|discriminate].
  cbn. intros [= <- _ _]. now exists out.
Qed.

Lemma NLLLoss_nonneg (out : vec) (target : LongTensor) (l : R) :
  NLLLoss (log_softmax out) target = Ok l -> (0 <= l)%R.
Proof.
  unfold NLLLoss.
  destruct (shape target) as [|[|[|?]] [|? ?]]; try discriminate.
  destruct (entries target) as [|t [|? ?]]; try discriminate.
  destruct (t <? 0); [discriminate|].
  destruct (log_softmax out !! Z.to_nat t) as [y|] eqn:Hy; [|discriminate].
  intros [= <-]. apply log_softmax_nonpos in Hy. lra.
Qed.

Lemma decoder_loop_nonneg (G : scope) (decoder : DecoderRNN) (data : batch_arg)
    (dis : list nat) (decoder_input : LongTensor) (hidden cell : vec)
    (loss result : R) :
  decoder_loop G decoder NLLLoss data dis decoder_input hidden cell loss
    = Ok result ->
  (0 <= loss)%R -> (0 <= result)%R.
Proof.
  revert decoder_input hidden cell loss.
  induction dis as [|di dis IH]; intros decoder_input hidden cell loss.
  - cbn. intros [= <-]. auto.
  - cbn [decoder_loop].
    destruct (DecoderRNN_forward G decoder decoder_input hidden cell)
      as [[[dist h'] c']|] eqn:Hstep; [|discriminate].
    apply DecoderRNN_forward_dist in Hstep as [out ->].
    cbn [mbind result_bind].
    destruct (topk1 _) as [topi|]; [|discriminate]. cbn [mbind result_bind].
    destruct (arg_index data di) as [target|]; [|discriminate].
    cbn [mbind result_bind].
    destruct (NLLLoss _ target) as [l|] eqn:Hl; [|discriminate].
    apply NLLLoss_nonneg in Hl. cbn [mbind result_bind].
    destruct (item topi) as [tok|]; [|discriminate]. cbn [mbind result_bind].
    destruct (tok =? EOS_token).
    + intros [= <-] Hloss. lra.
    + intros Hrun Hloss. apply (IH _ _ _ _ Hrun). lra.
Qed.

(** X17 (lines 180-204, with [nn.NLLLoss] as at line 98): whatever the
    global names are bound to, a loss that [autoencoderBatchLoss] returns
    is not negative: it is a sum of negated log-probabilities. *)
Theorem autoencoderBatchLoss_nonneg (G : scope) (encoder : EncoderRNN)
    (decoder : DecoderRNN) (data : batch_arg) (loss : R) :
  autoencoderBatchLoss G encoder decoder data NLLLoss = Ok loss ->
  (0 <= loss)%R.
Proof.
  unfold autoencoderBatchLoss.
  destruct (arg_size0 data) as [n|]; [|discriminate]. cbn [mbind result_bind].
  destruct (encoder_loop _ _ _ _ _) as [[hidden cell]|]; [|discriminate].
  cbn [mbind result_bind]. intros Hrun.
  apply (decoder_loop_nonneg _ _ _ _ _ _ _ _ _ Hrun). lra.
Qed.

End LossAsWritten.

Lemma autoencoderBatchLoss_as_written_witness :
  autoencoderBatchLoss module_globals example_encoder example_decoder
    (ArgTensor (mkLong [0%nat; 1%nat] [])) NLLLoss = Ok 0%R.
Proof.
  apply autoencoderBatchLoss_as_written. split; [reflexivity|].
  eexists. split; reflexivity.
Defined.

Lemma autoencoderBatchLoss_nonneg_witness :
  exists loss,
    autoencoderBatchLoss globals_with_F example_encoder example_decoder
      (ArgTensor (mkLong [1%nat; 1%nat] [1])) NLLLoss = Ok loss /\
    (0 <= loss)%R.
Proof.
  assert (Hrun : exists loss,
             autoencoderBatchLoss globals_with_F example_encoder example_decoder
               (ArgTensor (mkLong [1%nat; 1%nat] [1])) NLLLoss = Ok loss).
  { unfold autoencoderBatchLoss.
    cbn [arg_size0 size0 shape mbind result_bind seq encoder_loop arg_index].
    change (index0 (mkLong [1%nat; 1%nat] [1]) 0) with (Ok (mkLong [1%nat] [1])).
    cbn [mbind result_bind].
    change (EncoderRNN_initHidden example_encoder) with [0%R].
    change (EncoderRNN_initCell example_encoder) with [0%R].
    rewrite example_encoder_step. cbn [mbind result_bind decoder_loop].
    destruct (DecoderRNN_forward_step globals_with_F example_decoder 2
                (mkLong [1%nat; 1%nat] [SOS_token]) 0
                [(sigmoid (-1) * tanh (sigmoid (-1) * tanh (-1)))%R]
                (DecoderRNN_initCell example_decoder)
                globals_with_F_binds_F example_decoder_shaped eq_refl
                ltac:(lia) eq_refl eq_refl)
      as (row & out & _ & _ & -> & _ & _ & Hlen & _).
    cbn [mbind result_bind].
    destruct (log_softmax out) as [|y0 [|y1 [|? ?]]]; try discriminate.
    cbn [topk1 mbind result_bind arg_index].
    change (index0 (mkLong [1%nat; 1%nat] [1]) 0) with (Ok (mkLong [1%nat] [1])).
    cbn [mbind result_bind NLLLoss shape entries Z.ltb Z.compare Z.to_nat
         Pos.to_nat Pos.iter_op lookup list_lookup item scalar].
    destruct (_ =? _); eexists; reflexivity. }
  destruct Hrun as [loss Hloss]. exists loss. split; [exact Hloss|].
  exact (autoencoderBatchLoss_nonneg globals_with_F example_encoder
           example_decoder _ loss Hloss).
Defined.

(** ** [silent] *)

Lemma run_statements_silenced (block : list statement) (w : streams) :
  sys_stdout w = DummyFile -> sys_stderr w = DummyFile ->
  let after := snd (run_statements block w) in
  sys_stdout after = DummyFile /\ sys_stderr after = DummyFile /\
  shown after = shown w.
Proof.
  revert w. induction block as [|[x|x|e] rest IH]; intros w Hout Herr;
    cbn [run_statements snd]; auto.
  - rewrite Hout. unfold print_to, file_write. now apply IH.
  - rewrite Herr. unfold print_to, file_write. now apply IH.
Qed.

(** What the block returns or raises does not depend on the streams. *)
Lemma run_statements_outcome (block : list statement) (w w' : streams) :
  fst (run_statements block w) = fst (run_statements block w').
Proof.
  revert w w'. induction block as [|[x|x|e] rest IH]; intros w w';
    cbn [run_statements fst]; auto.
Qed.

(** X19 (lines 17-31): under [with silent():] a block of prints to the
    two standard streams shows nothing; when the block is left, by its
    end or by an exception, [sys.stdout] and [sys.stderr] name what they
    named before, and the exception, if any, goes on to the caller. *)
Theorem silent_discards (block : list statement) (w : streams) :
  let run := silent (run_statements block) w in
  shown (snd run) = shown w /\
  sys_stdout (snd run) = sys_stdout w /\
  sys_stderr (snd run) = sys_stderr w /\
  fst run = fst (run_statements block w).
Proof.
  cbv zeta. unfold silent. cbn [sys_stdout sys_stderr shown].
  pose proof (run_statements_silenced block
                (mkStreams DummyFile DummyFile (shown w)) eq_refl eq_refl)
    as (_ & _ & Hshown).
  pose proof (run_statements_outcome block
                (mkStreams DummyFile DummyFile (shown w)) w) as Hout.
  destruct (run_statements block (mkStreams DummyFile DummyFile (shown w)))
    as [outcome after].
  cbn [fst snd sys_stdout sys_stderr shown] in *. auto.
Qed.
